(** * trainerAPI: dataset validation and training-job lifecycle

    A shallow embedding of the parts of [sd35l_trainer] that decide the
    behaviour of dataset validation ([config.validate_dataset_structure])
    and of the job lifecycle ([training.TrainingManager]: [cancel_training],
    [monitor_training], [download_result]).

    Conventions.
    - A Python [str] is a [string]; entry names are byte strings and
      [str.lower] acts on the ASCII letters.
    - A Python [set] of strings is a [gset string].  The order in which
      Python iterates over a set is not fixed by the language: it is a
      section variable [set_iter], only known to enumerate the set without
      repetition.
    - [print] / [console.print] output is a list of lines, an exception
      is the left summand of the outcome.
    - Remote calls and calls on the file system are recorded in traces;
      the answers of the remote service and of the operating system, the
      exceptions they raise included, are inputs. *)

From Stdlib Require Import String Ascii ZArith Lia.
From stdpp Require Import base list gmap sets strings pretty.

(** ** Python string primitives *)

Module Py.

Local Open Scope Z_scope.

Definition nl : string := String "010"%char "".

Definition is_upper (c : ascii) : bool :=
(65 <=? nat_of_ascii c)%nat && (nat_of_ascii c <=? 90)%nat.

Definition lower_char (c : ascii) : ascii :=
if is_upper c then ascii_of_nat (nat_of_ascii c + 32) else c.

(** [s.lower()] *)
Fixpoint lower (s : string) : string :=
match s with
| EmptyString => EmptyString
| String c s' => String (lower_char c) (lower s')
end.

(** [s.startswith(p)] *)
Fixpoint startswith (s p : string) : bool :=
match p, s with
| EmptyString, _ => true
| String _ _, EmptyString => false
| String a p', String b s' => if Ascii.eqb a b then startswith s' p' else false
end.

(** [s.endswith(p)] *)
Definition endswith (s p : string) : bool :=
let n := String.length s in
let m := String.length p in
(m <=? n)%nat && String.eqb (String.substring (n - m) m s) p.

(** [needle in s] *)
Fixpoint contains (needle s : string) : bool :=
startswith s needle ||
match s with
| EmptyString => false
| String _ s' => contains needle s'
end.

(** [sep.join(l)] *)
Definition join (sep : string) (l : list string) : string :=
String.concat sep l.

(** [s.rfind(c)] for a one-character [c]: the last index of [c], or [-1]. *)
Fixpoint rfind_from (c : ascii) (s : string) (i : Z) (found : Z) : Z :=
match s with
| EmptyString => found
| String a s' => rfind_from c s' (i + 1) (if Ascii.eqb a c then i else found)
end.

Definition rfind (s : string) (c : ascii) : Z := rfind_from c s 0 (-1).

(** [s[:i]] and [s[i:]] for [0 <= i]. *)
Definition slice_to (s : string) (i : Z) : string :=
String.substring 0 (Z.to_nat i) s.

Definition slice_from (s : string) (i : Z) : string :=
String.substring (Z.to_nat i) (String.length s - Z.to_nat i) s.

(** [s.split(c)] for a one-character separator. *)
Fixpoint split (s : string) (c : ascii) : list string :=
match s with
| EmptyString => [EmptyString]
| String a s' =>
if Ascii.eqb a c then EmptyString :: split s' c
else match split s' c with
   | h :: t => String a h :: t
   | [] => [String a EmptyString]
   end
end.

(** [l[-1]] of a list that [split] returned (never empty). *)
Definition last_item (l : list string) : string := List.last l EmptyString.

(** The [while] loop of [genericpath._splitext]: from [filenameIndex],
for [fuel = dotIndex - filenameIndex] positions, look for a character
that is not a dot. *)
Fixpoint splitext_scan (p : string) (filenameIndex : nat) (fuel : nat) : bool :=
match fuel with
| O => false
| S fuel' =>
match String.get filenameIndex p with
| Some c =>
  if negb (Ascii.eqb c ".") then true
  else splitext_scan p (S filenameIndex) fuel'
| None => true
end
end.

(** [os.path.splitext(p)] of [posixpath]: [sep = '/'], no [altsep],
[extsep = '.']. *)
Definition splitext (p : string) : string * string :=
let sepIndex := rfind p "/" in
let dotIndex := rfind p "." in
if (sepIndex <? dotIndex) &&
 splitext_scan p (Z.to_nat (sepIndex + 1)) (Z.to_nat (dotIndex - (sepIndex + 1)))
then (slice_to p dotIndex, slice_from p dotIndex)
else (p, EmptyString).

(** [pathlib.PurePath.suffix] of a file name. *)
Definition suffix (name : string) : string :=
let i := rfind name "." in
if (0 <? i) && (i <? Z.of_nat (String.length name) - 1)
then slice_from name i else EmptyString.

(** [str.isspace] of a character below 128. *)
Definition is_space (c : ascii) : bool :=
let n := nat_of_ascii c in
((9 <=? n)%nat && (n <=? 13)%nat) || ((28 <=? n)%nat && (n <=? 32)%nat).

(** [s.lstrip()], [s.rstrip()], [s.strip()] *)
Fixpoint lstrip (s : string) : string :=
match s with
| EmptyString => EmptyString
| String c s' => if is_space c then lstrip s' else s
end.

Fixpoint rstrip (s : string) : string :=
match s with
| EmptyString => EmptyString
| String c s' =>
  match rstrip s' with
  | EmptyString => if is_space c then EmptyString else String c EmptyString
  | r => String c r
  end
end.

Definition strip (s : string) : string := rstrip (lstrip s).

(** [c.isalnum()] of a character below 128, and [s.isalnum()]. *)
Definition is_alnum_char (c : ascii) : bool :=
let n := nat_of_ascii c in
((48 <=? n)%nat && (n <=? 57)%nat) || ((65 <=? n)%nat && (n <=? 90)%nat)
|| ((97 <=? n)%nat && (n <=? 122)%nat).

Fixpoint all_chars (p : ascii → bool) (s : string) : bool :=
match s with
| EmptyString => true
| String c s' => p c && all_chars p s'
end.

Definition isalnum (s : string) : bool :=
negb (String.eqb s EmptyString) && all_chars is_alnum_char s.

(** [s.replace(old, new)] for a one-character [old]. *)
Fixpoint replace (s : string) (old : ascii) (new : string) : string :=
match s with
| EmptyString => EmptyString
| String c s' =>
  if Ascii.eqb c old then new +:+ replace s' old new
  else String c (replace s' old new)
end.

(** [s[:stop]] for any integer [stop]: a negative one counts from the
end. *)
Definition slice_stop (s : string) (stop : Z) : string :=
let len := Z.of_nat (String.length s) in
let stop := if stop <? 0 then Z.max 0 (stop + len) else stop in
String.substring 0 (Z.to_nat (Z.min stop len)) s.

(** The strings of the model are sequences of characters below 128: on
these [lower], [strip] and [isalnum] are Python's. *)
Definition ascii_only (s : string) : Prop :=
all_chars (λ c, (nat_of_ascii c <? 128)%nat) s = true.

(** [int(s)] for base 10 on a string of characters below 128: the
    interpreter skips the whitespace of the C locale (tab, line feed,
    vertical tab, form feed, carriage return, space: not the separators
    U+001C to U+001F, which [str.strip] removes) on both sides, then reads
    an optional sign and digits, with single underscores allowed between
    digits.  The interpreter's limit on the number of digits (4300 by
    default) is left out: what is proved of [int] is stated for shorter
    strings. *)
Definition is_c_space (c : ascii) : bool :=
  let n := nat_of_ascii c in
  ((9 <=? n)%nat && (n <=? 13)%nat) || (n =? 32)%nat.

Fixpoint skip_left (s : string) : string :=
  match s with
  | EmptyString => EmptyString
  | String c s' => if is_c_space c then skip_left s' else s
  end.

Fixpoint skip_right (s : string) : string :=
  match s with
  | EmptyString => EmptyString
  | String c s' =>
      match skip_right s' with
      | EmptyString => if is_c_space c then EmptyString else String c EmptyString
      | r => String c r
      end
  end.

Definition is_digit (c : ascii) : bool :=
  (48 <=? nat_of_ascii c)%nat && (nat_of_ascii c <=? 57)%nat.

Definition digit_value (c : ascii) : Z := Z.of_nat (nat_of_ascii c - 48).

Fixpoint parse_digits (s : string) (acc : Z) (after_digit : bool) : option Z :=
  match s with
  | EmptyString => if after_digit then Some acc else None
  | String c s' =>
      if is_digit c then parse_digits s' (10 * acc + digit_value c) true
      else if Ascii.eqb c "_" then
        if after_digit then parse_digits s' acc false else None
      else None
  end.

Definition int (s : string) : option Z :=
  match skip_right (skip_left s) with
  | String "+" digits => parse_digits digits 0 false
  | String "-" digits => Z.opp <$> parse_digits digits 0 false
  | digits => parse_digits digits 0 false
  end.

End Py.

(** ** Outcomes of a call: printed lines and a value or an exception *)

(** The exceptions, by the place they come from, which is how the code
    tells them apart.  [RequestException] is what a call of [requests]
    raises; some of these ([MissingSchema], [InvalidSchema], [InvalidURL])
    are [ValueError]s of Python as well, which this type does not record:
    nothing below depends on it.  [OSError] stands for what a call on the
    file system raises ([FileNotFoundError], [FileExistsError],
    [PermissionError] and the like) and [RemoteError] for what a call of
    the [replicate] client raises. *)
Inductive exn :=
| ValueError (msg : string)
| RequestException (msg : string)
| BadZipFile (msg : string)
| RemoteError (msg : string)
| AttributeError (msg : string)
| TypeError (msg : string)
| OSError (msg : string)
| KeyboardInterrupt.

(** [str(e)] *)
Definition str (e : exn) : string :=
  match e with
  | ValueError msg | RequestException msg | BadZipFile msg | RemoteError msg
  | AttributeError msg | TypeError msg | OSError msg => msg
  | KeyboardInterrupt => ""
  end.

Record run (A : Type) := Run { printed : list string; outcome : exn + A }.
Arguments Run {A} _ _.
Arguments printed {A} _.
Arguments outcome {A} _.

(** ** Archive Inspector: [config.validate_dataset_structure] *)

Module Dataset.

Import Py.

(** What [requests.get] and [zipfile.ZipFile] give the function: a
transport failure, a file that is no ZIP archive, or the archive's
[namelist()]. *)
Inductive archive :=
| DownloadFails (msg : string)
| NotAZip (msg : string)
| Listing (file_list : list string).

Inductive kind := Image | Caption | Other.

Global Instance kind_eq_dec : EqDecision kind.
Proof. solve_decision. Defined.

Definition image_extensions : gset string :=
{[ ".jpg"; ".jpeg"; ".png"; ".bmp"; ".tiff"; ".tif"; ".webp" ]}.

(** The condition of the list comprehension that computes [files]. *)
Definition keep (f : string) : bool :=
negb (endswith f "/") && negb (startswith f ".") && negb (startswith f "__MACOSX").

(** [base_name = os.path.splitext(file)[0]] *)
Definition base_name (file : string) : string := (splitext file).1.

(** [ext = os.path.splitext(file_lower)[1]] *)
Definition ext (file : string) : string := (splitext (lower file)).2.

(** The [if ... elif ... else] of the categorising loop. *)
Definition classify (file : string) : kind :=
if bool_decide (ext file ∈ image_extensions) then Image
else if String.eqb (ext file) ".txt" then Caption
else Other.

Record categories := Categories {
image_files : list (string * string);
text_files : list (string * string);
other_files : list string
}.

(** One iteration of [for file in files]. *)
Definition categorize_step (acc : categories) (file : string) : categories :=
match classify file with
| Image =>
Categories (image_files acc ++ [(base_name file, file)]) (text_files acc) (other_files acc)
| Caption =>
Categories (image_files acc) (text_files acc ++ [(base_name file, file)]) (other_files acc)
| Other =>
Categories (image_files acc) (text_files acc) (other_files acc ++ [file])
end.

Definition categorize (files : list string) : categories :=
foldl categorize_step (Categories [] [] []) files.

(** [{base for base, _ in pairs}] *)
Definition bases (pairs : list (string * string)) : gset string :=
list_to_set pairs.*1.

Definition empty_message : string :=
"Dataset ZIP file appears to be empty or contains no valid files".

Definition no_captions_message : string :=
"No caption files (.txt) found in dataset." +:+ nl +:+
"IMPORTANT: Manual captioning is required - each image must have a corresponding .txt file." +:+ nl +:+
"Example: image1.jpg → image1.txt, photo2.png → photo2.txt".

Definition warning_line (n : nat) : string :=
"Warning: Found " +:+ pretty n +:+ " caption file(s) without matching images.".

Definition success_line (paired_count : nat) : string :=
"✓ Dataset validation passed: " +:+ pretty paired_count +:+
" properly paired image/caption files found".

Definition note_line (n : nat) : string :=
"Note: " +:+ pretty n +:+ " other files found (will be ignored during training)".

Section Inspector.

(** The iteration order of a Python set. *)
Variable set_iter : gset string → list string.
Hypothesis set_iter_perm : ∀ X, set_iter X ≡ₚ elements X.

Definition no_images_message : string :=
  "No image files found in dataset. Supported formats: " +:+
  join ", " (set_iter image_extensions).

(** [list(unpaired_images)[:5]] *)
Definition listed_names (unpaired_images : gset string) : list string :=
  take 5 (set_iter unpaired_images).

(** [f" and {len(unpaired_images)-5} more" if len(unpaired_images) > 5 else ""] *)
Definition remainder (unpaired_images : gset string) : string :=
  if (5 <? size unpaired_images)%nat
  then " and " +:+ pretty (size unpaired_images - 5)%nat +:+ " more"
  else "".

Definition unpaired_images_message (unpaired_images : gset string) : string :=
  "Found " +:+ pretty (size unpaired_images) +:+
  " image(s) without matching caption files." +:+ nl +:+
  "Missing captions for: " +:+ join ", " (listed_names unpaired_images) +:+
  remainder unpaired_images +:+ nl +:+
  "Each image must have a corresponding .txt file with the same filename.".

(** The body of [with zipfile.ZipFile(...) as zip_file:], from the
archive's name list on. *)
Definition inspect (file_list : list string) : run bool :=
  let files := List.filter keep file_list in
  match files with
  | [] => Run [] (inl (ValueError empty_message))
  | _ :: _ =>
  let c := categorize files in
  let image_bases := bases (image_files c) in
  let text_bases := bases (text_files c) in
  match image_files c, text_files c with
  | [], _ => Run [] (inl (ValueError no_images_message))
  | _ :: _, [] => Run [] (inl (ValueError no_captions_message))
  | _ :: _, _ :: _ =>
  let unpaired_images := image_bases ∖ text_bases in
  let unpaired_texts := text_bases ∖ image_bases in
  if decide (unpaired_images = ∅) then
let paired_count := size (image_bases ∩ text_bases) in
Run ((if decide (unpaired_texts = ∅) then []
  else [warning_line (size unpaired_texts)]) ++
 [success_line paired_count] ++
 (match other_files c with
  | [] => []
  | _ :: _ => [note_line (length (other_files c))]
  end))
(inr true)
  else Run [] (inl (ValueError (unpaired_images_message unpaired_images)))
  end
  end.

(** The handler [except Exception as e] around the whole function. *)
Definition handler (e : exn) : exn :=
  if contains "image/caption" (str e) || contains "caption" (str e) then e
  else ValueError ("Failed to validate dataset structure: " +:+ str e).

Definition validate_dataset_structure (a : archive) : run bool :=
  let r := match a with
   | DownloadFails msg => Run [] (inl (RequestException msg))
   | NotAZip msg => Run [] (inl (BadZipFile msg))
   | Listing file_list => inspect file_list
   end in
  Run ("Downloading dataset for validation..." :: printed r)
  (match outcome r with
   | inl e => inl (handler e)
   | inr b => inr b
   end).

End Inspector.

(** *** Specification-side vocabulary

The entries of a listing that survive the filter and fall in a given
class, and the set of their base names. *)

Definition pairs (k : kind) (files : list string) : list (string * string) :=
(λ f, (base_name f, f)) <$> List.filter (λ f, bool_decide (classify f = k)) files.

Definition is_entry (k : kind) (file_list : list string) (f : string) : Prop :=
f ∈ file_list ∧ keep f = true ∧ classify f = k.

Definition members (k : kind) (file_list : list string) : list string :=
List.filter (λ f, keep f && bool_decide (classify f = k)) file_list.

Definition base_set (k : kind) (file_list : list string) : gset string :=
list_to_set (base_name <$> members k file_list).

(** A string without the letter [c]: it cannot mention [caption]. *)
Definition no_c (s : string) : bool := all_chars (λ a, negb (Ascii.eqb "c" a)) s.

End Dataset.


(** ** Job Client and Lifecycle Orchestrator: [training.TrainingManager] *)

Module Lifecycle.

(** The calls that leave the process, in the order they are made. *)
Inductive action :=
| GetTraining            (* [client.trainings.get(training_id)] *)
| CancelRequest          (* [training.cancel()] *)
| Sleep (seconds : nat)  (* [time.sleep(check_interval)] *)
| Download.              (* [requests.get(output_url, stream=True)] *)

Global Instance action_eq_dec : EqDecision action.
Proof. solve_decision. Defined.

(** The attributes of a remote training that the manager reads. *)
Record training := Training {
status : string;
error : option string;
output : option string;
input : option (gmap string string);
destination : option string
}.

(** What the remote service and the terminal give back. *)
Inductive get_response :=
| GetOk (t : training)
| GetFails (msg : string)
| GetInterrupted.

Inductive cancel_response := CancelOk | CancelFails (msg : string).

Inductive sleep_response := Slept | SleepInterrupted.

(** [get_training_status]: the snapshot, or the exception after the
failure line; [KeyboardInterrupt] is no [Exception] and passes. *)
Definition get_training_status (r : get_response) : run training :=
match r with
| GetOk t => Run [] (inr t)
| GetFails msg =>
Run ["[red]✗ Failed to get training status: " +:+ msg +:+ "[/red]"]
  (inl (RemoteError msg))
| GetInterrupted => Run [] (inl KeyboardInterrupt)
end.

(** [status in ['starting', 'processing']] *)
Definition cancelable (st : string) : bool :=
String.eqb st "starting" || String.eqb st "processing".

(** [cancel_training] *)
Definition cancel_training (training_id : string)
(g : get_response) (c : cancel_response) : list action * run bool :=
match g with
| GetOk t =>
if cancelable (status t) then
match c with
| CancelOk =>
    ([GetTraining; CancelRequest],
     Run ["[yellow]Training " +:+ training_id +:+ " cancellation requested[/yellow]"]
         (inr true))
| CancelFails msg =>
    ([GetTraining; CancelRequest],
     Run ["[red]✗ Failed to cancel training: " +:+ msg +:+ "[/red]"]
         (inl (RemoteError msg)))
end
else
([GetTraining],
 Run ["[yellow]Training " +:+ training_id +:+ " cannot be cancelled (status: " +:+
      status t +:+ ")[/yellow]"]
     (inr false))
| GetFails msg =>
([GetTraining],
 Run ["[red]✗ Failed to cancel training: " +:+ msg +:+ "[/red]"]
   (inl (RemoteError msg)))
| GetInterrupted => ([GetTraining], Run [] (inl KeyboardInterrupt))
end.

(** One turn of [while True]: the answer to the status call and, when
the loop gets there, how [time.sleep] ends. *)
Record iteration := Iteration { poll : get_response; sleep : sleep_response }.

(** What [monitor_training] has done on a script of answers; [result] is
[None] while the loop is still running at the end of the script. *)
Record monitored := Monitored {
calls : list action;
lines : list string;
result : option string
}.

Definition stopped_line (training_id : string) : string :=
Py.nl +:+ "[yellow]Monitoring stopped. Training " +:+ training_id +:+
" continues in background.[/yellow]".

Definition before (a : list action) (l : list string) (m : monitored) : monitored :=
Monitored (a ++ calls m) (l ++ lines m) (result m).

(** The [while True] loop of [monitor_training]. *)
Fixpoint monitor_loop (training_id : string) (check_interval : nat)
(script : list iteration) : monitored :=
match script with
| [] => Monitored [] [] None
| it :: rest =>
let r := get_training_status (poll it) in
match outcome r with
| inl KeyboardInterrupt =>
  Monitored [GetTraining] (printed r ++ [stopped_line training_id])
            (Some "monitoring_stopped")
| inl e =>
  Monitored [GetTraining]
            (printed r ++ ["[red]Error monitoring training: " +:+ str e +:+ "[/red]"])
            (Some "error")
| inr status_info =>
  let st := status status_info in
  if String.eqb st "succeeded" then
    Monitored [GetTraining]
      [ "[green]✓ Training " +:+ training_id +:+ " completed successfully![/green]" ]
      (Some st)
  else if String.eqb st "failed" then
    Monitored [GetTraining]
      [ "[red]✗ Training " +:+ training_id +:+ " failed: " +:+
        default "None" (error status_info) +:+ "[/red]" ]
      (Some st)
  else if String.eqb st "canceled" then
    Monitored [GetTraining]
      [ "[yellow]Training " +:+ training_id +:+ " was canceled[/yellow]" ]
      (Some st)
  else
    match sleep it with
    | Slept =>
        before [GetTraining; Sleep check_interval] []
               (monitor_loop training_id check_interval rest)
    | SleepInterrupted =>
        Monitored [GetTraining; Sleep check_interval]
                  [stopped_line training_id] (Some "monitoring_stopped")
    end
end
end.

(** [monitor_training]: the opening line, then the loop. *)
Definition monitor_training (training_id : string) (check_interval : nat)
(script : list iteration) : monitored :=
before [] ["[yellow]Monitoring training " +:+ training_id +:+ "...[/yellow]"]
 (monitor_loop training_id check_interval script).

(** The number of status calls in a trace. *)
Definition polls (a : list action) : nat :=
length (List.filter (λ x, bool_decide (x = GetTraining)) a).

(** The calls of [n] turns of the loop that end in a full sleep. *)
Fixpoint waits (check_interval : nat) (n : nat) : list action :=
match n with
| O => []
| S n' => GetTraining :: Sleep check_interval :: waits check_interval n'
end.

(** Vocabulary of the specification. *)
Definition terminal (st : string) : Prop :=
st = "succeeded" ∨ st = "failed" ∨ st = "canceled".

Global Instance terminal_dec (st : string) : Decision (terminal st).
Proof. unfold terminal. apply _. Defined.

(** A turn in which the job answers with the non-terminal status [st]
and the sleep runs to its end. *)
Definition waiting (it : iteration) : Prop :=
∃ t, poll it = GetOk t ∧ ¬ terminal (status t) ∧ sleep it = Slept.

(** A turn in which the interrupt arrives: in the status call, or in the
sleep that follows a non-terminal answer. *)
Definition interrupted (it : iteration) : Prop :=
poll it = GetInterrupted ∨
∃ t, poll it = GetOk t ∧ ¬ terminal (status t) ∧ sleep it = SleepInterrupted.

(** The strings [monitor_training] can return. *)
Definition verdicts : list string :=
["succeeded"; "failed"; "canceled"; "monitoring_stopped"; "error"].

(** The shape of a trace of the loop: turns that slept, then at most one
more status call, itself followed by at most one sleep. *)
Definition loop_trace (check_interval : nat) (a : list action) : Prop :=
∃ n, a = waits check_interval n ∨ a = waits check_interval n ++ [GetTraining]
 ∨ a = waits check_interval n ++ [GetTraining; Sleep check_interval].

(** What holds of the monitor on every script of answers. *)
Definition well_behaved (check_interval : nat) (script : list iteration)
(m : monitored) : Prop :=
(∀ r, result m = Some r → r ∈ verdicts)
∧ polls (calls m) ≤ length script
∧ (result m = None → polls (calls m) = length script)
∧ loop_trace check_interval (calls m).

(** A job that reports [st] and nothing else. *)
Definition job (st : string) : training := Training st None None None None.

Definition answer (st : string) : iteration := Iteration (GetOk (job st)) Slept.

End Lifecycle.

(** ** Result Materializer: [TrainingManager.download_result] *)

Module Materializer.

Import Py.

(** The [pathlib] object [output_path / name]. *)
Inductive path := PathJoin (output_dir : string) (name : string).

(** What [requests.get] and [raise_for_status] give. *)
Inductive download_response :=
| FetchFails (msg : string)
| Fetched.

(** [destination.split('/')[-1] if '/' in destination else destination] *)
Definition model_name (destination : string) : string :=
if contains "/" destination then last_item (split destination "/") else destination.

(** [f"{model_name}_{trigger_word}.safetensors"] *)
Definition new_filename (model_name trigger_word : string) : string :=
model_name +:+ "_" +:+ trigger_word +:+ ".safetensors".

(** The calls on the file system, in the order they are made.  The names
    of [Rename], [IsFile] and [Unlink] are relative to the output
    directory. *)
Inductive fs_call :=
| MkdirOutput            (* [output_path.mkdir(parents=True, exist_ok=True)] *)
| MkdirCaptions          (* [captions_path.mkdir(exist_ok=True)] *)
| SaveArchive            (* the block [with tempfile.NamedTemporaryFile(...)] *)
| ExtractAll             (* [tarfile.open] and [tar.extractall(path=output_path)] *)
| Glob (pattern : string)
| Rename (src dst : string)
| Iterdir
| IsFile (name : string)
| Unlink (name : string)
| UnlinkTemp.            (* [os.unlink(tmp_file_path)] of [finally] *)

Global Instance fs_call_eq_dec : EqDecision fs_call.
Proof. solve_decision. Defined.

(** An entry that [iterdir] yields: its name (a file name, as
    [os.listdir] gives it, without a separator), what [is_file] answers
    for it and what [unlink] would. *)
Record entry := Entry {
  entry_name : string;
  entry_is_file : exn + bool;
  entry_unlink : option exn
}.

(** What the operating system answers to each call: for a call that
    returns nothing, [None] or the exception it raises; for a [glob] and
    for [iterdir], the names it yields or the exception.  Each name that
    [glob('*.txt')] yields comes with the answer to its [rename]. *)
Record answers := Answers {
  mkdir_output : option exn;
  mkdir_captions : option exn;
  save_archive : option exn;
  extract_all : option exn;
  safetensors_files : exn + list string;
  rename_model : option exn;
  caption_files : exn + list (string * option exn);
  entries : exn + list entry;
  unlink_temp : option exn
}.

(** A computation on the file system: the calls made, and a value or
    the exception that ended it. *)
Definition io (A : Type) : Type := list fs_call * (exn + A).

Definition ret {A} (x : A) : io A := ([], inr x).

Definition bind {A B} (m : io A) (f : A → io B) : io B :=
  match m.2 with
  | inl e => (m.1, inl e)
  | inr x => (m.1 ++ (f x).1, (f x).2)
  end.

Notation "x ⇐ m ; f" := (bind m (λ x, f))
  (at level 100, m at next level, right associativity).

(** A call that returns nothing, and one that returns a value. *)
Definition call (c : fs_call) (answer : option exn) : io unit :=
  ([c], match answer with Some e => inl e | None => inr tt end).

Definition ask {A} (c : fs_call) (answer : exn + A) : io A := ([c], answer).

(** [try: body finally: handler]: an exception of the handler replaces
    the outcome of the body. *)
Definition finally {A} (body : io A) (handler : io unit) : io A :=
  (body.1 ++ handler.1,
   match handler.2 with
   | inl e => inl e
   | inr _ => body.2
   end).

(** The loop over [caption_files]. *)
Fixpoint move_captions (caption_files : list (string * option exn)) (caption_count : nat)
    : io nat :=
  match caption_files with
  | [] => ret caption_count
  | caption_file :: rest =>
      _ ⇐ call (Rename caption_file.1 ("captions/" +:+ caption_file.1)) caption_file.2 ;
      move_captions rest (S caption_count)
  end.

(** The clean-up loop over [output_path.iterdir()]; what [unlink] raises
    is dropped by [except: pass]. *)
Fixpoint cleanup (items : list entry) : io unit :=
  match items with
  | [] => ret tt
  | item :: rest =>
      is_file ⇐ ask (IsFile (entry_name item)) (entry_is_file item) ;
      _ ⇐ (if is_file && negb (bool_decide (suffix (entry_name item) ∈ [".safetensors"]))
           then if negb (bool_decide (entry_name item ∈ [".env"; "config.yaml"]))
                then ([Unlink (entry_name item)], inr tt)
                else ret tt
           else ret tt) ;
      cleanup rest
  end.

(** The body of the inner [try]. *)
Definition organize (output_dir new_filename : string) (a : answers) : io (option path) :=
  _ ⇐ call ExtractAll (extract_all a) ;
  safetensors_files ⇐ ask (Glob "*.safetensors") (safetensors_files a) ;
  match safetensors_files with
  | [] => ret None
  | original_file :: _ =>
      _ ⇐ (if decide (original_file ≠ new_filename)
           then call (Rename original_file new_filename) (rename_model a)
           else ret tt) ;
      caption_files ⇐ ask (Glob "*.txt") (caption_files a) ;
      _ ⇐ move_captions caption_files 0 ;
      items ⇐ ask Iterdir (entries a) ;
      _ ⇐ cleanup items ;
      ret (Some (PathJoin output_dir new_filename))
  end.

(** From the creation of the output directory to the removal of the
    temporary file. *)
Definition materialize (output_dir new_filename : string) (a : answers) : io (option path) :=
  _ ⇐ call MkdirOutput (mkdir_output a) ;
  _ ⇐ call MkdirCaptions (mkdir_captions a) ;
  _ ⇐ call SaveArchive (save_archive a) ;
  finally (organize output_dir new_filename a) (call UnlinkTemp (unlink_temp a)).

Record downloaded := Downloaded {
  calls : list Lifecycle.action;
  fs_calls : list fs_call;
  returned : exn + option path
}.

(** [download_result], without its console output.  The handler
    [except Exception] prints and raises the exception again. *)
Definition download_result (training_id output_dir : string)
    (g : Lifecycle.get_response) (d : download_response) (a : answers) : downloaded :=
  let r := Lifecycle.get_training_status g in
  match outcome r with
  | inl e => Downloaded [Lifecycle.GetTraining] [] (inl e)
  | inr status_info =>
      if negb (String.eqb (Lifecycle.status status_info) "succeeded") then
        Downloaded [Lifecycle.GetTraining] [] (inr None)
      else
        match Lifecycle.output status_info with
        | None | Some EmptyString => Downloaded [Lifecycle.GetTraining] [] (inr None)
        | Some _ =>
            match Lifecycle.input status_info, Lifecycle.destination status_info with
            | None, _ =>
                Downloaded [Lifecycle.GetTraining] []
                  (inl (AttributeError "'NoneType' object has no attribute 'get'"))
            | Some _, None =>
                Downloaded [Lifecycle.GetTraining] []
                  (inl (TypeError "argument of type 'NoneType' is not iterable"))
            | Some input_config, Some destination =>
                let trigger_word := default "lora" (input_config !! "trigger_word") in
                let model_name := model_name destination in
                let called := [Lifecycle.GetTraining; Lifecycle.Download] in
                match d with
                | FetchFails msg => Downloaded called [] (inl (RequestException msg))
                | Fetched =>
                    let m := materialize output_dir
                               (new_filename model_name trigger_word) a in
                    Downloaded called m.1 m.2
                end
            end
        end
  end.


(** *** Specification-side vocabulary *)

(** The renames and the removals among the calls made. *)
Definition renames (l : list fs_call) : list (string * string) :=
  omap (λ c, match c with Rename src dst => Some (src, dst) | _ => None end) l.

Definition unlinks (l : list fs_call) : list string :=
  omap (λ c, match c with Unlink name => Some name | _ => None end) l.

(** The output directory and [captions/] are there, the archive is saved
    and extracted. *)
Definition extracted (a : answers) : Prop :=
  mkdir_output a = None ∧ mkdir_captions a = None ∧ save_archive a = None
  ∧ extract_all a = None.

(** [glob('*.txt')] yields [captions] and each of them is moved. *)
Definition captions_moved (a : answers) (captions : list (string * option exn)) : Prop :=
  caption_files a = inr captions ∧ Forall (λ c, c.2 = None) captions.

(** [iterdir] yields [items] and [is_file] answers for each of them. *)
Definition scanned (a : answers) (items : list entry) : Prop :=
  entries a = inr items ∧ Forall (λ item, ∃ b, entry_is_file item = inr b) items.

(** The entries that the clean-up loop unlinks. *)
Definition disposable (item : entry) : bool :=
  match entry_is_file item with inr true => true | _ => false end
  && negb (bool_decide (suffix (entry_name item) ∈ [".safetensors"]))
  && negb (bool_decide (entry_name item ∈ [".env"; "config.yaml"])).

(** The call that moves a caption, and the calls of a run in which every
    call succeeds. *)
Definition caption_rename (caption_file : string * option exn) : fs_call :=
  Rename caption_file.1 ("captions/" +:+ caption_file.1).

Definition full_trace (original target : string)
    (captions : list (string * option exn)) (items : list entry) : list fs_call :=
  [MkdirOutput; MkdirCaptions; SaveArchive; ExtractAll; Glob "*.safetensors"]
  ++ (if decide (original ≠ target) then [Rename original target] else [])
  ++ Glob "*.txt" :: (caption_rename <$> captions)
  ++ Iterdir :: (cleanup items).1 ++ [UnlinkTemp].


End Materializer.

(** ** Parameter validation: [config.TrainingConfig], [validate_api_token] *)

Module Config.

Import Py.

Definition destination_message : string :=
"Destination must be in format 'username/model-name'".

(** [all(part.strip() for part in parts)] *)
Definition all_nonblank (parts : list string) : bool :=
forallb (λ part, negb (String.eqb (strip part) "")) parts.

(** [TrainingConfig.validate_destination] *)
Definition validate_destination (v : string) : exn + string :=
if negb (contains "/" v) then inl (ValueError destination_message)
else
let parts := split v "/" in
if negb (length parts =? 2)%nat || negb (all_nonblank parts)
then inl (ValueError destination_message)
else inr v.

(** The check of the destination prompt in [cli.interactive]:
['/' in destination and len(destination.split('/')) == 2]. *)
Definition interactive_destination_ok (destination : string) : bool :=
contains "/" destination && (length (split destination "/") =? 2)%nat.

Definition common_words : gset string :=
{[ "dog"; "cat"; "person"; "man"; "woman"; "style"; "art"; "image";
 "photo"; "picture"; "face"; "portrait"; "character"; "model" ]}.

(** [TrainingConfig.validate_trigger_word] *)
Definition validate_trigger_word (v : string) : exn + string :=
if bool_decide (lower v ∈ common_words) then
inl (ValueError ("Trigger word '" +:+ v +:+ "' is too common. Use a unique identifier."))
else if (String.length (strip v) <? 2)%nat then
inl (ValueError "Trigger word must be at least 2 characters long")
else inr (strip v).

(** Python truthiness of an optional string: [None] and [""] are false. *)
Definition truthy (o : option string) : bool :=
match o with
| None | Some EmptyString => false
| Some _ => true
end.

(** [validate_api_token]: [token] is the argument, [env] what
[os.getenv('REPLICATE_API_TOKEN')] gives. *)
Definition validate_api_token (token env : option string) : exn + string :=
let token := if negb (truthy token) then env else token in
match token with
| None | Some EmptyString =>
  inl (ValueError ("REPLICATE_API_TOKEN environment variable not set. " +:+
                   "Get your token from https://replicate.com/account/api-tokens"))
| Some t =>
  if negb (startswith t "r8_") then
    inl (ValueError "Invalid Replicate API token format. Token should start with 'r8_'")
  else inr t
end.

Definition resolution_message : string :=
  "Resolution must be in format 'width,height' with values between 512 and 2048".

(** [TrainingConfig.validate_resolution]: every failure inside the [try]
    is turned into the same [ValueError]. *)
Definition validate_resolution (v : string) : exn + string :=
  let parts := split v "," in
  if negb (length parts =? 2)%nat then inl (ValueError resolution_message)
  else
    match int (nth 0 parts ""), int (nth 1 parts "") with
    | Some width, Some height =>
        if (width <? 512)%Z || (height <? 512)%Z || (2048 <? width)%Z || (2048 <? height)%Z
        then inl (ValueError resolution_message)
        else inr v
    | _, _ => inl (ValueError resolution_message)
    end.

(** What the [HEAD] request of [validate_dataset_url] gives: a
    [RequestException] (transport failure or error status), or the two
    headers that are read. *)
Inductive head_response :=
| HeadFails (msg : string)
| HeadOk (content_type content_length : option string).

(** What [validate_dataset_url] raises. *)
Inductive url_error :=
| UrlValueError (msg : string)
| UrlOverflowError (msg : string).

Record url_run := UrlRun { url_printed : list string; url_outcome : url_error + bool }.

Section DatasetUrl.

(** [repr(s)] in the message of a failed [int(s)]; and for an integer
    [n], [None] when [n / (1024 * 1024)] overflows a float, otherwise the
    text of [f"{size_mb:.1f}"]. *)
Variable repr : string → string.
Variable size_text : Z → option string.

(** [validate_dataset_url].  [size_mb > 500] holds exactly when the
    content length exceeds [500 * 1024 * 1024]: the division by a power of
    two is monotone and exact on the integers around that bound. *)
Definition validate_dataset_url (url : string) (r : head_response) : url_run :=
  match r with
  | HeadFails msg =>
      UrlRun [] (inl (UrlValueError ("Unable to access dataset URL: " +:+ msg)))
  | HeadOk content_type content_length =>
      let content_type := lower (default "" content_type) in
      if negb (contains "zip" content_type) && negb (endswith (lower url) ".zip") then
        UrlRun [] (inl (UrlValueError
                          ("URL does not appear to be a ZIP file. Content-Type: " +:+
                           content_type)))
      else
        match content_length with
        | None | Some EmptyString => UrlRun [] (inr true)
        | Some l =>
            match int l with
            | None =>
                UrlRun [] (inl (UrlValueError
                                  ("invalid literal for int() with base 10: " +:+ repr l)))
            | Some n =>
                match size_text n with
                | None =>
                    UrlRun [] (inl (UrlOverflowError
                                      "integer division result too large for a float"))
                | Some size_mb =>
                    if (524288000 <? n)%Z then
                      UrlRun ["Warning: Dataset is " +:+ size_mb +:+
                              "MB. Large datasets may take longer to process."]
                             (inr true)
                    else UrlRun [] (inr true)
                end
            end
        end
  end.

End DatasetUrl.

End Config.

(** ** Helpers: [utils] *)

Module Utils.

Import Py.

(** [validate_training_id]: [None] is returned when the identifier
passes. *)
Definition validate_training_id (training_id : string) : exn + unit :=
if String.eqb training_id "" then inl (ValueError "Training ID cannot be empty")
else if (String.length training_id <? 8)%nat then
inl (ValueError "Training ID appears to be too short")
else if negb (isalnum (replace (replace training_id "-" "") "_" "")) then
inl (ValueError "Training ID contains invalid characters")
else inr tt.

(** The characters an identifier may have, and those that
[validate_training_id] removes before it tests [isalnum]. *)
Definition is_id_char (c : ascii) : bool :=
is_alnum_char c || Ascii.eqb c "-" || Ascii.eqb c "_".

Definition is_id_separator (c : ascii) : bool := Ascii.eqb c "-" || Ascii.eqb c "_".

(** [truncate_string], on ASCII text: [String.length] counts bytes, which
    are the characters of Python there. *)
Definition truncate_string (text : string) (max_length : Z) : string :=
if (Z.of_nat (String.length text) <=? max_length)%Z then text
else slice_stop text (max_length - 3) +:+ "...".

End Utils.

(** ** Configuration sources: [config.ConfigManager] *)

Module Sources.

Import Py.

(** The values of a configuration dictionary. *)
Inductive value :=
| VNone
| VStr (s : string)
| VInt (n : Z)
| VBool (b : bool)
| VFloat (literal : string).

Global Instance value_eq_dec : EqDecision value.
Proof. solve_decision. Defined.

(** [{k: v for k, v in config.items() if v is not None}] *)
Definition without_none (config : gmap string value) : gmap string value :=
filter (λ kv, kv.2 ≠ VNone) config.

(** [merged.update(other)] *)
Definition update (merged other : gmap string value) : gmap string value :=
other ∪ merged.

(** [ConfigManager.merge_configs]: a configuration is [None] or a
  dictionary, and [if config:] skips [None] and the empty one. *)
Definition merge_configs (configs : list (option (gmap string value)))
  : gmap string value :=
foldl (λ merged config,
         match config with
         | None => merged
         | Some c => if decide (c = ∅) then merged else update merged (without_none c)
         end)
      ∅ configs.

(** What a configuration says about a key: its value there, unless it is
  [None]. *)
Definition said (config : option (gmap string value)) (k : string) : option value :=
match config with
| None => None
| Some c => match c !! k with Some VNone => None | o => o end
end.

(** [ConfigManager.PRESETS], in the order of the source. *)
Definition PRESETS : list (string * gmap string value) :=
[ ("beginner",
   {[ "optimizer" := VStr "prodigy"; "learning_rate" := VFloat "1.0";
      "steps" := VInt 1500; "batch_size" := VInt 1;
      "resolution" := VStr "768,1024"; "lora_rank" := VInt 16 ]});
  ("experienced",
   {[ "optimizer" := VStr "prodigy"; "learning_rate" := VFloat "1.0";
      "steps" := VInt 1500; "batch_size" := VInt 4;
      "resolution" := VStr "768,1024"; "lora_rank" := VInt 16 ]});
  ("fast",
   {[ "optimizer" := VStr "adamw8bit"; "learning_rate" := VFloat "0.0004";
      "steps" := VInt 1000; "batch_size" := VInt 4;
      "resolution" := VStr "512,768"; "lora_rank" := VInt 16 ]}) ].

(** [ConfigManager.load_preset] *)
Definition load_preset (preset_name : string) : exn + gmap string value :=
match (list_to_map PRESETS : gmap string (gmap string value)) !! preset_name with
| Some preset_data => inr preset_data
| None =>
    inl (ValueError ("Unknown preset '" +:+ preset_name +:+ "'. Available presets: " +:+
                     join ", " PRESETS.*1))
end.

(** The dictionary that [ConfigManager.create_config] hands to
  [TrainingConfig]: [file] is [None] without a configuration file and
  otherwise what [load_config_file] gives for it. *)
Definition create_config_data (cli_args : gmap string value)
  (file : option (exn + gmap string value)) (preset : option string)
  : exn + gmap string value :=
let after_preset :=
  match preset with
  | None | Some EmptyString => inr ∅
  | Some preset_name => load_preset preset_name
  end in
match after_preset with
| inl e => inl e
| inr config_data =>
    match file with
    | Some (inl e) => inl e
    | Some (inr file_data) =>
        inr (update (update config_data file_data) (without_none cli_args))
    | None => inr (update config_data (without_none cli_args))
    end
end.

End Sources.

(** ** Listing jobs: [TrainingManager.list_trainings] and [cli.list] *)

Module Listing.

Import Py.

(** The dictionary made of a remote training. *)
Record summary := Summary {
id : string;
status : string;
created_at : string;
destination : string;
source : string
}.

(** [l[:stop]] for any integer [stop]. *)
Definition slice_stop {A} (l : list A) (stop : Z) : list A :=
let len := Z.of_nat (length l) in
let stop := if (stop <? 0)%Z then Z.max 0 (stop + len) else stop in
take (Z.to_nat (Z.min stop len)) l.

(** [list_trainings]: [remote] is what [client.trainings.list()] gives. *)
Definition list_trainings (remote : exn + list summary) (limit : Z)
  : run (list summary) :=
match remote with
| inr trainings => Run [] (inr (slice_stop trainings limit))
| inl e => Run ["[red]✗ Failed to list trainings: " +:+ str e +:+ "[/red]"] (inl e)
end.

(** What [cli.list] passes to [display_training_list], or the exit code
  after a failure. *)
Definition list_command (remote : exn + list summary) (limit : Z)
  (status_filter : option string) : run (list summary + nat) :=
let r := list_trainings remote limit in
match outcome r with
| inr trainings =>
    Run (printed r)
        (inr (inl (match status_filter with
                   | None | Some EmptyString => trainings
                   | Some st => List.filter (λ t, String.eqb (status t) st) trainings
                   end)))
| inl KeyboardInterrupt => Run (printed r) (inl KeyboardInterrupt)
| inl e =>
    Run (printed r ++ ["[red]✗ Failed to list trainings: " +:+ str e +:+ "[/red]"])
        (inr (inr 1))
end.

End Listing.

(** ** The [train] command: [cli.train] *)

Module Cli.

(** The steps of [train] that reach outside it, in the order they are
    taken. *)
Inductive stage :=
| CheckUrl          (* [validate_dataset_url] *)
| CheckStructure    (* [validate_dataset_structure] *)
| CreateConfig      (* [ConfigManager.create_config] *)
| CreateManager     (* [TrainingManager()] *)
| CreateTraining    (* [client.trainings.create] in [submit_training] *)
| Monitor           (* [monitor_training] *)
| DownloadResult.   (* [download_result] *)

Global Instance stage_eq_dec : EqDecision stage.
Proof. solve_decision. Defined.

(** How the command ends: the steps taken and the exit code (0 when the
    function returns, 1 after [sys.exit(1)], also the one of
    [handle_errors]). *)
Record ended := Ended { stages : list stage; exit_code : nat }.

Section Train.

(** A validated [TrainingConfig]. *)
Variable training_config : Type.

(** [train], without its console output.  The inputs are the outcomes of
    the steps: the two dataset checks, [create_config], the token of the
    environment, the answer to the create call, the answers to the status
    calls of the monitor, and the outcome of [download_result].  The
    result is [None] while the monitor is still waiting at the end of the
    script. *)
Definition train
    (url_check structure_check : exn + bool)
    (config : exn + training_config)
    (env_token : option string)
    (dry_run wait : bool)
    (created : exn + string)
    (script : list Lifecycle.iteration)
    (download : exn + option Materializer.path) : option ended :=
  match url_check with
  | inl _ => Some (Ended [CheckUrl] 1)
  | inr _ =>
  match structure_check with
  | inl _ => Some (Ended [CheckUrl; CheckStructure] 1)
  | inr _ =>
  match config with
  | inl _ => Some (Ended [CheckUrl; CheckStructure; CreateConfig] 1)
  | inr _ =>
  match Config.validate_api_token None env_token with
  | inl _ => Some (Ended [CheckUrl; CheckStructure; CreateConfig; CreateManager] 1)
  | inr _ =>
  let ready := [CheckUrl; CheckStructure; CreateConfig; CreateManager] in
  if dry_run then Some (Ended ready 0)
  else
    match created with
    | inl _ => Some (Ended (ready ++ [CreateTraining]) 1)
    | inr EmptyString => Some (Ended (ready ++ [CreateTraining]) 1)
    | inr training_id =>
        if negb wait then Some (Ended (ready ++ [CreateTraining]) 0)
        else
          match Lifecycle.result (Lifecycle.monitor_training training_id 30 script) with
          | None => None
          | Some final_status =>
              if String.eqb final_status "succeeded" then
                match download with
                | inl _ => Some (Ended (ready ++ [CreateTraining; Monitor; DownloadResult]) 1)
                | inr _ => Some (Ended (ready ++ [CreateTraining; Monitor; DownloadResult]) 0)
                end
              else if String.eqb final_status "failed" || String.eqb final_status "canceled"
              then Some (Ended (ready ++ [CreateTraining; Monitor]) 1)
              else Some (Ended (ready ++ [CreateTraining; Monitor]) 0)
          end
    end
  end end end end.

End Train.

(** How [cancel] and [download] end: the calls made to the service and
    the exit code. *)
Record command_end := CommandEnd { requests : list Lifecycle.action; code : nat }.

(** [cancel]: [confirm] is what [Confirm.ask] gives.  An exception of
    [validate_training_id] or of the prompt reaches [handle_errors]. *)
Definition cancel (training_id : string) (confirm : exn + bool)
    (env_token : option string)
    (g : Lifecycle.get_response) (c : Lifecycle.cancel_response) : command_end :=
  match Utils.validate_training_id training_id with
  | inl _ => CommandEnd [] 1
  | inr _ =>
      match confirm with
      | inl _ => CommandEnd [] 1
      | inr false => CommandEnd [] 0
      | inr true =>
          match Config.validate_api_token None env_token with
          | inl _ => CommandEnd [] 1
          | inr _ =>
              let r := Lifecycle.cancel_training training_id g c in
              match outcome r.2 with
              | inl _ => CommandEnd r.1 1
              | inr _ => CommandEnd r.1 0
              end
          end
      end
  end.

(** [download], with the calls it makes on the file system. *)
Definition download (training_id output_dir : string) (env_token : option string)
    (g : Lifecycle.get_response) (d : Materializer.download_response)
    (a : Materializer.answers) : command_end * list Materializer.fs_call :=
  match Utils.validate_training_id training_id with
  | inl _ => (CommandEnd [] 1, [])
  | inr _ =>
      match Config.validate_api_token None env_token with
      | inl _ => (CommandEnd [] 1, [])
      | inr _ =>
          let r := Materializer.download_result training_id output_dir g d a in
          match Materializer.returned r with
          | inr (Some result_path) =>
              (CommandEnd (Materializer.calls r) 0, Materializer.fs_calls r)
          | inr None | inl _ =>
              (CommandEnd (Materializer.calls r) 1, Materializer.fs_calls r)
          end
      end
  end.

(** The lines that [setup] writes to [.env]. *)
Definition env_file (token : string) : string :=
  "# SD3.5L LoRA Training CLI Tool Environment Variables" +:+ Py.nl +:+
  "# Generated by sd35l-trainer setup command" +:+ Py.nl +:+ Py.nl +:+
  "REPLICATE_API_TOKEN=" +:+ token +:+ Py.nl +:+
  Py.nl +:+ "# Optional: Default destination for models" +:+ Py.nl +:+
  "# SD35L_DEFAULT_DESTINATION=yourusername/default-model" +:+ Py.nl.

(** The prompt loop of [setup] on the answers typed: the token it leaves
    with and the number of prompts, or [None] while it is still asking at
    the end of the answers. *)
Fixpoint prompt_token (answers : list string) (asked : nat) : option (string * nat) :=
  match answers with
  | [] => None
  | token :: answers =>
      if Config.truthy (Some token) && Py.startswith token "r8_"
      then Some (token, S asked)
      else prompt_token answers (S asked)
  end.

Record setup_end := SetupEnd { prompts : nat; written : option string }.

(** [setup]: whether [.env] exists, the answer to the overwrite question,
    the answers to the token prompt, and whether the file can be written.
    The command returns in each case; a failed write is printed only. *)
Definition setup (token : option string) (env_exists overwrite : bool)
    (answers : list string) (can_write : bool) : option setup_end :=
  if env_exists && negb overwrite then Some (SetupEnd 0 None)
  else
    let entered :=
      if negb (Config.truthy token) then
        match prompt_token answers 0 with
        | Some (token, asked) => Some (Some token, asked)
        | None => None
        end
      else Some (token, 0) in
    match entered with
    | None => None
    | Some (token, asked) =>
        if negb (Config.truthy token) || negb (Py.startswith (default "" token) "r8_")
        then Some (SetupEnd asked None)
        else if can_write then Some (SetupEnd asked (Some (env_file (default "" token))))
        else Some (SetupEnd asked None)
    end.

End Cli.

(** ** Configuration files: [ConfigManager.load_config_file] and
    [ConfigManager.generate_config_template] *)

Module ConfigFile.

Import Py Sources.

(** A value of a parsed document: a scalar, or a mapping of scalars. *)
Inductive node := Scalar (v : value) | Mapping (items : list (string * value)).

Global Instance node_eq_dec : EqDecision node.
Proof. solve_decision. Defined.

(** What [yaml.safe_load] and [json.load] give: a mapping, its keys in the
    order of the file, or an object of another type ([NoneType] for an
    empty YAML document). *)
Inductive document :=
| Dict (items : list (string * node))
| NotADict (type_name : string).

(** [flattened.update(value)] *)
Definition update_items (flattened : gmap string node) (value : list (string * value))
    : gmap string node :=
  foldl (λ m kv, <[kv.1 := Scalar kv.2]> m) flattened value.

(** [isinstance(value, dict) and key in ['training', 'wandb', 'advanced']] *)
Definition is_section (key : string) (value : node) : bool :=
  match value with
  | Mapping _ => bool_decide (key ∈ ["training"; "wandb"; "advanced"])
  | Scalar _ => false
  end.

(** The loop that flattens the nested structure. *)
Definition flatten (config : list (string * node)) : gmap string node :=
  foldl (λ flattened kv,
           match kv.2 with
           | Mapping value =>
               if is_section kv.1 kv.2 then update_items flattened value
               else <[kv.1 := kv.2]> flattened
           | Scalar _ => <[kv.1 := kv.2]> flattened
           end)
        ∅ config.

(** How [load_config_file] fails: with its own [FileNotFoundError], with
    the [ValueError] of its handler, or with an exception that it does not
    handle: what [path.exists()] raises outside the [try], and
    [KeyboardInterrupt], which is no [Exception]. *)
Inductive load_error :=
| FileNotFoundError (msg : string)
| LoadValueError (msg : string)
| Unhandled (e : exn).

(** [except Exception as e: raise ValueError(...)] *)
Definition load_handler (config_path : string) (e : exn) : load_error :=
  match e with
  | KeyboardInterrupt => Unhandled KeyboardInterrupt
  | _ => LoadValueError ("Error loading config file " +:+ config_path +:+ ": " +:+ str e)
  end.

(** [load_config_file].  The inputs are what the file system and the
    parsers give: the answer of [path.exists()] or the exception it
    raises (an [OSError] such as a name that is too long), the exception
    of [open] if it raises one, the suffix of the path, and for each
    parser the document or its exception.  A suffix that lowers to one of
    the three known ones is made of ASCII letters, so that [lower] decides
    as [str.lower] does. *)
Definition load_config_file (config_path : string) (path_exists : exn + bool)
    (open_error : option exn) (path_suffix : string)
    (yaml_safe_load json_load : exn + document) : load_error + gmap string node :=
  match path_exists with
  | inl e => inl (Unhandled e)
  | inr false =>
      inl (FileNotFoundError ("Configuration file not found: " +:+ config_path))
  | inr true =>
      match open_error with
      | Some e => inl (load_handler config_path e)
      | None =>
          let config :=
            if bool_decide (lower path_suffix ∈ [".yaml"; ".yml"]) then yaml_safe_load
            else if String.eqb (lower path_suffix) ".json" then json_load
            else inl (ValueError ("Unsupported config file format: " +:+ path_suffix)) in
          match config with
          | inl e => inl (load_handler config_path e)
          | inr (NotADict type_name) =>
              inl (load_handler config_path
                     (AttributeError
                        ("'" +:+ type_name +:+ "' object has no attribute 'items'")))
          | inr (Dict items) => inr (flatten items)
          end
      end
  end.

Inductive template_error :=
| PresetError (e : exn)
| KeyError (key : string).

(** [preset_data[key]] *)
Definition subscript (preset_data : gmap string value) (key : string)
    : template_error + value :=
  match preset_data !! key with
  | Some v => inr v
  | None => inl (KeyError key)
  end.

(** The dictionary [template] of [generate_config_template]: the entries
    with the value [None] are the comment lines. *)
Definition template (steps batch_size optimizer learning_rate resolution lora_rank : value)
    : list (string * option node) :=
  [ ("# SD3.5L LoRA Training Configuration", None);
    ("dataset_url", Some (Scalar (VStr "https://example.com/my-dataset.zip")));
    ("destination", Some (Scalar (VStr "username/my-lora-model")));
    ("trigger_word", Some (Scalar (VStr "MYTOK")));
    ("", None);
    ("# Training parameters", None);
    ("training", Some (Mapping [ ("steps", steps);
                                 ("batch_size", batch_size);
                                 ("optimizer", optimizer);
                                 ("learning_rate", learning_rate);
                                 ("resolution", resolution);
                                 ("lora_rank", lora_rank) ]));
    (" ", None);
    ("# Weights & Biases integration", None);
    ("wandb", Some (Mapping [ ("project", VStr "sd3.5_train_replicate");
                              ("save_interval", VInt 100);
                              ("sample_interval", VInt 100) ]));
    ("  ", None);
    ("# Advanced settings", None);
    ("advanced", Some (Mapping [ ("caption_dropout_rate", VFloat "0.05");
                                 ("cache_latents_to_disk", VBool false) ])) ].

(** The loop that drops the comment lines. *)
Definition clean_template (template : list (string * option node))
    : list (string * node) :=
  omap (λ kv, match kv.2 with Some value => Some (kv.1, value) | None => None end)
       template.

(** [generate_config_template]: the dictionary that is dumped to the
    output file. *)
Definition generate_config_template (preset : string)
    : template_error + list (string * node) :=
  match load_preset preset with
  | inl e => inl (PresetError e)
  | inr preset_data =>
      match subscript preset_data "steps" with inl e => inl e | inr steps =>
      match subscript preset_data "batch_size" with inl e => inl e | inr batch_size =>
      match subscript preset_data "optimizer" with inl e => inl e | inr optimizer =>
      match subscript preset_data "learning_rate" with inl e => inl e | inr learning_rate =>
      match subscript preset_data "resolution" with inl e => inl e | inr resolution =>
      match subscript preset_data "lora_rank" with inl e => inl e | inr lora_rank =>
        inr (clean_template
               (template steps batch_size optimizer learning_rate resolution lora_rank))
      end end end end end end
  end.

(** The field names of [TrainingConfig]. *)
Definition fields : list string :=
  [ "dataset_url"; "destination"; "trigger_word"; "steps"; "lora_rank"; "optimizer";
    "batch_size"; "resolution"; "learning_rate"; "wandb_project"; "wandb_save_interval";
    "wandb_sample_interval"; "caption_dropout_rate"; "cache_latents_to_disk" ].

(** The bindings of a document, with those of its sections in their
    place. *)
Definition bindings (config : list (string * node)) : list (string * node) :=
  config ≫= λ kv,
     match kv.2 with
     | Mapping value =>
         if is_section kv.1 kv.2 then (λ iv, (iv.1, Scalar iv.2)) <$> value else [kv]
     | Scalar _ => [kv]
     end.

End ConfigFile.

(** * Properties *)

Module PyFacts.

Import Py.

Lemma startswith_app (p s : string) : startswith (p +:+ s) p = true.
Proof.
induction p as [|a p IH]; [by destruct s|].
change (String a p +:+ s) with (String a (p +:+ s)).
cbn [startswith]. by rewrite Ascii.eqb_refl.
Qed.

Lemma contains_app_r (needle a b : string) :
contains needle b = true → contains needle (a +:+ b) = true.
Proof.
intros Hb. induction a as [|c a IH]; [done|].
change (String c a +:+ b) with (String c (a +:+ b)).
cbn [contains]. rewrite IH. apply orb_true_r.
Qed.

Lemma contains_here (needle b : string) : contains needle (needle +:+ b) = true.
Proof.
destruct needle as [|c n]; [by destruct b|].
change (String c n +:+ b) with (String c (n +:+ b)).
cbn [contains].
change (String c (n +:+ b)) with (String c n +:+ b).
by rewrite startswith_app.
Qed.

Lemma contains_middle (needle a b : string) :
contains needle (a +:+ needle +:+ b) = true.
Proof. apply contains_app_r, contains_here. Qed.

Lemma app_assoc_str (a b c : string) : (a +:+ b) +:+ c = a +:+ (b +:+ c).
Proof.
induction a as [|x a IH]; [done|].
change ((String x a +:+ b) +:+ c) with (String x ((a +:+ b) +:+ c)).
change (String x a +:+ b +:+ c) with (String x (a +:+ b +:+ c)).
by rewrite IH.
Qed.

Lemma length_app_str (a b : string) :
String.length (a +:+ b) = String.length a + String.length b.
Proof.
induction a as [|x a IH]; [done|].
change (String x a +:+ b) with (String x (a +:+ b)). cbn. by rewrite IH.
Qed.

Lemma substring_all (s : string) : String.substring 0 (String.length s) s = s.
Proof. induction s as [|x s IH]; [done|]. cbn. by rewrite IH. Qed.

Lemma substring_skip (x s : string) (k m : nat) :
String.substring (String.length x + k) m (x +:+ s) = String.substring k m s.
Proof.
induction x as [|c x IH]; [done|].
change (String c x +:+ s) with (String c (x +:+ s)). cbn. apply IH.
Qed.

Lemma startswith_empty (s : string) : startswith s "" = true.
Proof. by destruct s. Qed.

(** A one-character needle occurs in a string when it is its first
character or occurs in the rest. *)
Lemma contains_char_cons (c a : ascii) (s : string) :
contains (String c "") (String a s) = Ascii.eqb c a || contains (String c "") s.
Proof.
cbn [contains startswith]. rewrite startswith_empty. by destruct (Ascii.eqb c a).
Qed.

Lemma contains_char_app (c : ascii) (a b : string) :
contains (String c "") (a +:+ b) = contains (String c "") a || contains (String c "") b.
Proof.
induction a as [|x a IH].
- change ("" +:+ b) with b. by destruct b.
- change (String x a +:+ b) with (String x (a +:+ b)).
rewrite !contains_char_cons, IH. by rewrite orb_assoc.
Qed.

Lemma split_nonempty (s : string) (c : ascii) : split s c ≠ [].
Proof.
destruct s as [|a s]; [done|]. cbn.
destruct (Ascii.eqb a c); [done|]. by destruct (split s c).
Qed.

Lemma split_no_sep (s : string) (c : ascii) :
contains (String c "") s = false → split s c = [s].
Proof.
induction s as [|a s IH]; [done|].
rewrite contains_char_cons. intros [Ha Hs]%orb_false_elim.
cbn. rewrite Ascii.eqb_sym, Ha, (IH Hs). done.
Qed.

(** [(a + c + b).split(c) == a.split(c) + b.split(c)] *)
Lemma split_app_sep (a b : string) (c : ascii) :
split (a +:+ String c b) c = split a c ++ split b c.
Proof.
induction a as [|x a IH].
- change ("" +:+ String c b) with (String c b). cbn. by rewrite Ascii.eqb_refl.
- change (String x a +:+ String c b) with (String x (a +:+ String c b)).
cbn. rewrite IH. destruct (Ascii.eqb x c); [done|].
pose proof (split_nonempty a c). by destruct (split a c).
Qed.

Lemma split_parts (s : string) (c : ascii) :
Forall (λ x, contains (String c "") x = false) (split s c).
Proof.
induction s as [|a s IH]; [by repeat constructor|].
cbn. destruct (Ascii.eqb a c) eqn:E; [by constructor|].
pose proof (split_nonempty s c).
destruct (split s c) as [|h t]; [done|].
apply Forall_cons in IH as [Hh Ht]. constructor; [|done].
by rewrite contains_char_cons, Ascii.eqb_sym, E, Hh.
Qed.

Lemma last_item_app (l k : list string) : k ≠ [] → last_item (l ++ k) = last_item k.
Proof.
intros Hk. unfold last_item. induction l as [|x l IH]; [done|].
cbn. destruct (l ++ k) eqn:E; [|done].
by apply app_eq_nil in E as [_ ?].
Qed.

Lemma last_item_Forall (P : string → Prop) (l : list string) :
l ≠ [] → Forall P l → P (last_item l).
Proof.
unfold last_item. induction l as [|x l IH]; [done|].
intros _ [Hx Hl]%Forall_cons. destruct l as [|y l]; [done|].
by apply IH.
Qed.

Lemma rfind_from_app (c : ascii) (a b : string) (i found : Z) :
rfind_from c (a +:+ b) i found
= rfind_from c b (i + Z.of_nat (String.length a))%Z (rfind_from c a i found).
Proof.
revert i found. induction a as [|x a IH]; intros i found.
- change ("" +:+ b) with b. cbn. by rewrite Z.add_0_r.
- change (String x a +:+ b) with (String x (a +:+ b)).
cbn [rfind_from String.length]. rewrite IH. f_equal. lia.
Qed.

Lemma substring_split (s : string) (k : nat) :
k ≤ String.length s →
s = String.substring 0 k s +:+ String.substring k (String.length s - k) s.
Proof.
revert k. induction s as [|c s IH]; intros k Hk.
- cbn in Hk. assert (k = 0) as -> by lia. done.
- destruct k as [|k].
+ rewrite Nat.sub_0_r, substring_all. reflexivity.
+ cbn [String.substring String.length Nat.sub].
change (String c ?x +:+ ?y) with (String c (x +:+ y)).
f_equal. apply IH. cbn in Hk. lia.
Qed.

Lemma endswith_inv (s p : string) : endswith s p = true → ∃ x, s = x +:+ p.
Proof.
unfold endswith. intros [Hle Heq]%andb_true_iff.
apply Nat.leb_le in Hle. apply String.eqb_eq in Heq.
pose proof (substring_split s (String.length s - String.length p)) as Hs.
replace (String.length s - (String.length s - String.length p))
with (String.length p) in Hs by lia.
rewrite Heq in Hs.
exists (String.substring 0 (String.length s - String.length p) s).
apply Hs. lia.
Qed.

(** *** [lower] leaves the separators and the lengths alone *)

Lemma lower_char_idem (a : ascii) : lower_char (lower_char a) = lower_char a.
Proof. destruct a as [[] [] [] [] [] [] [] []]; reflexivity. Qed.

Lemma lower_char_dot (a : ascii) : Ascii.eqb (lower_char a) "." = Ascii.eqb a ".".
Proof. destruct a as [[] [] [] [] [] [] [] []]; reflexivity. Qed.

Lemma lower_char_sep (a : ascii) : Ascii.eqb (lower_char a) "/" = Ascii.eqb a "/".
Proof. destruct a as [[] [] [] [] [] [] [] []]; reflexivity. Qed.

Lemma lower_idem (s : string) : lower (lower s) = lower s.
Proof. induction s as [|a s IH]; [done|]. cbn. by rewrite lower_char_idem, IH. Qed.

Lemma length_lower (s : string) : String.length (lower s) = String.length s.
Proof. induction s as [|a s IH]; [done|]. cbn. by rewrite IH. Qed.

Lemma get_lower (n : nat) (s : string) :
  String.get n (lower s) = lower_char <$> String.get n s.
Proof.
  revert n. induction s as [|a s IH]; intros n; [done|].
  destruct n as [|n]; [done|]. cbn. apply IH.
Qed.

Lemma substring_lower (n m : nat) (s : string) :
  String.substring n m (lower s) = lower (String.substring n m s).
Proof.
  revert n m. induction s as [|a s IH]; intros n m.
  - by destruct n, m.
  - destruct n as [|n]; [destruct m as [|m]; [done|]|].
    + cbn. by rewrite IH.
    + cbn. apply IH.
Qed.

Lemma rfind_from_lower (c : ascii) (s : string) (i found : Z) :
  (∀ a, Ascii.eqb (lower_char a) c = Ascii.eqb a c) →
  rfind_from c (lower s) i found = rfind_from c s i found.
Proof.
  intros Hc. revert i found. induction s as [|a s IH]; intros i found; [done|].
  cbn [lower rfind_from]. by rewrite Hc, IH.
Qed.

Lemma rfind_from_bound (c : ascii) (s : string) (i found : Z) :
  (found < i)%Z → (rfind_from c s i found < i + Z.of_nat (String.length s))%Z.
Proof.
  revert i found. induction s as [|a s IH]; intros i found Hlt.
  - cbn. lia.
  - cbn [rfind_from String.length].
    pose proof (IH (i + 1)%Z (if Ascii.eqb a c then i else found)) as H.
    destruct (Ascii.eqb a c); lia.
Qed.

Lemma splitext_scan_lower (p : string) (i n : nat) :
  splitext_scan (lower p) i n = splitext_scan p i n.
Proof.
  revert i. induction n as [|n IH]; intros i; [done|].
  cbn [splitext_scan]. rewrite get_lower.
  destruct (String.get i p) as [a|]; [|done]. cbn [fmap option_fmap option_map].
  by rewrite lower_char_dot, IH.
Qed.

Lemma app_empty_r (s : string) : s +:+ "" = s.
Proof.
  induction s as [|a s IH]; [done|].
  change (String a s +:+ "") with (String a (s +:+ "")). by rewrite IH.
Qed.

(** [os.path.splitext] cuts the path in two and takes nothing away; on
    the lowered path it cuts at the same place. *)
Lemma splitext_join (p : string) : p = (splitext p).1 +:+ (splitext p).2.
Proof.
  unfold splitext.
  destruct ((rfind p "/" <? rfind p ".")%Z
            && splitext_scan p (Z.to_nat (rfind p "/" + 1))
                 (Z.to_nat (rfind p "." - (rfind p "/" + 1)))); cbn [fst snd].
  - unfold slice_to, slice_from. apply substring_split.
    pose proof (rfind_from_bound "." p 0 (-1) ltac:(lia)) as H. unfold rfind. lia.
  - by rewrite app_empty_r.
Qed.

Lemma splitext_lower (p : string) :
  splitext (lower p) = (lower (splitext p).1, lower (splitext p).2).
Proof.
  unfold splitext, rfind.
  rewrite !rfind_from_lower by (apply lower_char_sep || apply lower_char_dot).
  rewrite splitext_scan_lower.
  destruct ((rfind_from "/" p 0 (-1) <? rfind_from "." p 0 (-1))%Z
            && splitext_scan p (Z.to_nat (rfind_from "/" p 0 (-1) + 1))
                 (Z.to_nat (rfind_from "." p 0 (-1) - (rfind_from "/" p 0 (-1) + 1))));
    cbn [fst snd]; [|done].
  unfold slice_to, slice_from. by rewrite !substring_lower, length_lower.
Qed.

End PyFacts.

Module DatasetFacts.

Import Py Dataset PyFacts.

Lemma categorize_from (acc : categories) (files : list string) :
foldl categorize_step acc files =
Categories (image_files acc ++ pairs Image files)
     (text_files acc ++ pairs Caption files)
     (other_files acc ++ List.filter (λ f, bool_decide (classify f = Other)) files).
Proof.
revert acc. induction files as [|f files IH]; intros acc.
- destruct acc. unfold pairs. cbn. by rewrite !app_nil_r.
- cbn [foldl]. rewrite IH. unfold categorize_step, pairs.
destruct (classify f) eqn:Hk; cbn [image_files text_files other_files List.filter];
rewrite Hk; cbn; by rewrite <- ?app_assoc.
Qed.

Lemma filter_filter {A} (p q : A → bool) (l : list A) :
List.filter p (List.filter q l) = List.filter (λ x, q x && p x) l.
Proof.
induction l as [|x l IH]; [done|].
cbn. destruct (q x); cbn; [destruct (p x)|]; by rewrite IH.
Qed.

Lemma categorize_images (file_list : list string) :
(image_files (categorize (List.filter keep file_list))).*1
= base_name <$> members Image file_list.
Proof.
unfold categorize. rewrite categorize_from. cbn. unfold pairs, members.
rewrite filter_filter, <- list_fmap_compose. done.
Qed.

Lemma categorize_texts (file_list : list string) :
(text_files (categorize (List.filter keep file_list))).*1
= base_name <$> members Caption file_list.
Proof.
unfold categorize. rewrite categorize_from. cbn. unfold pairs, members.
rewrite filter_filter, <- list_fmap_compose. done.
Qed.

Lemma bases_images (file_list : list string) :
bases (image_files (categorize (List.filter keep file_list))) = base_set Image file_list.
Proof. unfold bases, base_set. by rewrite categorize_images. Qed.

Lemma bases_texts (file_list : list string) :
bases (text_files (categorize (List.filter keep file_list))) = base_set Caption file_list.
Proof. unfold bases, base_set. by rewrite categorize_texts. Qed.

Lemma elem_of_members (k : kind) (file_list : list string) (f : string) :
f ∈ members k file_list ↔ is_entry k file_list f.
Proof.
unfold members, is_entry. rewrite list_elem_of_In, filter_In, <- list_elem_of_In.
rewrite andb_true_iff, bool_decide_eq_true. tauto.
Qed.

Lemma elem_of_base_set (k : kind) (file_list : list string) (b : string) :
b ∈ base_set k file_list ↔ ∃ f, is_entry k file_list f ∧ base_name f = b.
Proof.
unfold base_set. rewrite elem_of_list_to_set, list_elem_of_fmap.
split; intros (f & H1 & H2); exists f.
- by rewrite <- elem_of_members.
- by rewrite elem_of_members.
Qed.

Lemma members_nil_iff (k : kind) (file_list : list string) :
members k file_list = [] ↔ ¬ ∃ f, is_entry k file_list f.
Proof.
split.
- intros Hnil (f & Hf). apply elem_of_members in Hf. rewrite Hnil in Hf.
by apply not_elem_of_nil in Hf.
- intros Hno. destruct (members k file_list) as [|f l] eqn:E; [done|].
exfalso. apply Hno. exists f. apply elem_of_members. rewrite E. left.
Qed.

Lemma members_keep_nil (k : kind) (file_list : list string) :
List.filter keep file_list = [] → members k file_list = [].
Proof.
intros Hnil. apply members_nil_iff. intros (f & Hin & Hkeep & _).
assert (Hf : f ∈ List.filter keep file_list).
{ apply list_elem_of_In, filter_In. by rewrite <- list_elem_of_In. }
rewrite Hnil in Hf. by apply not_elem_of_nil in Hf.
Qed.

Lemma unpaired_empty_iff (file_list : list string) :
base_set Image file_list ∖ base_set Caption file_list = ∅ ↔
∀ f, is_entry Image file_list f →
 ∃ g, is_entry Caption file_list g ∧ base_name g = base_name f.
Proof.
split.
- intros HU f Hf.
destruct (decide (base_name f ∈ base_set Caption file_list)) as [Hin|Hout].
+ by apply elem_of_base_set in Hin.
+ assert (Hd : base_name f ∈ base_set Image file_list ∖ base_set Caption file_list).
{ apply elem_of_difference. split; [|done]. apply elem_of_base_set. eauto. }
rewrite HU in Hd. by apply not_elem_of_empty in Hd.
- intros Hall. apply set_eq. intros b. split; [|by intros ?%not_elem_of_empty].
intros [Hi Ht]%elem_of_difference. exfalso. apply Ht.
apply elem_of_base_set in Hi as (f & Hf & <-).
apply elem_of_base_set. by apply Hall.
Qed.

Lemma difference_empty_iff (X Y : gset string) : X ∖ Y = ∅ ↔ X ⊆ Y.
Proof.
split.
- intros HE b Hb. destruct (decide (b ∈ Y)) as [|Hn]; [done|].
assert (Hd : b ∈ X ∖ Y) by (by apply elem_of_difference).
rewrite HE in Hd. by apply not_elem_of_empty in Hd.
- intros Hsub. apply set_eq. intros b. split; [|by intros ?%not_elem_of_empty].
intros [Hx Hy]%elem_of_difference. by apply Hsub in Hx.
Qed.

Lemma base_set_members (k : kind) (file_list : list string) :
base_set k file_list ≠ ∅ ↔ members k file_list ≠ [].
Proof.
unfold base_set. destruct (members k file_list) as [|f l]; cbn.
- split; intros Hn; by destruct Hn.
- split; [intros _ ?; discriminate|]. intros _. set_solver.
Qed.

Lemma base_set_nonempty (k : kind) (file_list : list string) :
base_set k file_list ≠ ∅ ↔ ∃ f, is_entry k file_list f.
Proof.
rewrite base_set_members. split.
- intros Hn. destruct (members k file_list) as [|f l] eqn:E; [done|].
exists f. apply elem_of_members. rewrite E. left.
- intros Hex Hnil. by apply members_nil_iff in Hnil.
Qed.

(** *** The extension is read off the lowered name, the key off the name
    as it is spelled *)

Lemma ext_lower (f : string) : ext f = lower (splitext f).2.
Proof. unfold ext. by rewrite splitext_lower. Qed.

Lemma entry_spelling (f : string) : f = base_name f +:+ (splitext f).2.
Proof. apply splitext_join. Qed.

Lemma classify_lower (f g : string) : lower f = lower g → classify f = classify g.
Proof. intros H. unfold classify, ext. by rewrite H. Qed.

Lemma classify_caption (f : string) :
  classify f = Caption → lower (splitext f).2 = ".txt".
Proof.
  unfold classify. rewrite ext_lower. case_bool_decide; [done|].
  destruct (String.eqb (lower (splitext f).2) ".txt") eqn:E; [|done].
  intros _. by apply String.eqb_eq.
Qed.

Section InspectorFacts.

Variable set_iter : gset string → list string.

(** [inspect] as a cascade of decisions on the specification-side
vocabulary. *)
Lemma inspect_eq (file_list : list string) :
  inspect set_iter file_list =
  if decide (List.filter keep file_list = []) then
Run [] (inl (ValueError empty_message))
  else if decide (members Image file_list = []) then
Run [] (inl (ValueError (no_images_message set_iter)))
  else if decide (members Caption file_list = []) then
Run [] (inl (ValueError no_captions_message))
  else
let I := base_set Image file_list in
let T := base_set Caption file_list in
if decide (I ∖ T = ∅) then
  Run ((if decide (T ∖ I = ∅) then [] else [warning_line (size (T ∖ I))]) ++
   [success_line (size (I ∩ T))] ++
   (match other_files (categorize (List.filter keep file_list)) with
| [] => []
| _ :: _ =>
[note_line (length (other_files (categorize (List.filter keep file_list))))]
end))
  (inr true)
else Run [] (inl (ValueError (unpaired_images_message set_iter (I ∖ T)))).
Proof.
  unfold inspect. cbv zeta.
  rewrite !bases_images, !bases_texts.
  pose proof (categorize_images file_list) as Hi.
  pose proof (categorize_texts file_list) as Ht.
  set (c := categorize (List.filter keep file_list)) in *. clearbody c.
  destruct (List.filter keep file_list) as [|f0 fs] eqn:Hfiles.
  { by rewrite decide_True. }
  destruct (decide (f0 :: fs = [])) as [?|_]; [done|].
  destruct (image_files c) as [|i0 is_] eqn:Hic.
  { symmetry in Hi. apply fmap_nil_inv in Hi. by rewrite decide_True. }
  destruct (members Image file_list) as [|m0 ms] eqn:Hmi; [done|].
  destruct (decide (m0 :: ms = [])) as [?|_]; [done|].
  destruct (text_files c) as [|t0 ts] eqn:Htc.
  { symmetry in Ht. apply fmap_nil_inv in Ht. by rewrite decide_True. }
  destruct (members Caption file_list) as [|n0 ns] eqn:Hmt; [done|].
  destruct (decide (n0 :: ns = [])) as [?|_]; [done|].
  done.
Qed.

Lemma unpaired_message_mentions_caption (U : gset string) :
  contains "caption" (unpaired_images_message set_iter U) = true.
Proof.
  unfold unpaired_images_message.
  do 2 apply contains_app_r.
  apply (contains_middle "caption" " image(s) without matching ").
Qed.

Lemma handler_unpaired (U : gset string) :
  handler (ValueError (unpaired_images_message set_iter U))
  = ValueError (unpaired_images_message set_iter U).
Proof.
  unfold handler. cbn [str].
  rewrite unpaired_message_mentions_caption. by rewrite orb_true_r.
Qed.

Lemma handler_no_captions :
  handler (ValueError no_captions_message) = ValueError no_captions_message.
Proof. reflexivity. Qed.

End InspectorFacts.

End DatasetFacts.

(** ** Archive Inspector: the claims *)

Module DatasetSpec.

Import Py Dataset PyFacts DatasetFacts.

Section Claims.

Variable set_iter : gset string → list string.
Hypothesis set_iter_perm : ∀ X, set_iter X ≡ₚ elements X.

Lemma validate_listing (file_list : list string) :
  validate_dataset_structure set_iter (Listing file_list) =
  Run ("Downloading dataset for validation..." :: printed (inspect set_iter file_list))
  (match outcome (inspect set_iter file_list) with
   | inl e => inl (handler e)
   | inr b => inr b
   end).
Proof. reflexivity. Qed.

Lemma validate_ok_iff (file_list : list string) :
  outcome (validate_dataset_structure set_iter (Listing file_list)) = inr true ↔
  members Image file_list ≠ [] ∧ members Caption file_list ≠ [] ∧
  base_set Image file_list ∖ base_set Caption file_list = ∅.
Proof.
  rewrite validate_listing, inspect_eq. cbv zeta.
  pose proof (members_keep_nil Image file_list).
  repeat (case_decide; cbn [outcome]); naive_solver.
Qed.

Lemma validate_ok_printed (file_list : list string) (b : bool) :
  outcome (validate_dataset_structure set_iter (Listing file_list)) = inr b →
  b = true ∧
  success_line (size (base_set Image file_list ∩ base_set Caption file_list))
∈ printed (validate_dataset_structure set_iter (Listing file_list)).
Proof.
  rewrite validate_listing, inspect_eq. cbv zeta.
  repeat case_decide; cbn [outcome printed]; intros Hb; try discriminate Hb.
  all: injection Hb as <-; split; [done|].
  all: apply list_elem_of_further, elem_of_app; right; apply elem_of_app; left; left.
Qed.

(** C1. Validation of a listing succeeds exactly when, among the kept
entries, there is an image, there is a caption, and every image has
a caption with the same base name; on success the printed success
line reports the size of the intersection of the two base-name
sets. *)
Theorem validation_succeeds_iff (file_list : list string) :
  let r := validate_dataset_structure set_iter (Listing file_list) in
  let I := base_set Image file_list in
  let T := base_set Caption file_list in
  (outcome r = inr true ↔
 (∃ f, is_entry Image file_list f) ∧
 (∃ g, is_entry Caption file_list g) ∧
 (∀ f, is_entry Image file_list f →
   ∃ g, is_entry Caption file_list g ∧ base_name g = base_name f))
  ∧ (outcome r = inr true ↔ I ≠ ∅ ∧ T ≠ ∅ ∧ I ⊆ T)
  ∧ (∀ b, outcome r = inr b →
  b = true ∧ success_line (size (I ∩ T)) ∈ printed r).
Proof.
  intros r I T. subst r I T. split_and!.
  - rewrite validate_ok_iff, <- !base_set_members, !base_set_nonempty,
  unpaired_empty_iff. done.
  - rewrite validate_ok_iff, <- !base_set_members, difference_empty_iff. done.
  - apply validate_ok_printed.
Qed.

(** C2 (amended). A listing with at least one kept image and no kept
caption fails with the no-captions error; its message says that
manual captioning is required and gives a file-name pairing
example. *)
Theorem no_captions_fails (file_list : list string) :
  (∃ f, is_entry Image file_list f) →
  (∀ g, ¬ is_entry Caption file_list g) →
  validate_dataset_structure set_iter (Listing file_list)
  = Run ["Downloading dataset for validation..."]
(inl (ValueError no_captions_message))
  ∧ contains "Manual captioning is required" no_captions_message = true
  ∧ contains "each image must have a corresponding .txt file" no_captions_message = true
  ∧ contains "Example: image1.jpg → image1.txt" no_captions_message = true.
Proof.
  intros HI HT. split; [|by vm_compute].
  rewrite validate_listing, inspect_eq.
  assert (Hi : members Image file_list ≠ [])
by (by apply base_set_members, base_set_nonempty).
  assert (Hc : members Caption file_list = []).
  { apply members_nil_iff. intros (g & Hg). by apply (HT g). }
  case_decide as E1; [by apply (members_keep_nil Image) in E1|].
  case_decide as E2; [done|].
  case_decide as E3; [|done].
  reflexivity.
Qed.

Lemma listed_names_length (U : gset string) :
  length (listed_names set_iter U) = min 5 (size U).
Proof.
  unfold listed_names. rewrite length_take.
  by rewrite (Permutation_length (set_iter_perm U)).
Qed.

Lemma listed_names_NoDup (U : gset string) : NoDup (listed_names set_iter U).
Proof.
  unfold listed_names. eapply sublist_NoDup; [|apply sublist_take].
  rewrite (set_iter_perm U). apply NoDup_elements.
Qed.

Lemma listed_names_sound (U : gset string) (b : string) :
  b ∈ listed_names set_iter U → b ∈ U.
Proof.
  unfold listed_names. intros Hb%subseteq_take.
  rewrite (set_iter_perm U) in Hb. by apply elem_of_elements in Hb.
Qed.

Lemma listed_names_complete (U : gset string) (b : string) :
  size U ≤ 5 → b ∈ U → b ∈ listed_names set_iter U.
Proof.
  intros Hsz Hb. unfold listed_names. rewrite take_ge.
  - rewrite (set_iter_perm U). by apply elem_of_elements.
  - by rewrite (Permutation_length (set_iter_perm U)).
Qed.

Lemma validate_unpaired (file_list : list string) (V : gset string) :
  members Image file_list ≠ [] →
  members Caption file_list ≠ [] →
  base_set Image file_list ∖ base_set Caption file_list = V →
  V ≠ ∅ →
  validate_dataset_structure set_iter (Listing file_list)
  = Run ["Downloading dataset for validation..."]
(inl (ValueError (unpaired_images_message set_iter V))).
Proof.
  intros Hi Hc HV Hne. rewrite validate_listing, inspect_eq. cbv zeta.
  rewrite HV.
  case_decide as E1; [by apply (members_keep_nil Image) in E1|].
  case_decide as E2; [done|].
  case_decide as E3; [done|].
  case_decide as E4; [done|].
  cbn [printed outcome]. by rewrite handler_unpaired.
Qed.

(** C3 (amended). A listing with at least one kept caption in which
some kept image has no caption of the same base name fails with the
unpaired-images error.  Its message lists [min 5 n] distinct
unpaired base names, [n] the number of unpaired base names: all of
them, that image's included, when [n <= 5]; when [n > 5] it adds
the count [n - 5] of the rest. *)
Theorem unpaired_image_fails (file_list : list string) (f : string) :
  (∃ g, is_entry Caption file_list g) →
  is_entry Image file_list f →
  (∀ g, is_entry Caption file_list g → base_name g ≠ base_name f) →
  let U := base_set Image file_list ∖ base_set Caption file_list in
  validate_dataset_structure set_iter (Listing file_list)
  = Run ["Downloading dataset for validation..."]
(inl (ValueError (unpaired_images_message set_iter U)))
  ∧ base_name f ∈ U
  ∧ length (listed_names set_iter U) = min 5 (size U)
  ∧ NoDup (listed_names set_iter U)
  ∧ (∀ b, b ∈ listed_names set_iter U → b ∈ U)
  ∧ (size U ≤ 5 → base_name f ∈ listed_names set_iter U)
  ∧ remainder U = (if decide (5 < size U)
   then " and " +:+ pretty (size U - 5) +:+ " more" else "").
Proof.
  intros HT Hf Hno U.
  assert (HfU : base_name f ∈ U).
  { apply elem_of_difference. split; [apply elem_of_base_set; eauto|].
intros (g & Hg & Heq)%elem_of_base_set. by apply (Hno g). }
  split_and!; [|done|apply listed_names_length|apply listed_names_NoDup
   |apply listed_names_sound|by intros; apply listed_names_complete|].
  - apply validate_unpaired; [| |done|].
+ apply base_set_members, base_set_nonempty. eauto.
+ by apply base_set_members, base_set_nonempty.
+ intros HE. rewrite HE in HfU. by apply not_elem_of_empty in HfU.
  - unfold remainder. case_decide as Hsz.
+ by apply Nat.ltb_lt in Hsz as ->.
+ by apply Nat.ltb_nlt in Hsz as ->.
Qed.

Lemma set_iter_singleton (x : string) : set_iter {[x]} = [x].
Proof.
  apply Permutation_singleton_r. rewrite (set_iter_perm {[x]}).
  by rewrite elements_singleton.
Qed.

(** C4 (amended). The listing [a.jpg], [b.txt] fails with the
unpaired-images error naming exactly ["a"]; the caption base ["b"]
is unpaired as well, but the error is raised before the warning is
printed: nothing is printed after the download notice. *)
Theorem unpaired_scenario :
  let file_list := ["a.jpg"; "b.txt"] in
  let r := validate_dataset_structure set_iter (Listing file_list) in
  outcome r = inl (ValueError (unpaired_images_message set_iter {["a"]}))
  ∧ listed_names set_iter {["a"]} = ["a"]
  ∧ base_set Image file_list ∖ base_set Caption file_list = {["a"]}
  ∧ base_set Caption file_list ∖ base_set Image file_list = {["b"]}
  ∧ printed r = ["Downloading dataset for validation..."]
  ∧ (∀ n, warning_line n ∉ printed r).
Proof.
  intros file_list r.
  assert (HU : base_set Image file_list ∖ base_set Caption file_list = {["a"]})
by (by vm_compute).
  assert (Hr : r = Run ["Downloading dataset for validation..."]
 (inl (ValueError (unpaired_images_message set_iter {["a"]})))).
  { apply validate_unpaired; [by vm_compute|by vm_compute|done|].
apply non_empty_singleton_L. }
  rewrite Hr. cbn [outcome printed].
  split_and!; [done| |done|by vm_compute|done|].
  - unfold listed_names. by rewrite set_iter_singleton.
  - intros n [Hn|Hn]%elem_of_cons; [|by apply not_elem_of_nil in Hn].
unfold warning_line in Hn. discriminate Hn.
Qed.

Lemma keep_first_char (c : ascii) (s : string) :
  c ≠ "."%char → c ≠ "_"%char →
  keep (String c s) = negb (endswith (String c s) "/").
Proof.
  intros Hdot Hus. unfold keep. cbn [startswith].
  apply Ascii.eqb_neq in Hdot, Hus.
  rewrite (Ascii.eqb_sym "."%char c), (Ascii.eqb_sym "_"%char c), Hdot, Hus.
  cbn. by rewrite !andb_true_r.
Qed.

(** C10. Classification is blind to case: two names that differ in the
    case of their letters only are classified alike, the extension being
    read off the lowered name.  The pairing key is the entry path as it is
    spelled, directory prefix included, without its extension: when the
    validation succeeds every image has a caption spelled as the image's
    key followed by an extension that lowers to [.txt], and when some image
    has none the validation fails with that image's key among the unpaired
    ones.  The filter looks at the first characters of the whole entry path
    only.  The examples of the claim follow. *)
Theorem pairing_key_case_and_prefix :
  (∀ f g, lower f = lower g → classify f = classify g)
  ∧ (∀ f, f = base_name f +:+ (splitext f).2 ∧ ext f = lower (splitext f).2)
  ∧ (∀ file_list f, is_entry Image file_list f →
       outcome (validate_dataset_structure set_iter (Listing file_list)) = inr true →
       ∃ e, lower e = ".txt" ∧ is_entry Caption file_list (base_name f +:+ e))
  ∧ (∀ file_list f, is_entry Image file_list f →
       (∃ g, is_entry Caption file_list g) →
       (∀ e, lower e = ".txt" → ¬ is_entry Caption file_list (base_name f +:+ e)) →
       ∃ U, base_name f ∈ U
         ∧ outcome (validate_dataset_structure set_iter (Listing file_list))
           = inl (ValueError (unpaired_images_message set_iter U)))
  ∧ (classify "A.JPG" = Image ∧ base_name "A.JPG" = "A"
     ∧ base_name "A.txt" = "A" ∧ base_name "a.txt" = "a")
  ∧ outcome (validate_dataset_structure set_iter (Listing ["A.JPG"; "A.txt"])) = inr true
  ∧ outcome (validate_dataset_structure set_iter (Listing ["A.JPG"; "a.txt"]))
    = inl (ValueError (unpaired_images_message set_iter {["A"]}))
  ∧ (classify "sub/a.jpg" = Image ∧ base_name "sub/a.jpg" = "sub/a"
     ∧ base_name "sub/a.txt" = "sub/a")
  ∧ outcome (validate_dataset_structure set_iter (Listing ["sub/a.jpg"; "sub/a.txt"])) = inr true
  ∧ outcome (validate_dataset_structure set_iter (Listing ["sub/a.jpg"; "a.txt"]))
    = inl (ValueError (unpaired_images_message set_iter {["sub/a"]}))
  ∧ (keep "folder/.hidden.txt" = true ∧ classify "folder/.hidden.txt" = Caption
     ∧ base_name "folder/.hidden.txt" = "folder/.hidden"
     ∧ keep ".hidden.txt" = false ∧ keep "__MACOSX/a.txt" = false)
  ∧ outcome (validate_dataset_structure set_iter (Listing ["folder/.hidden.jpg"; "folder/.hidden.txt"]))
    = inr true
  ∧ (∀ file_list f g,
       is_entry Image file_list f → is_entry Caption file_list g →
       (base_name g ∈ base_set Image file_list ∩ base_set Caption file_list
        ∧ base_name f ∈ base_set Image file_list
        ∧ (base_name f ∈ base_set Caption file_list ↔
           ∃ g', is_entry Caption file_list g' ∧ base_name g' = base_name f)
        ∨ base_name g ≠ base_name f))
  ∧ (∀ (c : ascii) (s : string),
       c ≠ "."%char → c ≠ "_"%char →
       keep (String c s) = negb (endswith (String c s) "/")).
Proof.
  split; [apply classify_lower|].
  split; [intros f; split; [apply entry_spelling|apply ext_lower]|].
  split.
  { intros file_list f Hf (_ & _ & Hall)%validate_ok_iff.
    destruct (proj1 (unpaired_empty_iff file_list) Hall f Hf) as (g & Hg & Hkey).
    exists (splitext g).2. split; [apply classify_caption, Hg|].
    by rewrite <- Hkey, <- entry_spelling. }
  split.
  { intros file_list f Hf Hcap Hnone.
    exists (base_set Image file_list ∖ base_set Caption file_list).
    assert (Hin : base_name f ∈ base_set Image file_list ∖ base_set Caption file_list).
    { apply elem_of_difference. split; [apply elem_of_base_set; eauto|].
      intros (g & Hg & Hkey)%elem_of_base_set.
      apply (Hnone (splitext g).2); [apply classify_caption, Hg|].
      by rewrite <- Hkey, <- entry_spelling. }
    split; [done|].
    apply (f_equal outcome (validate_unpaired file_list _
             ltac:(apply base_set_members, base_set_nonempty; eauto)
             ltac:(by apply base_set_members, base_set_nonempty)
             eq_refl
             ltac:(intros E; rewrite E in Hin; by apply not_elem_of_empty in Hin))). }
  split; [by vm_compute|].
  split; [apply validate_ok_iff; by vm_compute|].
  split.
  { apply (f_equal outcome (validate_unpaired ["A.JPG"; "a.txt"] {["A"]}
             ltac:(by vm_compute) ltac:(by vm_compute) ltac:(by vm_compute)
             (non_empty_singleton_L _))). }
  split; [by vm_compute|].
  split; [apply validate_ok_iff; by vm_compute|].
  split.
  { apply (f_equal outcome (validate_unpaired ["sub/a.jpg"; "a.txt"] {["sub/a"]}
             ltac:(by vm_compute) ltac:(by vm_compute) ltac:(by vm_compute)
             (non_empty_singleton_L _))). }
  split; [by vm_compute|].
  split; [apply validate_ok_iff; by vm_compute|].
  split; [|apply keep_first_char].
  intros file_list f g Hf Hg.
  destruct (decide (base_name g = base_name f)) as [Heq|Hne]; [left|by right].
  split_and!.
  - apply elem_of_intersection. split; apply elem_of_base_set; eauto.
  - apply elem_of_base_set; eauto.
  - by rewrite elem_of_base_set.
Qed.

End Claims.

(** C2 as stated fails when the listing has no image either: the
images check comes first. *)
Lemma no_captions_counterexample :
(∀ g, ¬ is_entry Caption ["readme.md"] g)
∧ outcome (validate_dataset_structure elements (Listing ["readme.md"]))
= inl (ValueError ("Failed to validate dataset structure: " +:+
               no_images_message elements))
∧ outcome (validate_dataset_structure elements (Listing ["readme.md"]))
≠ inl (ValueError no_captions_message).
Proof.
split_and!.
- intros g (Hg & _ & Hc). apply list_elem_of_In in Hg. cbn in Hg.
destruct Hg as [<-|[]]. by vm_compute in Hc.
- by vm_compute.
- by vm_compute.
Qed.

Lemma no_captions_fails_witness :
validate_dataset_structure elements (Listing ["a.jpg"])
= Run ["Downloading dataset for validation..."]
(inl (ValueError no_captions_message)).
Proof.
apply (no_captions_fails elements ["a.jpg"]).
- exists "a.jpg". by vm_compute; repeat constructor.
- intros g (Hg & _ & Hc). apply list_elem_of_In in Hg. cbn in Hg.
destruct Hg as [<-|[]]. by vm_compute in Hc.
Defined.

(** C3 as stated fails on a listing without captions (the no-captions
check comes first), and with more than five unpaired images some of
them are not listed. *)
Lemma unpaired_image_counterexample :
(is_entry Image ["a.jpg"] "a.jpg"
 ∧ (∀ g, ¬ is_entry Caption ["a.jpg"] g)
 ∧ outcome (validate_dataset_structure elements (Listing ["a.jpg"]))
 = inl (ValueError no_captions_message)
 ∧ outcome (validate_dataset_structure elements (Listing ["a.jpg"]))
 ≠ inl (ValueError (unpaired_images_message elements {["a"]})))
∧ (let file_list := ["1.jpg"; "2.jpg"; "3.jpg"; "4.jpg"; "5.jpg"; "6.jpg"; "x.txt"] in
 let U := base_set Image file_list ∖ base_set Caption file_list in
 outcome (validate_dataset_structure elements (Listing file_list))
 = inl (ValueError (unpaired_images_message elements U))
 ∧ is_entry Image file_list "4.jpg"
 ∧ base_name "4.jpg" ∈ U
 ∧ base_name "4.jpg" ∉ listed_names elements U).
Proof.
split; split_and!.
- by vm_compute; repeat constructor.
- intros g (Hg & _ & Hc). apply list_elem_of_In in Hg. cbn in Hg.
destruct Hg as [<-|[]]. by vm_compute in Hc.
- by vm_compute.
- by vm_compute.
- by vm_compute.
- split_and!; [|done..]. apply list_elem_of_In. cbn. tauto.
- refine (bool_decide_unpack _ _). vm_compute. exact I.
- refine (bool_decide_unpack _ _). vm_compute. exact I.
Qed.

Lemma unpaired_image_fails_witness :
validate_dataset_structure elements (Listing ["a.jpg"; "b.txt"])
= Run ["Downloading dataset for validation..."]
(inl (ValueError (unpaired_images_message elements
   (base_set Image ["a.jpg"; "b.txt"] ∖ base_set Caption ["a.jpg"; "b.txt"])))).
Proof.
apply (unpaired_image_fails elements (λ X, reflexivity _) ["a.jpg"; "b.txt"] "a.jpg").
- exists "b.txt". by vm_compute; repeat constructor.
- by vm_compute; repeat constructor.
- intros g (Hg & _ & Hc). apply list_elem_of_In in Hg. cbn in Hg.
destruct Hg as [<-|[<-|[]]]; by vm_compute.
Defined.

(** C4 as stated fails: no warning line is printed on the failing path. *)
Lemma unpaired_scenario_counterexample :
printed (validate_dataset_structure elements (Listing ["a.jpg"; "b.txt"]))
= ["Downloading dataset for validation..."]
∧ warning_line 1 ∉ printed (validate_dataset_structure elements (Listing ["a.jpg"; "b.txt"])).
Proof.
split; [by vm_compute|]. refine (bool_decide_unpack _ _). vm_compute. exact I.
Qed.

Lemma unpaired_scenario_witness :
outcome (validate_dataset_structure elements (Listing ["a.jpg"; "b.txt"]))
= inl (ValueError (unpaired_images_message elements {["a"]})).
Proof.
apply (unpaired_scenario elements (λ X, reflexivity _)).
Defined.

End DatasetSpec.

(** ** Job Client and Lifecycle Orchestrator: the claims *)

Module LifecycleSpec.

Import Lifecycle.

Section Monitor.

Variable training_id : string.
Variable check_interval : nat.

Local Abbreviation loop := (monitor_loop training_id check_interval).
Local Abbreviation monitor := (monitor_training training_id check_interval).

Local Abbreviation waits := (waits check_interval).

Lemma polls_waits (n : nat) (a : list action) : polls (waits n ++ a) = n + polls a.
Proof.
  induction n as [|n IH]; [done|].
  change (polls (waits (S n) ++ a)) with (S (polls (waits n ++ a))).
  by rewrite IH.
Qed.

Lemma waits_no_cancel (n : nat) : CancelRequest ∉ waits n.
Proof.
  induction n as [|n IH]; cbn; [apply not_elem_of_nil|].
  intros [?|[?|?]%elem_of_cons]%elem_of_cons; done.
Qed.

Lemma not_terminal_eqb (st : string) :
  ¬ terminal st →
  String.eqb st "succeeded" = false ∧ String.eqb st "failed" = false ∧
  String.eqb st "canceled" = false.
Proof.
  unfold terminal. intros Hnt.
  split_and!; apply String.eqb_neq; intros ->; tauto.
Qed.

Lemma loop_waiting (it : iteration) (rest : list iteration) :
  waiting it →
  loop (it :: rest) = before [GetTraining; Sleep check_interval] [] (loop rest).
Proof.
  intros (t & Hp & Hnt & Hs). destruct it as [p sl]. cbn in Hp, Hs. subst.
  apply not_terminal_eqb in Hnt as (E1 & E2 & E3).
  cbn. by rewrite E1, E2, E3.
Qed.

Lemma loop_waiting_prefix (pre rest : list iteration) :
  Forall waiting pre →
  loop (pre ++ rest) = before (waits (length pre)) [] (loop rest).
Proof.
  induction 1 as [|it pre Hit _ IH]; cbn [app length waits].
  - by destruct (loop rest).
  - rewrite (loop_waiting _ _ Hit), IH. done.
Qed.

Lemma loop_terminal (t : training) (sl : sleep_response) (post : list iteration) :
  terminal (status t) →
  calls (loop (Iteration (GetOk t) sl :: post)) = [GetTraining] ∧
  result (loop (Iteration (GetOk t) sl :: post)) = Some (status t).
Proof.
  intros [E|[E|E]]; cbn; rewrite E; done.
Qed.

Lemma loop_interrupted (it : iteration) (post : list iteration) :
  interrupted it →
  polls (calls (loop (it :: post))) = 1
  ∧ (CancelRequest ∉ calls (loop (it :: post)))
  ∧ result (loop (it :: post)) = Some "monitoring_stopped".
Proof.
  destruct it as [p sl]. intros [Hp|(t & Hp & Hnt & Hs)]; cbn in *; subst.
  - cbn. split_and!; [done| |done]. by intros [?|?%not_elem_of_nil]%elem_of_cons.
  - apply not_terminal_eqb in Hnt as (E1 & E2 & E3).
cbn. rewrite E1, E2, E3. cbn. split_and!; [done| |done].
intros [?|[?|?%not_elem_of_nil]%elem_of_cons]%elem_of_cons; done.
Qed.

Lemma loop_never_downloads (script : list iteration) : Download ∉ calls (loop script).
Proof.
  induction script as [|[p sl] rest IH]; cbn; [apply not_elem_of_nil|].
  assert (H1 : Download ∉ [GetTraining])
by (by intros [?|?%not_elem_of_nil]%elem_of_cons).
  destruct p as [t| |]; cbn; try done.
  repeat (case_match; cbn; try done).
  - intros [?|[?|?]%elem_of_cons]%elem_of_cons; done.
  - intros [?|[?|?%not_elem_of_nil]%elem_of_cons]%elem_of_cons; done.
Qed.

(** The loop never asks the service to cancel, whatever it is told. *)
Lemma loop_never_cancels (script : list iteration) : CancelRequest ∉ calls (loop script).
Proof.
  induction script as [|[p sl] rest IH]; cbn; [apply not_elem_of_nil|].
  assert (H1 : CancelRequest ∉ [GetTraining])
by (by intros [?|?%not_elem_of_nil]%elem_of_cons).
  destruct p as [t| |]; cbn; try done.
  repeat (case_match; cbn; try done).
  - intros [?|[?|?]%elem_of_cons]%elem_of_cons; done.
  - intros [?|[?|?%not_elem_of_nil]%elem_of_cons]%elem_of_cons; done.
Qed.

(** C5. When the answers are non-terminal statuses up to a first
terminal one, the monitor returns that status, having made one status
call per answer up to and including it and none after; on answers
that are all non-terminal (starting, processing) it has not
returned. *)
Theorem monitor_returns_first_terminal
(pre post : list iteration) (t : training) (sl : sleep_response) :
  Forall waiting pre →
  terminal (status t) →
  let m := monitor (pre ++ Iteration (GetOk t) sl :: post) in
  result m = Some (status t)
  ∧ calls m = waits (length pre) ++ [GetTraining]
  ∧ polls (calls m) = S (length pre)
  ∧ result (monitor pre) = None
  ∧ (∀ n, result (monitor (replicate n (answer "starting"))) = None
  ∧ result (monitor (replicate n (answer "processing"))) = None).
Proof.
  intros Hpre Ht m. subst m. unfold monitor_training, before. cbn [result calls app].
  rewrite loop_waiting_prefix by done. unfold before. cbn [result calls].
  destruct (loop_terminal t sl post Ht) as [Hc Hr]. rewrite Hc, Hr.
  split_and!; [done|done| | |].
  - rewrite polls_waits. change (polls [GetTraining]) with 1. lia.
  - rewrite <- (app_nil_r pre), loop_waiting_prefix by done. done.
  - intros n. split.
+ rewrite <- (app_nil_r (replicate _ _)), loop_waiting_prefix; [done|].
  apply Forall_replicate. exists (job "starting").
  split_and!; [done| |done]. unfold terminal. cbn. by intros [?|[?|?]].
+ rewrite <- (app_nil_r (replicate _ _)), loop_waiting_prefix; [done|].
  apply Forall_replicate. exists (job "processing").
  split_and!; [done| |done]. unfold terminal. cbn. by intros [?|[?|?]].
Qed.

(** C7. When the interrupt arrives in a turn of the loop, after turns
that waited, the monitor returns ["monitoring_stopped"]; the status
call of that turn is its last, and no cancel request is ever
sent. *)
Theorem interrupt_stops_monitoring (pre post : list iteration) (it : iteration) :
  Forall waiting pre →
  interrupted it →
  let m := monitor (pre ++ it :: post) in
  result m = Some "monitoring_stopped"
  ∧ polls (calls m) = S (length pre)
  ∧ (CancelRequest ∉ calls m)
  ∧ (Download ∉ calls m).
Proof.
  intros Hpre Hit m. subst m. unfold monitor_training, before. cbn [result calls app].
  rewrite loop_waiting_prefix by done. unfold before. cbn [result calls].
  destruct (loop_interrupted it post Hit) as (Hp & Hc & Hr).
  split_and!; [done| | |].
  - rewrite polls_waits, Hp. lia.
  - intros [H|H]%elem_of_app; [by apply waits_no_cancel in H|done].
  - pose proof (loop_never_downloads (pre ++ it :: post)) as Hd.
rewrite loop_waiting_prefix in Hd by done. done.
Qed.

(** C6 (amended). On the answers starting, processing, processing,
succeeded the monitor returns ["succeeded"] after exactly four status
calls, one per answer, with a sleep after each of the first three;
after three calls it has not returned, and what would be answered
later is never asked for. *)
Theorem monitor_scenario (post : list iteration) :
  let script := [answer "starting"; answer "processing"; answer "processing";
 answer "succeeded"] in
  let m := monitor (script ++ post) in
  result m = Some "succeeded"
  ∧ polls (calls m) = 4
  ∧ calls m = [GetTraining; Sleep check_interval; GetTraining; Sleep check_interval;
   GetTraining; Sleep check_interval; GetTraining]
  ∧ result (monitor (take 3 script)) = None
  ∧ polls (calls (monitor (take 3 script))) = 3.
Proof. by vm_compute. Qed.

End Monitor.

(** C6 as stated fails: the fourth answer takes a fourth status call. *)
Lemma monitor_scenario_counterexample :
let script := [answer "starting"; answer "processing"; answer "processing";
         answer "succeeded"] in
polls (calls (monitor_training "job" 30 script)) = 4
∧ polls (calls (monitor_training "job" 30 script)) ≠ 3
∧ result (monitor_training "job" 30 (take 3 script)) = None.
Proof. by vm_compute. Qed.

Lemma monitor_returns_first_terminal_witness :
result (monitor_training "job" 30
    ([answer "starting"; answer "processing"; answer "processing"]
     ++ Iteration (GetOk (job "succeeded")) Slept :: []))
= Some "succeeded".
Proof.
apply (monitor_returns_first_terminal "job" 30
   [answer "starting"; answer "processing"; answer "processing"] []
   (job "succeeded") Slept).
- repeat constructor; eexists; (split_and!; [reflexivity| |reflexivity]);
unfold terminal; cbn; by intros [?|[?|?]].
- by left.
Defined.

(** The interrupt arrives in the second status call of the scenario. *)
Lemma interrupt_stops_monitoring_witness :
let m := monitor_training "job" 30
     ([answer "starting"] ++ Iteration GetInterrupted Slept ::
      [answer "processing"; answer "succeeded"]) in
result m = Some "monitoring_stopped"
∧ polls (calls m) = 2
∧ (CancelRequest ∉ calls m)
∧ (Download ∉ calls m).
Proof.
apply (interrupt_stops_monitoring "job" 30 [answer "starting"]
   [answer "processing"; answer "succeeded"] (Iteration GetInterrupted Slept)).
- repeat constructor; eexists; (split_and!; [reflexivity| |reflexivity]);
unfold terminal; cbn; by intros [?|[?|?]].
- by left.
Defined.

(** C8. For a job whose status is neither starting nor processing,
[cancel_training] returns [False] after the status call alone: no
cancel request is sent.  For a job in starting or processing the cancel
request follows the status call, and the call returns [True] once the
service has taken the request. *)
Theorem cancel_policy (training_id : string) (t : training) (c : cancel_response) :
(status t ≠ "starting" → status t ≠ "processing" →
 (cancel_training training_id (GetOk t) c).1 = [GetTraining]
 ∧ outcome (cancel_training training_id (GetOk t) c).2 = inr false)
∧ (status t = "starting" ∨ status t = "processing" →
 (cancel_training training_id (GetOk t) c).1 = [GetTraining; CancelRequest]
 ∧ outcome (cancel_training training_id (GetOk t) CancelOk).2 = inr true).
Proof.
split.
- intros H1 H2. unfold cancel_training, cancelable.
apply String.eqb_neq in H1, H2. by rewrite H1, H2.
- intros Hst. unfold cancel_training, cancelable.
assert (E : String.eqb (status t) "starting" || String.eqb (status t) "processing" = true).
{ destruct Hst as [-> | ->]; done. }
rewrite E. by destruct c.
Qed.

Lemma cancel_policy_witness :
(cancel_training "job" (GetOk (job "succeeded")) CancelOk).1 = [GetTraining]
∧ outcome (cancel_training "job" (GetOk (job "succeeded")) CancelOk).2 = inr false
∧ (cancel_training "job" (GetOk (job "processing")) CancelOk).1
= [GetTraining; CancelRequest]
∧ outcome (cancel_training "job" (GetOk (job "processing")) CancelOk).2 = inr true.
Proof.
destruct (cancel_policy "job" (job "succeeded") CancelOk) as [H1 _].
destruct (cancel_policy "job" (job "processing") CancelOk) as [_ H2].
destruct H1 as [H1a H1b]; [done..|].
destruct H2 as [H2a H2b]; [by right|].
done.
Defined.

End LifecycleSpec.


(** ** Result Materializer: the claims *)

Module MaterializerSpec.

Import Py PyFacts Materializer.

Lemma model_name_trailing (owner name : string) :
contains "/" name = false → model_name (owner +:+ "/" +:+ name) = name.
Proof.
intros Hname. unfold model_name. rewrite contains_middle.
change ("/" +:+ name) with (String "/" name).
rewrite split_app_sep, last_item_app by apply split_nonempty.
by rewrite (split_no_sep _ _ Hname).
Qed.

Lemma model_name_top (destination : string) :
contains "/" (model_name destination) = false.
Proof.
unfold model_name. destruct (contains "/" destination) eqn:E; [|done].
apply (last_item_Forall (λ x, contains "/" x = false));
[apply split_nonempty|apply split_parts].
Qed.

Lemma new_filename_stem (m t : string) :
new_filename m t = (m +:+ "_" +:+ t) +:+ ".safetensors".
Proof. unfold new_filename. by rewrite !app_assoc_str. Qed.

Lemma stem_length (m t : string) : 0 < String.length (m +:+ "_" +:+ t).
Proof.
rewrite length_app_str. change ("_" +:+ t) with (String "_" t).
cbn [String.length]. lia.
Qed.

Lemma weights_suffix (x : string) :
0 < String.length x → suffix (x +:+ ".safetensors") = ".safetensors".
Proof.
intros Hx. unfold suffix, rfind.
rewrite rfind_from_app. cbn [rfind_from Ascii.eqb Bool.eqb].
rewrite length_app_str. cbn [String.length].
replace (0 <? 0 + Z.of_nat (String.length x))%Z with true by (symmetry; apply Z.ltb_lt; lia).
replace (0 + Z.of_nat (String.length x) <? Z.of_nat (String.length x + 12) - 1)%Z
with true by (symmetry; apply Z.ltb_lt; lia).
cbn [andb]. unfold slice_from. rewrite length_app_str.
replace (Z.to_nat (0 + Z.of_nat (String.length x))) with (String.length x + 0) by lia.
rewrite substring_skip.
replace (String.length x + String.length ".safetensors" - (String.length x + 0))
with (String.length ".safetensors") by lia.
apply substring_all.
Qed.

Lemma weights_not_caption (x : string) : endswith (x +:+ ".safetensors") ".txt" = false.
Proof.
unfold endswith. rewrite length_app_str. cbn [String.length].
replace (String.length x + 12 - 4) with (String.length x + 8) by lia.
rewrite substring_skip. apply andb_false_r.
Qed.

Lemma weights_match (x : string) : endswith (x +:+ ".safetensors") ".safetensors" = true.
Proof.
unfold endswith. rewrite length_app_str. cbn [String.length].
replace (String.length x + 12 - 12) with (String.length x + 0) by lia.
rewrite substring_skip.
replace (12 <=? String.length x + 12) with true by (symmetry; apply Nat.leb_le; lia).
done.
Qed.

(** *** The file-system part of [download_result] *)

Lemma bind_inr_inv {A B} (m : io A) (f : A → io B) (y : B) :
  (bind m f).2 = inr y → ∃ x, m.2 = inr x ∧ (f x).2 = inr y.
Proof. unfold bind. destruct m.2 as [e|x]; [done|]. eauto. Qed.

Lemma call_inr (c : fs_call) (answer : option exn) (x : unit) :
  (call c answer).2 = inr x → answer = None.
Proof. by destruct answer. Qed.

Lemma finally_inr {A} (body : io A) (handler : io unit) (y : A) :
  (finally body handler).2 = inr y → handler.2 = inr tt ∧ body.2 = inr y.
Proof. unfold finally. cbn [snd]. by destruct handler.2 as [e|[]]. Qed.

Lemma move_captions_ok (captions : list (string * option exn)) (n : nat) :
  Forall (λ c, c.2 = None) captions →
  move_captions captions n = (caption_rename <$> captions, inr (n + length captions)).
Proof.
  intros H. revert n. induction H as [|[name answer] captions Hc _ IH]; intros n.
  - cbn. unfold ret. by rewrite Nat.add_0_r.
  - cbn in Hc. subst answer. cbn [move_captions]. unfold bind, call. cbn [fst snd].
    rewrite IH. cbn [fst snd length fmap list_fmap]. unfold caption_rename at 2.
    replace (S n + length captions) with (n + S (length captions)) by lia. done.
Qed.

Lemma move_captions_inv (captions : list (string * option exn)) (n m : nat) :
  (move_captions captions n).2 = inr m → Forall (λ c, c.2 = None) captions.
Proof.
  revert n. induction captions as [|[name [e|]] captions IH]; intros n H.
  - constructor.
  - done.
  - constructor; [done|]. cbn [move_captions] in H. unfold bind, call in H.
    cbn [fst snd] in H. by apply (IH (S n)).
Qed.

(** The loop stops at the first rename that is refused: the captions
    before it have been moved, those after it have not. *)
Lemma move_captions_stops (moved rest : list (string * option exn))
    (name : string) (e : exn) (n : nat) :
  Forall (λ c, c.2 = None) moved →
  move_captions (moved ++ (name, Some e) :: rest) n
  = (caption_rename <$> (moved ++ [(name, Some e)]), inl e).
Proof.
  intros H. revert n. induction H as [|[name' answer] moved Hc _ IH]; intros n.
  - done.
  - cbn in Hc. subst answer. cbn [app move_captions]. unfold bind, call. cbn [fst snd].
    by rewrite IH.
Qed.

Lemma cleanup_ok (items : list entry) :
  Forall (λ item, ∃ b, entry_is_file item = inr b) items →
  (cleanup items).2 = inr tt
  ∧ unlinks (cleanup items).1 = entry_name <$> List.filter disposable items
  ∧ renames (cleanup items).1 = [].
Proof.
  induction 1 as [|[name is_file answer] items [b Hb] _ (IH1 & IH2 & IH3)]; [done|].
  cbn in Hb. subst is_file. cbn [cleanup entry_name entry_is_file].
  unfold bind, ask. cbn [fst snd]. unfold disposable at 1.
  cbn [entry_name entry_is_file List.filter].
  destruct b; cbn [andb];
    [destruct (bool_decide (suffix name ∈ [".safetensors"])); cbn [negb andb];
      [|destruct (bool_decide (name ∈ [".env"; "config.yaml"])); cbn [negb]]|];
    cbn [fst snd ret app]; rewrite ?IH1; (split_and!; [done| |]);
    cbn [unlinks renames omap list_omap app fmap list_fmap];
    try (fold (unlinks (cleanup items).1)); try (fold (renames (cleanup items).1));
    by rewrite ?IH2, ?IH3.
Qed.

Lemma cleanup_inv (items : list entry) :
  (cleanup items).2 = inr tt → Forall (λ item, ∃ b, entry_is_file item = inr b) items.
Proof.
  induction items as [|[name [e|b] answer] items IH]; intros H.
  - constructor.
  - done.
  - constructor; [by exists b|]. apply IH.
    cbn [cleanup entry_name entry_is_file] in H. unfold bind, ask in H. cbn [fst snd] in H.
    by repeat (case_match; cbn [fst snd ret] in H).
Qed.

(** Whatever the answers, the loop removes only regular files that are no
    weights file, [.env] or [config.yaml], and renames nothing. *)
Lemma cleanup_calls (items : list entry) (c : fs_call) :
  c ∈ (cleanup items).1 →
  (∃ item, item ∈ items ∧ c = IsFile (entry_name item))
  ∨ (∃ item, item ∈ items ∧ c = Unlink (entry_name item) ∧ disposable item = true).
Proof.
  induction items as [|[name is_file answer] items IH]; [by intros ?%elem_of_nil|].
  cbn [cleanup entry_name entry_is_file]. unfold bind, ask. cbn [fst snd].
  destruct is_file as [e|b].
  { intros ->%list_elem_of_singleton. left. eexists. split; [left|done]. }
  assert (Hrest : c ∈ (cleanup items).1 →
            (∃ item, item ∈ Entry name (inr b) answer :: items ∧ c = IsFile (entry_name item))
            ∨ (∃ item, item ∈ Entry name (inr b) answer :: items
                 ∧ c = Unlink (entry_name item) ∧ disposable item = true)).
  { intros [(item & Hi & ->)|(item & Hi & -> & Hd)]%IH; [left|right]; exists item;
      (split; [by right|done]). }
  intros [->|Hc]%elem_of_cons.
  { left. eexists. split; [left|done]. }
  destruct b; cbn [andb] in Hc.
  2:{ cbn [fst snd ret app] in Hc. auto. }
  destruct (bool_decide (suffix name ∈ [".safetensors"])) eqn:E1; cbn [negb andb] in Hc.
  { cbn [fst snd ret app] in Hc. auto. }
  destruct (bool_decide (name ∈ [".env"; "config.yaml"])) eqn:E2; cbn [negb] in Hc.
  { cbn [fst snd ret app] in Hc. auto. }
  cbn [fst snd app] in Hc. apply elem_of_cons in Hc as [->|Hc]; [|auto].
  right. exists (Entry name (inr true) answer). split; [left|]. split; [done|].
  unfold disposable. cbn [entry_name entry_is_file]. by rewrite E1, E2.
Qed.

Section Materialize.

Variables (output_dir target : string) (a : answers).

Lemma materialize_ok (original : string) (rest : list string)
    (captions : list (string * option exn)) (items : list entry) :
  extracted a → safetensors_files a = inr (original :: rest) →
  (original ≠ target → rename_model a = None) →
  captions_moved a captions → scanned a items →
  materialize output_dir target a
  = (full_trace original target captions items,
     match unlink_temp a with Some e => inl e | None => inr (Some (PathJoin output_dir target)) end).
Proof.
  intros (H1 & H2 & H3 & H4) Hg Hr [Hc Hcs] [Hi His].
  unfold materialize, organize, full_trace, finally, bind, call, ask.
  rewrite H1, H2, H3, H4, Hg, Hc, Hi. cbn [fst snd app].
  rewrite (move_captions_ok _ 0 Hcs). cbn [fst snd].
  destruct (cleanup_ok items His) as (Hok & _). rewrite Hok.
  destruct (decide (original ≠ target)) as [Hne|Heq].
  - rewrite (Hr Hne). cbn [fst snd app ret].
    destruct (unlink_temp a); by rewrite app_nil_r, <- app_assoc.
  - cbn [fst snd app ret].
    destruct (unlink_temp a); by rewrite app_nil_r, <- app_assoc.
Qed.

Lemma materialize_path (p : path) :
  (materialize output_dir target a).2 = inr (Some p) ↔
  extracted a
  ∧ (∃ original rest, safetensors_files a = inr (original :: rest)
       ∧ (original ≠ target → rename_model a = None))
  ∧ (∃ captions, captions_moved a captions)
  ∧ (∃ items, scanned a items)
  ∧ unlink_temp a = None
  ∧ p = PathJoin output_dir target.
Proof.
  split.
  - unfold materialize, organize. intros H.
    apply bind_inr_inv in H as ([] & H1%call_inr & H).
    apply bind_inr_inv in H as ([] & H2%call_inr & H).
    apply bind_inr_inv in H as ([] & H3%call_inr & H).
    apply finally_inr in H as [Hu%call_inr H].
    apply bind_inr_inv in H as ([] & H4%call_inr & H).
    apply bind_inr_inv in H as (found & Hg & H). cbn in Hg.
    destruct found as [|original rest]; [done|].
    apply bind_inr_inv in H as ([] & Hr & H).
    apply bind_inr_inv in H as (captions & Hc & H). cbn in Hc.
    apply bind_inr_inv in H as (n & Hm%move_captions_inv & H).
    apply bind_inr_inv in H as (items & Hi & H). cbn in Hi.
    apply bind_inr_inv in H as ([] & Hcl%cleanup_inv & H).
    injection H as <-.
    split_and!; try done.
    + exists original, rest. split; [done|]. intros Hne.
      rewrite decide_True in Hr by done. by apply call_inr in Hr.
    + by exists captions.
    + by exists items.
  - intros (He & (original & rest & Hg & Hr) & (captions & Hc) & (items & Hi) & Hu & ->).
    rewrite (materialize_ok original rest captions items He Hg Hr Hc Hi). cbn [snd].
    by rewrite Hu.
Qed.

End Materialize.

(** *** [download_result] on a succeeded job *)

Lemma download_run (training_id output_dir output_url dest : string)
    (t : Lifecycle.training) (input_config : gmap string string) (a : answers) :
  Lifecycle.status t = "succeeded" →
  Lifecycle.output t = Some output_url → output_url ≠ "" →
  Lifecycle.input t = Some input_config →
  Lifecycle.destination t = Some dest →
  let m := materialize output_dir
             (new_filename (model_name dest)
                (default "lora" (input_config !! "trigger_word"))) a in
  download_result training_id output_dir (Lifecycle.GetOk t) Fetched a
  = Downloaded [Lifecycle.GetTraining; Lifecycle.Download] m.1 m.2.
Proof.
  intros Hst Hout Hurl Hin Hdest. unfold download_result.
  cbn [Lifecycle.get_training_status outcome].
  rewrite Hst, Hout, Hin, Hdest. cbn [String.eqb Ascii.eqb Bool.eqb negb].
  by destruct output_url.
Qed.

Lemma download_reaches (training_id output_dir : string)
    (g : Lifecycle.get_response) (d : download_response) (a : answers) :
  let r := download_result training_id output_dir g d a in
  (∃ t url input_config dest,
     g = Lifecycle.GetOk t ∧ Lifecycle.status t = "succeeded"
     ∧ Lifecycle.output t = Some url ∧ url ≠ ""
     ∧ Lifecycle.input t = Some input_config ∧ Lifecycle.destination t = Some dest
     ∧ d = Fetched)
  ∨ (fs_calls r = [] ∧ ∀ p, returned r ≠ inr (Some p)).
Proof.
  unfold download_result.
  destruct g as [t|msg|]; cbn [Lifecycle.get_training_status outcome];
    [|by right..].
  destruct (String.eqb (Lifecycle.status t) "succeeded") eqn:Est; cbn [negb];
    [|by right].
  apply String.eqb_eq in Est.
  destruct (Lifecycle.output t) as [[|c url]|] eqn:Eout; [by right| |by right].
  destruct (Lifecycle.input t) as [input_config|] eqn:Ein; [|by right].
  destruct (Lifecycle.destination t) as [dest|] eqn:Edest; [|by right].
  destruct d as [msg|]; [by right|].
  left. exists t, (String c url), input_config, dest. by split_and!.
Qed.

Lemma renames_app (l k : list fs_call) : renames (l ++ k) = renames l ++ renames k.
Proof. unfold renames. apply omap_app. Qed.

Lemma unlinks_app (l k : list fs_call) : unlinks (l ++ k) = unlinks l ++ unlinks k.
Proof. unfold unlinks. apply omap_app. Qed.

Lemma renames_captions (captions : list (string * option exn)) :
  renames (caption_rename <$> captions) = (λ c, (c.1, "captions/" +:+ c.1)) <$> captions.
Proof. induction captions as [|c l IH]; [done|]. cbn. by rewrite <- IH. Qed.

Lemma unlinks_captions (captions : list (string * option exn)) :
  unlinks (caption_rename <$> captions) = [].
Proof. by induction captions. Qed.

Lemma renames_cons (c : fs_call) (l : list fs_call) :
  renames (c :: l)
  = match c with Rename src dst => [(src, dst)] | _ => [] end ++ renames l.
Proof. by destruct c. Qed.

Lemma unlinks_cons (c : fs_call) (l : list fs_call) :
  unlinks (c :: l) = match c with Unlink name => [name] | _ => [] end ++ unlinks l.
Proof. by destruct c. Qed.

Lemma renames_full (original target : string) (captions : list (string * option exn))
    (items : list entry) :
  Forall (λ item, ∃ b, entry_is_file item = inr b) items →
  renames (full_trace original target captions items)
  = (if decide (original ≠ target) then [(original, target)] else [])
    ++ ((λ c, (c.1, "captions/" +:+ c.1)) <$> captions).
Proof.
  intros His. destruct (cleanup_ok items His) as (_ & _ & Hr).
  unfold full_trace.
  rewrite !renames_app, (renames_cons (Glob "*.txt")), renames_app,
    (renames_cons Iterdir), renames_app, renames_captions, Hr.
  change (renames [MkdirOutput; MkdirCaptions; SaveArchive; ExtractAll;
                   Glob "*.safetensors"]) with (@nil (string * string)).
  change (renames [UnlinkTemp]) with (@nil (string * string)).
  cbn [app]. rewrite app_nil_r. by destruct (decide (original ≠ target)).
Qed.

Lemma unlinks_full (original target : string) (captions : list (string * option exn))
    (items : list entry) :
  Forall (λ item, ∃ b, entry_is_file item = inr b) items →
  unlinks (full_trace original target captions items)
  = entry_name <$> List.filter disposable items.
Proof.
  intros His. destruct (cleanup_ok items His) as (_ & Hu & _).
  unfold full_trace.
  rewrite !unlinks_app, (unlinks_cons (Glob "*.txt")), unlinks_app,
    (unlinks_cons Iterdir), unlinks_app, unlinks_captions, Hu.
  change (unlinks [MkdirOutput; MkdirCaptions; SaveArchive; ExtractAll;
                   Glob "*.safetensors"]) with (@nil string).
  change (unlinks [UnlinkTemp]) with (@nil string).
  cbn [app]. rewrite app_nil_r. by destruct (decide (original ≠ target)).
Qed.




End MaterializerSpec.


(** ** Lifecycle Orchestrator and Job Client: further properties *)

Module LifecycleMore.

Import Lifecycle LifecycleSpec.

Section Monitor.

Variable training_id : string.
Variable check_interval : nat.

Local Abbreviation loop := (monitor_loop training_id check_interval).
Local Abbreviation monitor := (monitor_training training_id check_interval).
Local Abbreviation waits := (waits check_interval).

Local Abbreviation loop_trace := (loop_trace check_interval).
Local Abbreviation well_behaved := (well_behaved check_interval).

Lemma loop_trace_step (a : list action) :
  loop_trace a → loop_trace (GetTraining :: Sleep check_interval :: a).
Proof.
  intros [n [->|[->| ->]]]; exists (S n); cbn; auto.
Qed.

Lemma stopped_well_behaved (it : iteration) (rest : list iteration)
(l : list string) (r : string) :
  r ∈ verdicts → well_behaved (it :: rest) (Monitored [GetTraining] l (Some r)).
Proof.
  intros Hr. unfold well_behaved. cbn [result calls length].
  change (polls [GetTraining]) with 1.
  split_and!; [by intros ? [= <-]|lia|done|]. exists 0. right. by left.
Qed.

Lemma loop_invariants (script : list iteration) : well_behaved script (loop script).
Proof.
  induction script as [|[p sl] rest (IH1 & IH2 & IH3 & IH4)].
  - unfold well_behaved. cbn. split_and!; [done|done|done|]. exists 0. by left.
  - destruct p as [t|msg|]; cbn [monitor_loop poll sleep get_training_status outcome].
+ destruct (String.eqb (status t) "succeeded") eqn:E1.
  { apply String.eqb_eq in E1. apply stopped_well_behaved.
rewrite E1. unfold verdicts. set_solver. }
  destruct (String.eqb (status t) "failed") eqn:E2.
  { apply String.eqb_eq in E2. apply stopped_well_behaved.
rewrite E2. unfold verdicts. set_solver. }
  destruct (String.eqb (status t) "canceled") eqn:E3.
  { apply String.eqb_eq in E3. apply stopped_well_behaved.
rewrite E3. unfold verdicts. set_solver. }
  destruct sl; unfold well_behaved; cbn [before calls result app length].
  * change (polls (GetTraining :: Sleep check_interval :: calls (loop rest)))
  with (S (polls (calls (loop rest)))).
split_and!; [done|lia| |by apply loop_trace_step].
intros Hn. by rewrite IH3.
  * change (polls [GetTraining; Sleep check_interval]) with 1.
split_and!; [|lia|done|].
-- intros r [= <-]. unfold verdicts. set_solver.
-- exists 0. right. by right.
+ apply stopped_well_behaved. unfold verdicts. set_solver.
+ apply stopped_well_behaved. unfold verdicts. set_solver.
Qed.

(** X1. Whatever the service answers, [monitor_training] returns one of
five strings, makes at most one status call per answer (exactly one
while it has not returned), and its trace is a run of
status-call-then-sleep turns ending in at most one more status call
and sleep: it never sends a cancel request and never downloads. *)
Theorem monitor_invariants (script : list iteration) :
  let m := monitor script in
  (∀ r, result m = Some r → r ∈ verdicts)
  ∧ polls (calls m) ≤ length script
  ∧ (result m = None → polls (calls m) = length script)
  ∧ Lifecycle.loop_trace check_interval (calls m)
  ∧ (CancelRequest ∉ calls m)
  ∧ (Download ∉ calls m).
Proof.
  intros m. subst m. unfold monitor_training, before. cbn [result calls app].
  destruct (loop_invariants script) as (H1 & H2 & H3 & H4).
  split_and!; [done..|apply loop_never_cancels|apply loop_never_downloads].
Qed.

(** X2. A failed status call ends the monitoring at once with ["error"]:
the failing call is the last one, nothing is retried, and the error
line carries the message of the failure. *)
Theorem monitor_stops_on_error
(pre post : list iteration) (msg : string) (sl : sleep_response) :
  Forall waiting pre →
  let m := monitor (pre ++ Iteration (GetFails msg) sl :: post) in
  result m = Some "error"
  ∧ calls m = waits (length pre) ++ [GetTraining]
  ∧ polls (calls m) = S (length pre)
  ∧ "[red]Error monitoring training: " +:+ msg +:+ "[/red]" ∈ lines m.
Proof.
  intros Hpre m. subst m. unfold monitor_training, before.
  cbn [result calls lines app].
  rewrite loop_waiting_prefix by done. unfold before.
  cbn [monitor_loop poll get_training_status outcome printed result calls lines str].
  split_and!; [done|done| |].
  - rewrite polls_waits. change (polls [GetTraining]) with 1. lia.
  - cbn. set_solver.
Qed.

End Monitor.

Lemma monitor_stops_on_error_witness :
result (monitor_training "job" 30
      ([answer "starting"; answer "processing"]
       ++ Iteration (GetFails "timeout") Slept :: [answer "succeeded"]))
= Some "error".
Proof.
apply (monitor_stops_on_error "job" 30 [answer "starting"; answer "processing"]
     [answer "succeeded"] "timeout" Slept).
repeat constructor; eexists; (split_and!; [reflexivity| |reflexivity]);
unfold terminal; cbn; by intros [?|[?|?]].
Defined.

(** X3. [cancel_training] returns [True] exactly when the status call
succeeded with a cancelable status and the service took the request;
a cancel request is in the trace exactly when the status call
succeeded with a cancelable status, always as the second and last
call; a failed status call raises its error without any request. *)
Theorem cancel_outcomes (training_id : string) (g : get_response) (c : cancel_response) :
let r := cancel_training training_id g c in
(outcome r.2 = inr true ↔
 ∃ t, g = GetOk t ∧ cancelable (status t) = true ∧ c = CancelOk)
∧ (CancelRequest ∈ r.1 ↔ ∃ t, g = GetOk t ∧ cancelable (status t) = true)
∧ (r.1 = [GetTraining] ∨ r.1 = [GetTraining; CancelRequest])
∧ (∀ msg, g = GetFails msg →
 r.1 = [GetTraining] ∧ outcome r.2 = inl (RemoteError msg))
∧ (∀ t msg, g = GetOk t → cancelable (status t) = true → c = CancelFails msg →
 outcome r.2 = inl (RemoteError msg)).
Proof.
intros r. subst r. unfold cancel_training.
destruct g as [t|m|]; [destruct (cancelable (status t)) eqn:E; [destruct c as [|m]|]|..];
cbn [fst snd outcome].
- split_and!; [split; [eauto|done]|split; [eauto|set_solver]|by right
           |by intros ? [=]|by intros ? ? ? ? [=]].
- split_and!; [split; [done|by intros (? & ? & ? & [=])]
           |split; [eauto|set_solver]|by right|by intros ? [=]
           |by intros ? ? ? ? [= ->]].
- split_and!; [split; [done|intros (? & [= <-] & ? & ?); congruence]
           |split; [set_solver|intros (? & [= <-] & ?); congruence]|by left
           |by intros ? [=]|intros ? ? [= <-] ?; congruence].
- split_and!; [split; [done|by intros (? & [=] & ?)]
           |split; [set_solver|by intros (? & [=] & ?)]|by left
           |by intros ? [= ->]|by intros ? ? [=]].
- split_and!; [split; [done|by intros (? & [=] & ?)]
           |split; [set_solver|by intros (? & [=] & ?)]|by left
           |by intros ? [=]|by intros ? ? [=]].
Qed.

End LifecycleMore.


(** ** Result Materializer: further properties *)

Module MaterializerMore.

Import Py PyFacts Materializer MaterializerSpec.

Local Ltac not_in H :=
  exfalso; cbn in H;
  repeat (apply elem_of_cons in H as [H|H]; [discriminate H|]);
  by apply elem_of_nil in H.

Lemma bind_calls {A B} (m : io A) (f : A → io B) (c : fs_call) :
  c ∈ (bind m f).1 → c ∈ m.1 ∨ ∃ x, m.2 = inr x ∧ c ∈ (f x).1.
Proof.
  unfold bind. destruct m.2 as [e|x]; cbn [fst]; [by left|].
  intros [?|?]%elem_of_app; [by left|right; eauto].
Qed.

Lemma move_captions_calls (captions : list (string * option exn)) (n : nat) (c : fs_call) :
  c ∈ (move_captions captions n).1 → ∃ name, c = Rename name ("captions/" +:+ name).
Proof.
  revert n. induction captions as [|[name answer] captions IH]; intros n.
  - by intros ?%elem_of_nil.
  - cbn [move_captions]. intros [Hc|(_ & _ & Hc)]%bind_calls.
    + apply list_elem_of_singleton in Hc. eauto.
    + by apply IH in Hc.
Qed.

(** The calls of [materialize] begin with the creation of the two
    directories and the saving of the archive: the archive is opened only
    after these have succeeded. *)
Lemma materialize_extract (output_dir target : string) (a : answers) :
  ExtractAll ∈ (materialize output_dir target a).1 →
  mkdir_output a = None ∧ mkdir_captions a = None ∧ save_archive a = None
  ∧ ∃ rest, (materialize output_dir target a).1
            = MkdirOutput :: MkdirCaptions :: SaveArchive :: ExtractAll :: rest.
Proof.
  unfold materialize, organize, finally, bind, call, ask.
  destruct (mkdir_output a); cbn [fst snd]; [intros H; not_in H|].
  destruct (mkdir_captions a); cbn [fst snd]; [intros H; not_in H|].
  destruct (save_archive a); cbn [fst snd]; [intros H; not_in H|].
  intros _. split_and!; [done..|]. cbn [app].
  destruct (extract_all a); cbn [fst snd app]; eauto.
Qed.

Lemma materialize_bad_archive (output_dir target : string) (a : answers) (e : exn) :
  mkdir_output a = None → mkdir_captions a = None → save_archive a = None →
  extract_all a = Some e →
  materialize output_dir target a
  = ([MkdirOutput; MkdirCaptions; SaveArchive; ExtractAll; UnlinkTemp],
     match unlink_temp a with Some e' => inl e' | None => inl e end).
Proof.
  intros H1 H2 H3 H4. unfold materialize, organize, finally, bind, call, ask.
  rewrite H1, H2, H3, H4. cbn [fst snd app]. by destruct (unlink_temp a).
Qed.

(** X4. [download_result] makes no call on the file system unless the job
    has succeeded with an output location, an input and a destination and
    the archive has been fetched, and it asks for the archive only for a
    succeeded job with an output location.  The output directory and
    [captions/] are created, and the archive saved, before it is opened:
    when it cannot be opened or extracted both directories have been
    created all the same, nothing is renamed or removed in them, the
    temporary file is removed and the exception is raised. *)
Theorem download_guarded (training_id output_dir : string)
    (g : Lifecycle.get_response) (d : download_response) (a : answers) :
  let r := download_result training_id output_dir g d a in
  (fs_calls r ≠ [] →
     ∃ t url input_config dest,
       g = Lifecycle.GetOk t ∧ Lifecycle.status t = "succeeded"
       ∧ Lifecycle.output t = Some url ∧ url ≠ ""
       ∧ Lifecycle.input t = Some input_config ∧ Lifecycle.destination t = Some dest
       ∧ d = Fetched)
  ∧ (Lifecycle.Download ∈ calls r →
       ∃ t url, g = Lifecycle.GetOk t ∧ Lifecycle.status t = "succeeded"
         ∧ Lifecycle.output t = Some url ∧ url ≠ "")
  ∧ (∀ t, g = Lifecycle.GetOk t → Lifecycle.status t ≠ "succeeded" →
       returned r = inr None ∧ calls r = [Lifecycle.GetTraining] ∧ fs_calls r = [])
  ∧ (∀ t, g = Lifecycle.GetOk t →
       Lifecycle.output t = None ∨ Lifecycle.output t = Some "" →
       returned r = inr None ∧ calls r = [Lifecycle.GetTraining] ∧ fs_calls r = [])
  ∧ (ExtractAll ∈ fs_calls r →
       mkdir_output a = None ∧ mkdir_captions a = None ∧ save_archive a = None
       ∧ ∃ rest, fs_calls r = MkdirOutput :: MkdirCaptions :: SaveArchive :: ExtractAll :: rest)
  ∧ (∀ e, ExtractAll ∈ fs_calls r → extract_all a = Some e →
       fs_calls r = [MkdirOutput; MkdirCaptions; SaveArchive; ExtractAll; UnlinkTemp]
       ∧ (unlink_temp a = None → returned r = inl e)).
Proof.
  intros r. subst r.
  destruct (download_reaches training_id output_dir g d a)
    as [(t & url & input_config & dest & -> & Hst & Hout & Hurl & Hin & Hdest & ->)
       |[Hnone Hnot]].
  - rewrite (download_run training_id output_dir url dest t input_config a
               Hst Hout Hurl Hin Hdest).
    cbv zeta. cbn [fs_calls calls returned]. split_and!.
    + intros _. by exists t, url, input_config, dest.
    + intros _. by exists t, url.
    + intros ? [= <-] ?. done.
    + intros ? [= <-] [?|?]; congruence.
    + apply materialize_extract.
    + intros e (H1 & H2 & H3 & _)%materialize_extract H4.
      rewrite (materialize_bad_archive _ _ _ e H1 H2 H3 H4). cbn [fst snd].
      split; [done|]. by intros ->.
  - assert (Hd : Lifecycle.Download ∈ calls (download_result training_id output_dir g d a) →
                 ∃ t url, g = Lifecycle.GetOk t ∧ Lifecycle.status t = "succeeded"
                   ∧ Lifecycle.output t = Some url ∧ url ≠ "").
    { unfold download_result.
      destruct g as [t|msg|]; cbn [Lifecycle.get_training_status outcome];
        [|intros H; not_in H..].
      destruct (String.eqb (Lifecycle.status t) "succeeded") eqn:Est; cbn [negb];
        [|intros H; not_in H].
      apply String.eqb_eq in Est.
      destruct (Lifecycle.output t) as [[|c url]|] eqn:Eout;
        [intros H; not_in H| |intros H; not_in H].
      intros _. by exists t, (String c url). }
    split_and!; [done|done| | |by rewrite Hnone; intros ?%elem_of_nil
                |by rewrite Hnone; intros ? ?%elem_of_nil].
    + intros t -> Hst. unfold download_result.
      cbn [Lifecycle.get_training_status outcome].
      apply String.eqb_neq in Hst. by rewrite Hst.
    + intros t -> Hout. unfold download_result.
      cbn [Lifecycle.get_training_status outcome].
      destruct (String.eqb (Lifecycle.status t) "succeeded"); cbn [negb]; [|done].
      by destruct Hout as [-> | ->].
Qed.

Lemma organize_calls (output_dir target : string) (a : answers) (c : fs_call) :
  c ∈ (organize output_dir target a).1 →
  c ∈ [ExtractAll; Glob "*.safetensors"; Glob "*.txt"; Iterdir]
  ∨ (∃ original rest, safetensors_files a = inr (original :: rest)
       ∧ original ≠ target ∧ c = Rename original target)
  ∨ (∃ captions n, caption_files a = inr captions ∧ c ∈ (move_captions captions n).1)
  ∨ (∃ items, entries a = inr items ∧ c ∈ (cleanup items).1).
Proof.
  unfold organize.
  intros [Hc|(_ & _ & Hc)]%bind_calls.
  { apply list_elem_of_singleton in Hc as ->. left. left. }
  apply bind_calls in Hc as [Hc|(found & Hg & Hc)].
  { apply list_elem_of_singleton in Hc as ->. left. right. left. }
  cbn in Hg. destruct found as [|original rest]; [by apply elem_of_nil in Hc|].
  apply bind_calls in Hc as [Hc|(_ & _ & Hc)].
  { case_decide as Hne; [|by apply elem_of_nil in Hc].
    apply list_elem_of_singleton in Hc as ->. right. left. by exists original, rest. }
  apply bind_calls in Hc as [Hc|(captions & Hcf & Hc)].
  { apply list_elem_of_singleton in Hc as ->. left. right. right. left. }
  cbn in Hcf.
  apply bind_calls in Hc as [Hc|(_ & _ & Hc)].
  { right. right. left. by exists captions, 0. }
  apply bind_calls in Hc as [Hc|(items & Hi & Hc)].
  { apply list_elem_of_singleton in Hc as ->. left. right. right. right. left. }
  cbn in Hi.
  apply bind_calls in Hc as [Hc|(_ & _ & Hc)].
  { right. right. right. by exists items. }
  by apply elem_of_nil in Hc.
Qed.

Lemma materialize_calls (output_dir target : string) (a : answers) (c : fs_call) :
  c ∈ (materialize output_dir target a).1 →
  c ∈ [MkdirOutput; MkdirCaptions; SaveArchive; UnlinkTemp]
  ∨ c ∈ (organize output_dir target a).1.
Proof.
  unfold materialize.
  intros [Hc|(_ & _ & Hc)]%bind_calls.
  { apply list_elem_of_singleton in Hc as ->. left. left. }
  apply bind_calls in Hc as [Hc|(_ & _ & Hc)].
  { apply list_elem_of_singleton in Hc as ->. left. right. left. }
  apply bind_calls in Hc as [Hc|(_ & _ & Hc)].
  { apply list_elem_of_singleton in Hc as ->. left. right. right. left. }
  unfold finally in Hc. cbn [fst] in Hc. apply elem_of_app in Hc as [Hc|Hc]; [by right|].
  apply list_elem_of_singleton in Hc as ->. left. right. right. right. left.
Qed.

Lemma download_calls (training_id output_dir : string)
    (g : Lifecycle.get_response) (d : download_response) (a : answers) (c : fs_call) :
  c ∈ fs_calls (download_result training_id output_dir g d a) →
  ∃ target, c ∈ (materialize output_dir target a).1.
Proof.
  destruct (download_reaches training_id output_dir g d a)
    as [(t & url & input_config & dest & -> & Hst & Hout & Hurl & Hin & Hdest & ->)
       |[Hnone _]].
  - rewrite (download_run training_id output_dir url dest t input_config a
               Hst Hout Hurl Hin Hdest). cbv zeta. cbn [fs_calls]. eauto.
  - rewrite Hnone. by intros ?%elem_of_nil.
Qed.

Lemma download_path_inv (training_id output_dir : string)
    (g : Lifecycle.get_response) (d : download_response) (a : answers) (p : path) :
  returned (download_result training_id output_dir g d a) = inr (Some p) →
  ∃ t url input_config dest,
    g = Lifecycle.GetOk t ∧ Lifecycle.status t = "succeeded"
    ∧ Lifecycle.output t = Some url ∧ url ≠ ""
    ∧ Lifecycle.input t = Some input_config ∧ Lifecycle.destination t = Some dest
    ∧ d = Fetched
    ∧ let m := materialize output_dir
                 (new_filename (model_name dest)
                    (default "lora" (input_config !! "trigger_word"))) a in
      m.2 = inr (Some p)
      ∧ fs_calls (download_result training_id output_dir g d a) = m.1.
Proof.
  destruct (download_reaches training_id output_dir g d a)
    as [(t & url & input_config & dest & -> & Hst & Hout & Hurl & Hin & Hdest & ->)
       |[_ Hnot]].
  - rewrite (download_run training_id output_dir url dest t input_config a
               Hst Hout Hurl Hin Hdest). cbv zeta. cbn [fs_calls returned].
    intros H. exists t, url, input_config, dest. by split_and!.
  - intros H. by apply Hnot in H.
Qed.

Lemma materialize_glob_txt (output_dir target : string) (a : answers) :
  Glob "*.txt" ∈ (materialize output_dir target a).1 →
  extracted a
  ∧ ∃ original rest, safetensors_files a = inr (original :: rest)
      ∧ (original ≠ target → rename_model a = None).
Proof.
  unfold materialize. intros H.
  apply bind_calls in H as [H|([] & H1%call_inr & H)]; [not_in H|].
  apply bind_calls in H as [H|([] & H2%call_inr & H)]; [not_in H|].
  apply bind_calls in H as [H|([] & H3%call_inr & H)]; [not_in H|].
  unfold finally in H. cbn [fst] in H. apply elem_of_app in H as [H|H]; [|not_in H].
  unfold organize in H.
  apply bind_calls in H as [H|([] & H4%call_inr & H)]; [not_in H|].
  apply bind_calls in H as [H|(found & Hg & H)]; [not_in H|]. cbn in Hg.
  destruct found as [|original rest]; [by apply elem_of_nil in H|].
  apply bind_calls in H as [H|([] & Hr & _)]; [case_decide; not_in H|].
  split; [done|]. exists original, rest. split; [done|]. intros Hne.
  rewrite decide_True in Hr by done. by apply call_inr in Hr.
Qed.

Lemma materialize_caption_refused (output_dir target : string) (a : answers)
    (original : string) (rest : list string)
    (moved others : list (string * option exn)) (name : string) (e : exn) :
  extracted a → safetensors_files a = inr (original :: rest) →
  (original ≠ target → rename_model a = None) →
  caption_files a = inr (moved ++ (name, Some e) :: others) →
  Forall (λ c, c.2 = None) moved →
  materialize output_dir target a
  = ([MkdirOutput; MkdirCaptions; SaveArchive; ExtractAll; Glob "*.safetensors"]
     ++ (if decide (original ≠ target) then [Rename original target] else [])
     ++ Glob "*.txt" :: (caption_rename <$> (moved ++ [(name, Some e)])) ++ [UnlinkTemp],
     match unlink_temp a with Some e' => inl e' | None => inl e end).
Proof.
  intros (H1 & H2 & H3 & H4) Hg Hr Hc Hmoved.
  unfold materialize, organize, finally, bind, call, ask.
  rewrite H1, H2, H3, H4, Hg, Hc. cbn [fst snd app].
  rewrite (move_captions_stops moved others name e 0 Hmoved). cbn [fst snd].
  destruct (decide (original ≠ target)) as [Hne|Heq].
  - rewrite (Hr Hne). cbn [fst snd app ret]. by destruct (unlink_temp a).
  - cbn [fst snd app ret]. by destruct (unlink_temp a).
Qed.

(** X5. When [download_result] returns a path, every name that
    [glob('*.txt')] has yielded in the output directory has been renamed
    to the same name under [captions/], in the order of the listing, after
    at most one rename of a weights file, and nothing else has been
    renamed.  Whatever the outcome, every rename is that of a caption or
    that of the first weights file to the target.  The loop stops at the
    first caption whose rename is refused: the captions before it have
    been moved, nothing is removed, and the exception is raised. *)
Theorem captions_relocated (training_id output_dir : string)
    (g : Lifecycle.get_response) (d : download_response) (a : answers) :
  let r := download_result training_id output_dir g d a in
  (∀ p, returned r = inr (Some p) →
     ∃ weights captions, captions_moved a captions ∧ length weights ≤ 1
       ∧ renames (fs_calls r)
         = weights ++ ((λ c, (c.1, "captions/" +:+ c.1)) <$> captions))
  ∧ (∀ src dst, Rename src dst ∈ fs_calls r →
       dst = "captions/" +:+ src
       ∨ ∃ rest, safetensors_files a = inr (src :: rest) ∧ src ≠ dst)
  ∧ (∀ moved name e rest,
       caption_files a = inr (moved ++ (name, Some e) :: rest) →
       Forall (λ c, c.2 = None) moved →
       Glob "*.txt" ∈ fs_calls r →
       ∃ weights, length weights ≤ 1
         ∧ renames (fs_calls r)
           = weights ++ ((λ c, (c.1, "captions/" +:+ c.1)) <$> moved)
             ++ [(name, "captions/" +:+ name)]
         ∧ unlinks (fs_calls r) = []
         ∧ (unlink_temp a = None → returned r = inl e)).
Proof.
  intros r. subst r. split_and!.
  - intros p (t & url & input_config & dest & _ & _ & _ & _ & _ & _ & _ & Hm & ->)%download_path_inv.
    apply materialize_path in Hm
      as (He & (original & rest & Hg & Hr) & (captions & Hc) & (items & Hi) & Hu & _).
    rewrite (materialize_ok _ _ a original rest captions items He Hg Hr Hc Hi).
    cbn [fst]. rewrite renames_full by apply Hi.
    eexists _, captions. split; [done|]. split; [|reflexivity].
    case_decide; cbn; lia.
  - intros src dst [target Hc]%download_calls.
    apply materialize_calls in Hc as [Hc|Hc]; [not_in Hc|].
    apply organize_calls in Hc as [Hc|[Hc|[Hc|Hc]]].
    + not_in Hc.
    + destruct Hc as (original & rest & Hg & Hne & [= -> ->]). right. eauto.
    + destruct Hc as (captions & n & _ & [name [= -> ->]]%move_captions_calls). by left.
    + destruct Hc as (items & _ & [(item & _ & [=])|(item & _ & [=] & _)]%cleanup_calls).
  - intros moved name e rest Hcf Hmoved Hglob.
    destruct (download_reaches training_id output_dir g d a)
      as [(t & url & input_config & dest & -> & Hst & Hout & Hurl & Hin & Hdest & ->)
         |[Hnone _]]; [|rewrite Hnone in Hglob; by apply elem_of_nil in Hglob].
    revert Hglob.
    rewrite (download_run training_id output_dir url dest t input_config a
               Hst Hout Hurl Hin Hdest). cbv zeta. cbn [fs_calls returned].
    intros (He & original & found & Hg & Hr)%materialize_glob_txt.
    rewrite (materialize_caption_refused _ _ a original found moved rest name e
               He Hg Hr Hcf Hmoved).
    cbn [fst snd].
    rewrite !renames_app, !unlinks_app, (renames_cons (Glob "*.txt")),
      (unlinks_cons (Glob "*.txt")), renames_app, unlinks_app,
      renames_captions, unlinks_captions.
    change (renames [MkdirOutput; MkdirCaptions; SaveArchive; ExtractAll;
                     Glob "*.safetensors"]) with (@nil (string * string)).
    change (unlinks [MkdirOutput; MkdirCaptions; SaveArchive; ExtractAll;
                     Glob "*.safetensors"]) with (@nil string).
    change (renames [UnlinkTemp]) with (@nil (string * string)).
    change (unlinks [UnlinkTemp]) with (@nil string).
    cbn [app]. rewrite !app_nil_r, fmap_app.
    eexists. split; [|split; [reflexivity|]].
    + case_decide; cbn; lia.
    + split; [by case_decide|]. by intros ->.
Qed.

Lemma artifact_suffix (m t : string) : suffix (new_filename m t) = ".safetensors".
Proof. rewrite new_filename_stem. apply weights_suffix, stem_length. Qed.

(** X6. The clean-up of [download_result] removes only entries of the
    output directory for which [is_file] answers true, whose suffix is not
    [.safetensors] and whose name is neither [.env] nor [config.yaml]: the
    artifact it returns is never removed.  When the call returns a path,
    [unlink] has been called on exactly those entries of the listing, in
    its order, whatever [unlink] answered. *)
Theorem cleanup_leaves (training_id output_dir : string)
    (g : Lifecycle.get_response) (d : download_response) (a : answers) :
  let r := download_result training_id output_dir g d a in
  (∀ name, Unlink name ∈ fs_calls r →
     suffix name ≠ ".safetensors" ∧ name ≠ ".env" ∧ name ≠ "config.yaml"
     ∧ ∃ items item, entries a = inr items ∧ item ∈ items
         ∧ entry_name item = name ∧ entry_is_file item = inr true)
  ∧ (∀ m t, Unlink (new_filename m t) ∉ fs_calls r)
  ∧ (∀ p, returned r = inr (Some p) →
       ∃ items, scanned a items
         ∧ unlinks (fs_calls r) = entry_name <$> List.filter disposable items).
Proof.
  intros r. subst r.
  assert (H1 : ∀ name,
            Unlink name ∈ fs_calls (download_result training_id output_dir g d a) →
            suffix name ≠ ".safetensors" ∧ name ≠ ".env" ∧ name ≠ "config.yaml"
            ∧ ∃ items item, entries a = inr items ∧ item ∈ items
                ∧ entry_name item = name ∧ entry_is_file item = inr true).
  { intros name [target Hc]%download_calls.
    apply materialize_calls in Hc as [Hc|Hc]; [not_in Hc|].
    apply organize_calls in Hc as [Hc|[Hc|[Hc|Hc]]].
    - not_in Hc.
    - by destruct Hc as (? & ? & _ & _ & [=]).
    - by destruct Hc as (? & ? & _ & [? [=]]%move_captions_calls).
    - destruct Hc as (items & Hi & [(item & _ & [=])|(item & Hin & [= ->] & Hd)]%cleanup_calls).
      unfold disposable in Hd.
      apply andb_true_iff in Hd as [[Hf Hs]%andb_true_iff Hp].
      apply negb_true_iff, bool_decide_eq_false in Hs, Hp.
      split_and!.
      + intros E. apply Hs. rewrite E. left.
      + intros E. apply Hp. rewrite E. left.
      + intros E. apply Hp. rewrite E. right. left.
      + exists items, item. split_and!; [done..|].
        by destruct (entry_is_file item) as [?|[|]]. }
  split_and!.
  - exact H1.
  - intros m t [Hs _]%H1. by rewrite artifact_suffix in Hs.
  - intros p (t & url & input_config & dest & _ & _ & _ & _ & _ & _ & _ & Hm & ->)%download_path_inv.
    apply materialize_path in Hm
      as (He & (original & rest & Hg & Hr) & (captions & Hc) & (items & Hi) & Hu & _).
    rewrite (materialize_ok _ _ a original rest captions items He Hg Hr Hc Hi).
    cbn [fst]. exists items. split; [done|]. apply unlinks_full, Hi.
Qed.

End MaterializerMore.


(** ** Parameter validation and helpers: properties *)

Module ConfigSpec.

Import Py PyFacts Config.

Lemma concat_split (s : string) (c : ascii) : String.concat (String c "") (split s c) = s.
Proof.
induction s as [|a s IH]; [done|].
cbn [split]. pose proof (split_nonempty s c) as Hne.
destruct (Ascii.eqb a c) eqn:E.
- apply Ascii.eqb_eq in E as ->.
destruct (split s c) as [|h t] eqn:Es; [done|].
change (String.concat (String c "") ("" :: h :: t))
  with ("" +:+ String c "" +:+ String.concat (String c "") (h :: t)).
by rewrite IH.
- destruct (split s c) as [|h t] eqn:Es; [done|].
destruct t as [|h' t].
+ cbn in *. by rewrite IH.
+ change (String.concat (String c "") (String a h :: h' :: t))
    with (String a (h +:+ String c "" +:+ String.concat (String c "") (h' :: t))).
  f_equal. exact IH.
Qed.

(** A string splits in two at [c] exactly when it has exactly one [c]. *)
Lemma split_two (v : string) (c : ascii) :
length (split v c) = 2 ↔
∃ a b, v = a +:+ String c b
     ∧ contains (String c "") a = false ∧ contains (String c "") b = false.
Proof.
split.
- intros Hlen. pose proof (split_parts v c) as Hparts.
pose proof (concat_split v c) as Hcat.
destruct (split v c) as [|a [|b [|? ?]]]; try discriminate.
apply Forall_cons in Hparts as [Ha [Hb _]%Forall_cons].
exists a, b. split_and!; [|done..]. by rewrite <- Hcat.
- intros (a & b & -> & Ha & Hb).
by rewrite split_app_sep, (split_no_sep _ _ Ha), (split_no_sep _ _ Hb).
Qed.

Lemma contains_sep_one (a b : string) (c : ascii) :
contains (String c "") (a +:+ String c b) = true.
Proof.
rewrite contains_char_app, contains_char_cons, Ascii.eqb_refl. apply orb_true_r.
Qed.

Lemma destination_accepted (v : string) :
validate_destination v = inr v ↔
∃ owner name, v = owner +:+ "/" +:+ name
 ∧ contains "/" owner = false ∧ contains "/" name = false
 ∧ strip owner ≠ "" ∧ strip name ≠ "".
Proof.
unfold validate_destination. split.
- destruct (contains "/" v) eqn:Ec; [|done]. cbn [negb].
destruct (length (split v "/") =? 2)%nat eqn:El; [|done]. cbn [negb orb].
destruct (all_nonblank (split v "/")) eqn:Ea; [|done]. intros _.
apply Nat.eqb_eq in El. pose proof El as Hl.
apply split_two in El as (a & b & -> & Ha & Hb).
rewrite split_app_sep, (split_no_sep _ _ Ha), (split_no_sep _ _ Hb) in Ea.
cbn in Ea. apply andb_true_iff in Ea as [E1 [E2 _]%andb_true_iff].
apply negb_true_iff, String.eqb_neq in E1, E2.
exists a, b. by split_and!.
- intros (a & b & -> & Ha & Hb & Hsa & Hsb).
change ("/" +:+ b) with (String "/" b).
rewrite contains_sep_one. cbn [negb].
rewrite split_app_sep, (split_no_sep _ _ Ha), (split_no_sep _ _ Hb).
apply String.eqb_neq in Hsa, Hsb. cbn. by rewrite Hsa, Hsb.
Qed.

(** X7. [validate_destination] accepts exactly the strings
[owner/name] with a single separator and neither part blank, and
returns them unchanged; every rejection carries the same message.  For
an accepted destination the model name that [download_result] uses is
the [name] part.  The check of the interactive prompt is weaker: it
also lets through a destination with a blank part, which the
validator then rejects. *)
Theorem destination_format (v : string) :
ascii_only v →
(validate_destination v = inr v ↔
 ∃ owner name, v = owner +:+ "/" +:+ name
    ∧ contains "/" owner = false ∧ contains "/" name = false
    ∧ strip owner ≠ "" ∧ strip name ≠ "")
∧ (∀ r, validate_destination v = inr r → r = v)
∧ (∀ e, validate_destination v = inl e → e = ValueError destination_message)
∧ (validate_destination v = inr v →
   ∃ owner name, v = owner +:+ "/" +:+ name ∧ Materializer.model_name v = name
                 ∧ strip name ≠ "")
∧ (interactive_destination_ok v = true ↔
   ∃ owner name, v = owner +:+ "/" +:+ name
      ∧ contains "/" owner = false ∧ contains "/" name = false)
∧ (validate_destination v = inr v → interactive_destination_ok v = true)
∧ (∀ owner, ascii_only owner → contains "/" owner = false →
   interactive_destination_ok (owner +:+ "/") = true
   ∧ validate_destination (owner +:+ "/") = inl (ValueError destination_message)).
Proof.
intros _. split_and!.
- apply destination_accepted.
- unfold validate_destination. intros r.
repeat (case_match; try done). by intros [= <-].
- unfold validate_destination. intros e.
repeat (case_match; try done); by intros [= <-].
- intros (owner & name & -> & Ho & Hn & _ & Hsn)%destination_accepted.
exists owner, name. split_and!; [done| |done].
by apply MaterializerSpec.model_name_trailing.
- unfold interactive_destination_ok. rewrite andb_true_iff, Nat.eqb_eq, split_two.
split; [by intros [_ ?]|]. intros (a & b & -> & Ha & Hb).
split; [apply contains_sep_one|eauto].
- intros (owner & name & -> & Ho & Hn & _)%destination_accepted.
unfold interactive_destination_ok.
change ("/" +:+ name) with (String "/" name).
by rewrite contains_sep_one, split_app_sep,
  (split_no_sep _ _ Ho), (split_no_sep _ _ Hn).
- intros owner _ Ho. unfold interactive_destination_ok, validate_destination.
change ("/" : string) with (String "/" "").
rewrite contains_sep_one, split_app_sep, (split_no_sep _ _ Ho). cbn.
by rewrite andb_false_r.
Qed.

Lemma destination_format_witness :
validate_destination "alice/my-model" = inr "alice/my-model"
∧ Materializer.model_name "alice/my-model" = "my-model"
∧ interactive_destination_ok "alice/" = true
∧ validate_destination "alice/" = inl (ValueError destination_message).
Proof.
destruct (destination_format "alice/my-model") as (H1 & _ & _ & H2 & _);
[by vm_compute|].
destruct (destination_format "alice/") as (_ & _ & _ & _ & _ & _ & H3);
[by vm_compute|].
assert (Hok : validate_destination "alice/my-model" = inr "alice/my-model").
{ apply H1. exists "alice", "my-model". by vm_compute. }
destruct (H3 "alice") as [H4 H5]; [by vm_compute..|].
split_and!; [exact Hok| |exact H4|exact H5].
destruct (H2 Hok) as (owner & name & Hv & Hm & _). by vm_compute.
Defined.

Lemma lstrip_head (s r : string) (c : ascii) :
lstrip s = String c r → is_space c = false.
Proof.
induction s as [|a s IH]; [done|]. cbn.
destruct (is_space a) eqn:E; [done|]. by intros [= <- _].
Qed.

Lemma rstrip_keep (c : ascii) (s : string) :
is_space c = false → rstrip (String c s) = String c (rstrip s).
Proof. intros Hc. cbn. rewrite Hc. by destruct (rstrip s). Qed.

Lemma rstrip_cons (c d : ascii) (s r : string) :
rstrip s = String d r → rstrip (String c s) = String c (String d r).
Proof. intros E. cbn. by rewrite E. Qed.

Lemma rstrip_idemp (s : string) : rstrip (rstrip s) = rstrip s.
Proof.
induction s as [|c s IH]; [done|].
destruct (rstrip s) as [|d r] eqn:E.
- cbn [rstrip]. rewrite E. destruct (is_space c) eqn:Ec; [done|]. cbn. by rewrite Ec.
- rewrite (rstrip_cons c d s r E). by apply rstrip_cons.
Qed.

Lemma strip_idemp (s : string) : strip (strip s) = strip s.
Proof.
unfold strip. destruct (lstrip s) as [|c x] eqn:E; [done|].
pose proof (lstrip_head _ _ _ E) as Hc.
rewrite (rstrip_keep _ _ Hc). cbn [lstrip]. rewrite Hc.
rewrite <- (rstrip_keep _ _ Hc). apply rstrip_idemp.
Qed.

(** X8. An accepted trigger word is returned stripped: it has no
surrounding whitespace and at least two characters, and the lowered
input is not a common word.  The common-word test looks at the input
before stripping: a common word is rejected as it stands but accepted,
and returned, when it comes with a leading space. *)
Theorem trigger_word_accepted :
(∀ v t, ascii_only v → validate_trigger_word v = inr t →
 t = strip v ∧ 2 ≤ String.length t ∧ strip t = t ∧ lower v ∉ common_words)
∧ (∀ w, w ∈ common_words →
   (∃ e, validate_trigger_word w = inl e)
   ∧ validate_trigger_word (" " +:+ w) = inr w).
Proof.
split.
- intros v t _. unfold validate_trigger_word.
case_bool_decide as Hc; [done|].
destruct (String.length (strip v) <? 2)%nat eqn:El; [done|].
intros [= <-]. apply Nat.ltb_ge in El.
split_and!; [done|done|apply strip_idemp|done].
- intros w Hw. unfold common_words in Hw.
repeat (apply elem_of_union in Hw as [Hw|Hw]);
  apply elem_of_singleton in Hw as ->; (split; [eexists|]); by vm_compute.
Qed.

Lemma trigger_word_accepted_witness :
validate_trigger_word "  ZXQ " = inr "ZXQ" ∧ validate_trigger_word " dog" = inr "dog".
Proof.
destruct trigger_word_accepted as [H1 H2]. split.
- destruct (H1 "  ZXQ " "ZXQ") as (-> & _); [by vm_compute..|]. by vm_compute.
- apply (H2 "dog"). refine (bool_decide_unpack _ _). vm_compute. exact I.
Defined.

(** X9. [validate_api_token] returns a token exactly when that token
starts with [r8_] and is either the non-empty argument or, the argument
being absent or empty, the value of the environment; what it returns
always starts with [r8_].  A non-empty argument of the wrong format is
an error whatever the environment holds. *)
Theorem api_token_accepted (token env : option string) :
(∀ t, validate_api_token token env = inr t ↔
    startswith t "r8_" = true
    ∧ (token = Some t ∨ (truthy token = false ∧ env = Some t)))
∧ (∀ bad, token = Some bad → bad ≠ "" → startswith bad "r8_" = false →
   ∃ msg, validate_api_token token env = inl (ValueError msg))
∧ (truthy token = false → truthy env = false →
   ∃ msg, validate_api_token token env = inl (ValueError msg)).
Proof.
assert (Hne : ∀ t, startswith t "r8_" = true → t ≠ "") by (by intros [|? ?]).
split_and!.
- intros t. unfold validate_api_token. split.
+ destruct token as [[|c tk]|], env as [[|d ev]|]; cbn [truthy negb];
    try done; (destruct (startswith _ "r8_") eqn:E; [|done]);
    intros [= <-]; (split; [done|]); auto.
+ intros [Hs [->|[Ht ->]]].
  * destruct t as [|c t]; [done|]. cbn [truthy negb]. by rewrite Hs.
  * rewrite Ht. cbn [negb]. destruct t as [|c t]; [done|]. by rewrite Hs.
- intros bad -> Hbad Hs. unfold validate_api_token.
destruct bad as [|c b]; [done|]. cbn [truthy negb]. rewrite Hs. by eexists.
- intros Ht He. unfold validate_api_token. rewrite Ht. cbn [negb].
destruct env as [[|d ev]|]; [by eexists|done|by eexists].
Qed.

End ConfigSpec.

Module UtilsSpec.

Import Py PyFacts Utils.

Lemma unseparated_cons (c : ascii) (s : string) :
replace (replace (String c s) "-" "") "_" ""
= if is_id_separator c then replace (replace s "-" "") "_" ""
else String c (replace (replace s "-" "") "_" "").
Proof.
unfold is_id_separator. cbn [replace].
destruct (Ascii.eqb c "-") eqn:E1; [done|]. cbn [replace orb].
by destruct (Ascii.eqb c "_").
Qed.

Lemma unseparated_alnum (s : string) :
all_chars is_alnum_char (replace (replace s "-" "") "_" "") = all_chars is_id_char s.
Proof.
induction s as [|c s IH]; [done|].
rewrite unseparated_cons. cbn [all_chars]. unfold is_id_char at 1.
destruct (is_id_separator c) eqn:E.
- rewrite IH. unfold is_id_separator in E. rewrite <- orb_assoc, E. by rewrite orb_true_r.
- cbn [all_chars]. rewrite IH. unfold is_id_separator in E.
rewrite <- orb_assoc, E. by rewrite orb_false_r.
Qed.

Lemma unseparated_empty (s : string) :
String.eqb (replace (replace s "-" "") "_" "") "" = all_chars is_id_separator s.
Proof.
induction s as [|c s IH]; [done|].
rewrite unseparated_cons. cbn [all_chars].
by destruct (is_id_separator c).
Qed.

(** X10. [validate_training_id] accepts an identifier exactly when it has
at least eight characters, all of them letters, digits, [-] or [_], and
at least one of them a letter or digit: an identifier made of
separators only is rejected. *)
Theorem training_id_accepted (training_id : string) :
ascii_only training_id →
(validate_training_id training_id = inr tt ↔
 8 ≤ String.length training_id
 ∧ all_chars is_id_char training_id = true
 ∧ all_chars is_id_separator training_id = false)
∧ (all_chars is_id_separator training_id = true →
   ∃ msg, validate_training_id training_id = inl (ValueError msg)).
Proof.
intros _. unfold validate_training_id, isalnum.
rewrite unseparated_alnum, unseparated_empty.
destruct (String.eqb training_id "") eqn:E0.
{ apply String.eqb_eq in E0 as ->. split; [|by eexists]. split; [done|]. cbn. lia. }
destruct (String.length training_id <? 8)%nat eqn:E8.
{ apply Nat.ltb_lt in E8. split; [|by eexists]. split; [done|]. lia. }
apply Nat.ltb_ge in E8.
destruct (all_chars is_id_separator training_id) eqn:Es; cbn [negb andb].
- split; [|by eexists]. split; [done|]. by intros (_ & _ & ?).
- destruct (all_chars is_id_char training_id) eqn:Ei; cbn [negb].
+ split; [|done]. by split.
+ split; [|done]. split; [done|]. by intros (_ & ? & _).
Qed.

Lemma training_id_accepted_witness :
validate_training_id "abc-def_123" = inr tt
∧ ∃ msg, validate_training_id "--------" = inl (ValueError msg).
Proof.
destruct (training_id_accepted "abc-def_123") as [H1 _]; [by vm_compute|].
destruct (training_id_accepted "--------") as [_ H2]; [by vm_compute|].
split.
- apply H1. split_and!; [cbn; lia|by vm_compute|by vm_compute].
- apply H2. by vm_compute.
Defined.

Lemma length_prefix (s : string) (k : nat) :
String.length (String.substring 0 k s) = min k (String.length s).
Proof.
revert k. induction s as [|c s IH]; intros [|k]; cbn; [done..|]. by rewrite IH.
Qed.

(** X11. On ASCII text, [truncate_string] returns a text that fits
unchanged; for a limit of at least 3 a longer text is cut to its first
[max_length - 3] characters followed by three dots, so the result has
exactly [max_length] characters and never more than the limit.  For a
limit below 3 the result of cutting is longer than the limit. *)
Theorem truncate_string_length (text : string) (max_length : Z) :
ascii_only text →
((Z.of_nat (String.length text) ≤ max_length)%Z →
 truncate_string text max_length = text)
∧ ((3 ≤ max_length < Z.of_nat (String.length text))%Z →
 truncate_string text max_length
 = String.substring 0 (Z.to_nat (max_length - 3)) text +:+ "..."
 ∧ Z.of_nat (String.length (truncate_string text max_length)) = max_length)
∧ ((3 ≤ max_length)%Z →
 (Z.of_nat (String.length (truncate_string text max_length)) ≤ max_length)%Z)
∧ ((max_length < 3)%Z → (max_length < Z.of_nat (String.length text))%Z →
 (max_length < Z.of_nat (String.length (truncate_string text max_length)))%Z).
Proof.
intros _.
assert (Hcut : (3 ≤ max_length < Z.of_nat (String.length text))%Z →
 truncate_string text max_length
 = String.substring 0 (Z.to_nat (max_length - 3)) text +:+ "..."
 ∧ Z.of_nat (String.length (truncate_string text max_length)) = max_length).
{ intros [H3 Hlt]. unfold truncate_string, slice_stop.
replace (Z.of_nat (String.length text) <=? max_length)%Z with false
  by (symmetry; apply Z.leb_gt; lia).
replace (max_length - 3 <? 0)%Z with false by (symmetry; apply Z.ltb_ge; lia).
rewrite Z.min_l by lia. split; [done|].
rewrite length_app_str, length_prefix. cbn [String.length]. lia. }
split_and!; [|done| |].
- intros Hle. unfold truncate_string.
by replace (Z.of_nat (String.length text) <=? max_length)%Z with true
  by (symmetry; apply Z.leb_le; lia).
- intros H3. destruct (Z.le_gt_cases (Z.of_nat (String.length text)) max_length) as [Hle|Hgt].
+ unfold truncate_string.
  replace (Z.of_nat (String.length text) <=? max_length)%Z with true
    by (symmetry; apply Z.leb_le; lia). done.
+ destruct Hcut as [_ ->]; lia.
- intros H3 Hlt. unfold truncate_string.
replace (Z.of_nat (String.length text) <=? max_length)%Z with false
  by (symmetry; apply Z.leb_gt; lia).
rewrite length_app_str. cbn [String.length]. lia.
Qed.

Lemma truncate_string_length_witness :
truncate_string "a long training identifier" 10 = "a long ..."
∧ truncate_string "abcdefghij" 2 = "abcdefghi...".
Proof.
destruct (truncate_string_length "a long training identifier" 10) as (_ & H & _);
[by vm_compute|].
destruct H as [H _]; [cbn; lia|]. split; [|by vm_compute].
rewrite H. by vm_compute.
Defined.

End UtilsSpec.


(** ** Configuration sources and listing: properties *)

Module SourcesSpec.

Import Py Sources.

Lemma lookup_without_none (c : gmap string value) (k : string) :
without_none c !! k = said (Some c) k.
Proof.
unfold without_none, said. destruct (c !! k) as [v|] eqn:E.
- destruct (decide (v = VNone)) as [->|Hv].
  + apply map_lookup_filter_None. right. intros v' Hv'. cbn.
    rewrite E in Hv'. injection Hv' as <-. by intros Hn.
  + transitivity (Some v); [|by destruct v].
    by apply map_lookup_filter_Some.
- apply map_lookup_filter_None. by left.
Qed.

Lemma lookup_update (merged other : gmap string value) (k : string) :
update merged other !! k
= match other !! k with Some v => Some v | None => merged !! k end.
Proof.
unfold update. rewrite lookup_union.
by destruct (other !! k), (merged !! k).
Qed.

Lemma merge_snoc (configs : list (option (gmap string value)))
  (x : option (gmap string value)) (k : string) :
merge_configs (configs ++ [x]) !! k
= match said x k with Some v => Some v | None => merge_configs configs !! k end.
Proof.
unfold merge_configs. rewrite foldl_app. cbn [foldl].
destruct x as [c|]; [|done]. case_decide as Hc.
- subst c. cbn. by rewrite lookup_empty.
- by rewrite lookup_update, lookup_without_none.
Qed.

Lemma said_not_none (x : option (gmap string value)) (k : string) (v : value) :
said x k = Some v → v ≠ VNone ∧ ∃ c, x = Some c ∧ c !! k = Some v.
Proof.
destruct x as [c|]; [|done]. cbn. destruct (c !! k) as [w|] eqn:E; [|done].
destruct w; intros [= <-]; (split; [done|]); eauto.
Qed.

Lemma said_some (c : gmap string value) (k : string) (v : value) :
c !! k = Some v → v ≠ VNone → said (Some c) k = Some v.
Proof. intros E Hv. cbn. rewrite E. by destruct v. Qed.

Lemma snoc_cases {A} (l : list A) : l = [] ∨ ∃ l' y, l = l' ++ [y].
Proof. induction l as [|y l _] using rev_ind; eauto. Qed.

(** X12. [merge_configs] gives a key the value of the last configuration
  that has it with a value other than [None]: later configurations
  override earlier ones, a [None] value or a missing key overrides
  nothing, [None] and empty configurations are skipped, and the result
  holds no [None]. *)
Theorem merge_configs_lookup (configs : list (option (gmap string value)))
  (k : string) (v : value) :
merge_configs configs !! k = Some v ↔
v ≠ VNone
∧ ∃ earlier c later, configs = earlier ++ Some c :: later
    ∧ c !! k = Some v
    ∧ Forall (λ c', said c' k = None) later.
Proof.
induction configs as [|x configs IH] using rev_ind.
- cbn. rewrite lookup_empty. split; [done|].
  intros (_ & earlier & c & later & E & _). by destruct earlier.
- rewrite merge_snoc. destruct (said x k) as [w|] eqn:Ex.
  + apply said_not_none in Ex as Hw. destruct Hw as (Hw & c & -> & Hc).
    split.
    * intros [= <-]. split; [done|]. exists configs, c, []. by split_and!.
    * intros (_ & earlier & c' & later & E & Hc' & Hl).
      destruct (snoc_cases later) as [->|(later' & y & ->)].
      -- apply app_inj_tail in E as [_ E]. injection E as <-. congruence.
      -- rewrite app_comm_cons, app_assoc in E. apply app_inj_tail in E as [_ <-].
         apply Forall_app in Hl as [_ Hy]. apply Forall_inv in Hy.
         congruence.
  + rewrite IH. split.
    * intros (Hv & earlier & c & later & -> & Hc & Hl). split; [done|].
      exists earlier, c, (later ++ [x]).
      rewrite <- app_assoc. split_and!; [done|done|].
      apply Forall_app. split; [done|]. by apply Forall_singleton.
    * intros (Hv & earlier & c & later & E & Hc & Hl). split; [done|].
      destruct (snoc_cases later) as [->|(later' & y & ->)].
      -- apply app_inj_tail in E as [_ ->]. by rewrite (said_some _ _ _ Hc Hv) in Ex.
      -- rewrite app_comm_cons, app_assoc in E. apply app_inj_tail in E as [-> _].
         apply Forall_app in Hl as [Hl _]. eauto 10.
Qed.

Lemma merge_configs_lookup_witness :
merge_configs [Some {[ "steps" := VInt 1500 ]}; None;
               Some {[ "steps" := VInt 1200; "resolution" := VNone ]};
               Some {[ "steps" := VNone ]}] !! "steps" = Some (VInt 1200).
Proof.
apply merge_configs_lookup. split; [done|].
exists [Some {[ "steps" := VInt 1500 ]}; None],
  {[ "steps" := VInt 1200; "resolution" := VNone ]}, [Some {[ "steps" := VNone ]}].
split_and!; [done|by vm_compute|]. repeat constructor.
Defined.

(** X13. In the dictionary that [create_config] validates, a command-line
  value other than [None] wins; otherwise the value of the configuration
  file wins, even when it is [None]; otherwise the preset's value stands.
  An unknown preset name is an error, and the names that load are
  beginner, experienced and fast. *)
Theorem create_config_priority (cli_args : gmap string value)
  (file : option (exn + gmap string value)) (preset : option string)
  (config_data : gmap string value) (k : string) :
create_config_data cli_args file preset = inr config_data →
let preset_data :=
  match preset with
  | None | Some EmptyString => ∅
  | Some name => match load_preset name with inr d => d | inl _ => ∅ end
  end in
(∀ v, cli_args !! k = Some v → v ≠ VNone → config_data !! k = Some v)
∧ (said (Some cli_args) k = None →
     ∀ file_data v, file = Some (inr file_data) → file_data !! k = Some v →
       config_data !! k = Some v)
∧ (said (Some cli_args) k = None →
     (file = None ∨ ∃ file_data, file = Some (inr file_data) ∧ file_data !! k = None) →
     config_data !! k = preset_data !! k)
∧ (∀ name, preset = Some name → name ≠ "" →
     name ∈ ["beginner"; "experienced"; "fast"]).
Proof.
intros Hok preset_data. unfold create_config_data in Hok.
assert (Hpre : ∃ d, match preset with
                    | None | Some EmptyString => inr ∅
                    | Some name => load_preset name
                    end = inr d ∧ preset_data = d).
{ subst preset_data. destruct preset as [[|c p]|]; [by eexists| |by eexists].
  destruct (load_preset (String c p)); [done|by eexists]. }
destruct Hpre as (d & Hd & ->). rewrite Hd in Hok.
split_and!.
- intros v Hv Hne. pose proof (said_some _ _ _ Hv Hne) as Hs.
  destruct file as [[e|f]|]; [done|..]; injection Hok as <-;
    by rewrite lookup_update, lookup_without_none, Hs.
- intros Hs f v -> Hv. injection Hok as <-.
  by rewrite lookup_update, lookup_without_none, Hs, lookup_update, Hv.
- intros Hs [->|(f & -> & Hf)]; injection Hok as <-.
  + by rewrite lookup_update, lookup_without_none, Hs.
  + by rewrite lookup_update, lookup_without_none, Hs, lookup_update, Hf.
- intros name -> Hname. destruct name as [|c p]; [done|].
  unfold load_preset in Hd.
  destruct ((list_to_map PRESETS : gmap string (gmap string value)) !! String c p)
    as [pd|] eqn:E; [|done].
  apply elem_of_list_to_map_2 in E. unfold PRESETS in E.
  repeat (apply elem_of_cons in E as [E|E];
          [apply (f_equal fst) in E; cbn in E; rewrite E; set_solver|]).
  by apply not_elem_of_nil in E.
Qed.

Lemma create_config_priority_witness :
let cli_args : gmap string value := {[ "steps" := VInt 1200; "batch_size" := VNone ]} in
let file_data : gmap string value := {[ "lora_rank" := VNone ]} in
let d := update (update (default ∅ (snd <$> PRESETS !! 2%nat)) file_data)
           (without_none cli_args) in
create_config_data cli_args (Some (inr file_data)) (Some "fast") = inr d
∧ d !! "steps" = Some (VInt 1200)
∧ d !! "lora_rank" = Some VNone
∧ d !! "batch_size" = Some (VInt 4).
Proof.
intros cli_args file_data d.
assert (Hd : create_config_data cli_args (Some (inr file_data)) (Some "fast") = inr d)
  by (vm_compute; reflexivity).
split; [exact Hd|].
destruct (create_config_priority _ _ _ _ "steps" Hd) as (H1 & _).
destruct (create_config_priority _ _ _ _ "lora_rank" Hd) as (_ & H2 & _).
destruct (create_config_priority _ _ _ _ "batch_size" Hd) as (_ & _ & H3 & _).
split_and!.
- apply H1; by vm_compute.
- apply (H2 ltac:(by vm_compute) file_data); by vm_compute.
- rewrite H3; [by vm_compute|by vm_compute|]. right. exists file_data.
  split; [done|]. by vm_compute.
Defined.

End SourcesSpec.

Module ListingSpec.

Import Py Listing.

(** X14. [list --limit n --status s] cuts the list to its first [n] jobs
  and only then keeps those with status [s]: what is shown is, in order,
  the jobs among the first [n] that have the status, so there are at
  most [n] rows and a job beyond the first [n] is never shown, however
  few rows there are.  A negative limit drops that many jobs from the
  end instead. *)
Theorem list_limit_then_filter (trainings : list summary) (limit : Z)
  (status_filter : string) :
status_filter ≠ "" →
let shown := List.filter (λ t, String.eqb (status t) status_filter)
               (slice_stop trainings limit) in
outcome (list_command (inr trainings) limit (Some status_filter)) = inr (inl shown)
∧ ((0 ≤ limit)%Z →
     shown = List.filter (λ t, String.eqb (status t) status_filter)
               (take (Z.to_nat limit) trainings)
     ∧ (Z.of_nat (length shown) ≤ limit)%Z
     ∧ ∀ t, t ∈ shown →
         status t = status_filter
         ∧ ∃ i, (Z.of_nat i < limit)%Z ∧ trainings !! i = Some t)
∧ ((limit < 0)%Z →
     slice_stop trainings limit
     = take (length trainings - Z.to_nat (- limit)) trainings)
∧ outcome (list_command (inr trainings) limit None)
  = inr (inl (slice_stop trainings limit)).
Proof.
intros Hne shown. split_and!.
- unfold list_command. cbn. by destruct status_filter.
- intros Hlim.
  assert (Hs : slice_stop trainings limit = take (Z.to_nat limit) trainings).
  { unfold slice_stop. replace (limit <? 0)%Z with false by (symmetry; apply Z.ltb_ge; lia).
    destruct (Z.le_gt_cases limit (Z.of_nat (length trainings))).
    - by rewrite Z.min_l by lia.
    - rewrite Z.min_r by lia. rewrite Nat2Z.id, !take_ge by lia. done. }
  subst shown. rewrite Hs. split_and!; [done| |].
  + pose proof (filter_length (λ t, String.eqb (status t) status_filter)
                  (take (Z.to_nat limit) trainings)) as Hf.
    rewrite length_take in Hf. lia.
  + intros t [Ht Hst]%list_elem_of_In%filter_In. apply String.eqb_eq in Hst.
    split; [done|]. apply list_elem_of_In, elem_of_take in Ht as (i & Hi & Hlt).
    exists i. split; [lia|done].
- intros Hlim. unfold slice_stop.
  replace (limit <? 0)%Z with true by (symmetry; apply Z.ltb_lt; lia).
  f_equal. lia.
- done.
Qed.

Lemma list_limit_then_filter_witness :
let job i st := Summary i st "" "" "" in
outcome (list_command
           (inr [job "a" "failed"; job "b" "succeeded"; job "c" "succeeded"])
           2 (Some "succeeded"))
= inr (inl [job "b" "succeeded"]).
Proof.
intros job.
apply (list_limit_then_filter
         [job "a" "failed"; job "b" "succeeded"; job "c" "succeeded"] 2 "succeeded").
discriminate.
Defined.

End ListingSpec.


(** ** Resolution, dataset URL and the [train] command: properties *)

Module PipelineSpec.

Import Py PyFacts Config Cli.

Local Ltac not_in H :=
  exfalso; cbn in H;
  repeat (apply elem_of_cons in H as [H|H]; [discriminate H|]);
  by apply elem_of_nil in H.

Local Ltac is_in :=
  cbn; repeat first [by apply list_elem_of_here | apply list_elem_of_further].

(** X15. For an ASCII string of at most 4300 characters,
    [validate_resolution] accepts exactly the strings [width,height] with a
    single comma whose two parts [int()] reads as integers between 512 and
    2048, the whitespace that [int()] skips around a number and single
    underscores between its digits included; it returns them unchanged, and
    every rejection carries the same message. *)
Theorem resolution_accepted (v : string) :
  ascii_only v → String.length v ≤ 4300 →
  (validate_resolution v = inr v ↔
     ∃ a b w h, v = a +:+ "," +:+ b
       ∧ contains "," a = false ∧ contains "," b = false
       ∧ int a = Some w ∧ int b = Some h
       ∧ (512 ≤ w ≤ 2048)%Z ∧ (512 ≤ h ≤ 2048)%Z)
  ∧ (∀ e, validate_resolution v = inl e → e = ValueError resolution_message)
  ∧ (∀ r, validate_resolution v = inr r → r = v).
Proof.
  intros _ _. split_and!.
  - unfold validate_resolution. split.
    + destruct (length (split v ",") =? 2)%nat eqn:El; [|done]. cbn [negb].
      apply Nat.eqb_eq in El. apply ConfigSpec.split_two in El as (a & b & -> & Ha & Hb).
      rewrite split_app_sep, (split_no_sep _ _ Ha), (split_no_sep _ _ Hb). cbn [app nth].
      destruct (int a) as [w|] eqn:Ew; [|done]. destruct (int b) as [h|] eqn:Eh; [|done].
      destruct ((w <? 512)%Z || (h <? 512)%Z || (2048 <? w)%Z || (2048 <? h)%Z) eqn:Eb; [done|].
      intros _. exists a, b, w, h. split_and!; try done; lia.
    + intros (a & b & w & h & -> & Ha & Hb & Ew & Eh & Hw & Hh).
      change ("," +:+ b) with (String "," b).
      rewrite split_app_sep, (split_no_sep _ _ Ha), (split_no_sep _ _ Hb).
      cbn [app nth length Nat.eqb negb]. rewrite Ew, Eh.
      replace ((w <? 512)%Z || (h <? 512)%Z || (2048 <? w)%Z || (2048 <? h)%Z)
        with false by lia. done.
  - unfold validate_resolution. intros e.
    repeat (case_match; try done); by intros [= <-].
  - unfold validate_resolution. intros r.
    repeat (case_match; try done); by intros [= <-].
Qed.

Lemma resolution_accepted_witness :
  validate_resolution " 768 , 1_024 " = inr " 768 , 1_024 ".
Proof.
  apply (resolution_accepted " 768 , 1_024 "); [by vm_compute|cbn; lia|].
  exists " 768 ", " 1_024 ", 768%Z, 1024%Z. split_and!; try (by vm_compute); lia.
Defined.

Section Url.

Variable repr : string → string.
Variable size_text : Z → option string.

(** X16. For an ASCII URL, an ASCII content type and an ASCII content
    length of at most 4300 characters, [validate_dataset_url] succeeds
    exactly when the [HEAD] request succeeds, the lowered content type
    contains [zip] or the lowered URL ends in [.zip], and the content
    length is absent, empty, or an integer [int()] can read and whose size
    in megabytes can be formed; a warning is printed exactly when that
    integer exceeds 500 MiB, and never stops the validation.  A content
    type such as [application/gzip] is enough to pass, whatever the URL. *)
Theorem dataset_url_accepted (url : string) (r : head_response) :
  ascii_only url →
  (∀ ct cl, r = HeadOk (Some ct) cl → ascii_only ct) →
  (∀ ct l, r = HeadOk ct (Some l) → ascii_only l ∧ String.length l ≤ 4300) →
  let res := validate_dataset_url repr size_text url r in
  (url_outcome res = inr true ↔
     ∃ ct cl, r = HeadOk ct cl
       ∧ (contains "zip" (lower (default "" ct)) = true ∨ endswith (lower url) ".zip" = true)
       ∧ (cl = None ∨ cl = Some ""
          ∨ ∃ l n, cl = Some l ∧ int l = Some n ∧ size_text n ≠ None))
  ∧ (url_printed res ≠ [] ↔
     url_outcome res = inr true
     ∧ ∃ ct l n, r = HeadOk ct (Some l) ∧ int l = Some n ∧ (524288000 < n)%Z)
  ∧ (∀ cl, r = HeadOk (Some "application/gzip") cl → cl = None →
       url_outcome res = inr true).
Proof.
  intros _ _ _ res. subst res. unfold validate_dataset_url.
  destruct r as [msg|ct cl]; cbv zeta.
  { split_and!; [split; [done|by intros (? & ? & [=] & _)]
                 |split; [done|by intros (_ & ? & ? & ? & [=] & _)]|done]. }
  destruct (negb (contains "zip" (lower (default "" ct)))
            && negb (endswith (lower url) ".zip")) eqn:Ez.
  { apply andb_true_iff in Ez as [E1%negb_true_iff E2%negb_true_iff].
    split_and!; cbn.
    - split; [done|]. intros (? & ? & [= <- <-] & [?|?] & _); congruence.
    - split; [done|]. by intros [[=] _].
    - intros ? [= -> ->]. by vm_compute in E1. }
  assert (Hzip : contains "zip" (lower (default "" ct)) = true
                 ∨ endswith (lower url) ".zip" = true).
  { apply andb_false_iff in Ez as [E%negb_false_iff|E%negb_false_iff]; auto. }
  destruct cl as [[|c l]|].
  - cbn. split_and!; [|split; [done|]|done].
    + split; [|done]. intros _. exists ct, (Some ""). auto.
    + intros (_ & ? & ? & ? & [= <- <-] & Hi & _). by vm_compute in Hi.
  - destruct (int (String c l)) as [n|] eqn:En.
    + destruct (size_text n) as [txt|] eqn:Et.
      * destruct (524288000 <? n)%Z eqn:Eb; cbn.
        -- apply Z.ltb_lt in Eb. split_and!; [|split; [|done]|done].
           ++ split; [|done]. intros _. exists ct, (Some (String c l)).
              split_and!; [done|done|]. right. right.
              exists (String c l), n. split_and!; [done|done|congruence].
           ++ intros _. split; [done|]. eauto 10.
        -- apply Z.ltb_ge in Eb. split_and!; [|split; [done|]|done].
           ++ split; [|done]. intros _. exists ct, (Some (String c l)).
              split_and!; [done|done|]. right. right.
              exists (String c l), n. split_and!; [done|done|congruence].
           ++ intros (_ & ? & ? & m & [= <- <-] & Hm & Hlt). rewrite En in Hm.
              injection Hm as <-. lia.
      * cbn. split_and!; [|split; [done|by intros [[=] _]]|by intros ? [= _ <-] ?].
        split; [done|].
        intros (? & ? & [= <- <-] & _ & [?|[?|(? & m & [= <-] & Hm & Hs)]]);
          [congruence..|]. rewrite En in Hm. injection Hm as <-. done.
    + cbn. split_and!; [|split; [done|by intros [[=] _]]|by intros ? [= _ <-] ?].
      split; [done|].
      intros (? & ? & [= <- <-] & _ & [?|[?|(? & ? & [= <-] & ? & _)]]);
        congruence.
  - cbn. split_and!; [|split; [done|by intros (_ & ? & ? & ? & [=] & _)]|done].
    split; [|done]. intros _. exists ct, None. auto.
Qed.

End Url.

Lemma dataset_url_accepted_witness :
  url_outcome (validate_dataset_url (λ s, s) (λ _, Some "572.2")
                 "https://host/data" (HeadOk (Some "application/GZIP") (Some "600000000")))
  = inr true.
Proof.
  refine (proj2 (proj1 (dataset_url_accepted (λ s, s) (λ _, Some "572.2")
                          "https://host/data"
                          (HeadOk (Some "application/GZIP") (Some "600000000")) _ _ _)) _).
  - by vm_compute.
  - intros ct cl [= <- _]. by vm_compute.
  - intros ct l [= _ <-]. split; [by vm_compute|cbn; lia].
  - exists (Some "application/GZIP"), (Some "600000000").
    split_and!; [done|by left; vm_compute|]. right. right.
    exists "600000000", 600000000%Z. split_and!; [done|by vm_compute|done].
Defined.

Section Train.

Variable training_config : Type.

(** X17. [train] asks the service to create a training only after both
    dataset checks, the configuration and the API token have passed, and
    never on a dry run; with [--wait] it calls [download_result] exactly
    when the monitor returns ["succeeded"].  A failed or canceled job exits
    with code 1, while a monitor that ends with ["error"] or
    ["monitoring_stopped"], and a download that returns no path, leave the
    exit code at 0. *)
Theorem train_gates
    (url_check structure_check : exn + bool) (config : exn + training_config)
    (env_token : option string) (dry_run wait : bool) (created : exn + string)
    (script : list Lifecycle.iteration) (download : exn + option Materializer.path)
    (e : ended) :
  train training_config url_check structure_check config env_token dry_run wait
        created script download = Some e →
  (CreateTraining ∈ stages e →
     (∃ b, url_check = inr b) ∧ (∃ b, structure_check = inr b) ∧ (∃ c, config = inr c)
     ∧ (∃ t, env_token = Some t ∧ startswith t "r8_" = true) ∧ dry_run = false)
  ∧ (DownloadResult ∈ stages e ↔
     CreateTraining ∈ stages e ∧ wait = true
     ∧ ∃ training_id, created = inr training_id ∧ training_id ≠ ""
         ∧ Lifecycle.result (Lifecycle.monitor_training training_id 30 script)
           = Some "succeeded")
  ∧ (∀ training_id final_status,
       Monitor ∈ stages e → created = inr training_id →
       Lifecycle.result (Lifecycle.monitor_training training_id 30 script)
         = Some final_status →
       (final_status = "failed" ∨ final_status = "canceled" → exit_code e = 1)
       ∧ (final_status = "error" ∨ final_status = "monitoring_stopped" →
            exit_code e = 0 ∧ DownloadResult ∉ stages e)
       ∧ (final_status = "succeeded" →
            exit_code e = match download with inl _ => 1 | inr _ => 0 end))
  ∧ (exit_code e = 0 ∨ exit_code e = 1).
Proof.
  unfold train. intros He.
  assert (early : ∀ l n, CreateTraining ∉ l → DownloadResult ∉ l → Monitor ∉ l →
            n = 0 ∨ n = 1 → Some (Ended l n) = Some e →
            (CreateTraining ∈ stages e →
               (∃ b, url_check = inr b) ∧ (∃ b, structure_check = inr b)
               ∧ (∃ c, config = inr c)
               ∧ (∃ t, env_token = Some t ∧ startswith t "r8_" = true) ∧ dry_run = false)
            ∧ (DownloadResult ∈ stages e ↔
               CreateTraining ∈ stages e ∧ wait = true
               ∧ ∃ training_id, created = inr training_id ∧ training_id ≠ ""
                   ∧ Lifecycle.result (Lifecycle.monitor_training training_id 30 script)
                     = Some "succeeded")
            ∧ (∀ training_id final_status,
                 Monitor ∈ stages e → created = inr training_id →
                 Lifecycle.result (Lifecycle.monitor_training training_id 30 script)
                   = Some final_status →
                 (final_status = "failed" ∨ final_status = "canceled" → exit_code e = 1)
                 ∧ (final_status = "error" ∨ final_status = "monitoring_stopped" →
                      exit_code e = 0 ∧ DownloadResult ∉ stages e)
                 ∧ (final_status = "succeeded" →
                      exit_code e = match download with inl _ => 1 | inr _ => 0 end))
            ∧ (exit_code e = 0 ∨ exit_code e = 1)).
  { intros l n H1 H2 H3 Hn [= <-]. cbn. split_and!; [done| |done|done].
    split; [done|]. by intros [? _]. }
  destruct url_check as [?|u];
    [refine (early _ _ _ _ _ _ He); [intros H; not_in H..|auto]|].
  destruct structure_check as [?|sc];
    [refine (early _ _ _ _ _ _ He); [intros H; not_in H..|auto]|].
  destruct config as [?|c];
    [refine (early _ _ _ _ _ _ He); [intros H; not_in H..|auto]|].
  destruct (validate_api_token None env_token) as [?|tok] eqn:Etok;
    [refine (early _ _ _ _ _ _ He); [intros H; not_in H..|auto]|].
  cbv zeta in He.
  destruct dry_run;
    [refine (early _ _ _ _ _ _ He); [intros H; not_in H..|auto]|].
  clear early.
  assert (Htok : ∃ t, env_token = Some t ∧ startswith t "r8_" = true).
  { unfold validate_api_token in Etok. cbn [truthy negb] in Etok.
    destruct env_token as [[|a t]|]; [done| |done].
    destruct (startswith (String a t) "r8_") eqn:E; [eauto|done]. }
  assert (Hpre : (∃ b : bool, @inr exn bool u = inr b)
                 ∧ (∃ b : bool, @inr exn bool sc = inr b)
                 ∧ (∃ c' : training_config, @inr exn _ c = inr c')
                 ∧ (∃ t, env_token = Some t ∧ startswith t "r8_" = true)
                 ∧ false = false) by (split_and!; eauto).
  destruct created as [?|[|ch tid]].
  - injection He as <-. cbn [stages exit_code app]. split_and!; [done| |intros ? ? H; not_in H|auto].
    split; [intros H; not_in H|]. by intros (_ & _ & ? & [=] & _).
  - injection He as <-. cbn [stages exit_code app]. split_and!; [done| |intros ? ? H; not_in H|auto].
    split; [intros H; not_in H|]. by intros (_ & _ & ? & [= <-] & ? & _).
  - destruct wait; cbn [negb] in He.
    2:{ injection He as <-. cbn [stages exit_code app]. split_and!; [done| |intros ? ? H; not_in H|auto].
        split; [intros H; not_in H|]. by intros (_ & ? & _). }
    destruct (Lifecycle.result (Lifecycle.monitor_training (String ch tid) 30 script))
      as [st|] eqn:Est; [|done].
    destruct (String.eqb st "succeeded") eqn:E1.
    { apply String.eqb_eq in E1 as ->.
      assert (Hst : ∀ x : nat,
                (∀ training_id final_status, @inr exn _ (String ch tid) = inr training_id →
                 Lifecycle.result (Lifecycle.monitor_training training_id 30 script)
                   = Some final_status →
                 (final_status = "failed" ∨ final_status = "canceled" → x = 1)
                 ∧ (final_status = "error" ∨ final_status = "monitoring_stopped" →
                      x = 0 ∧ DownloadResult ∉
                        [CheckUrl; CheckStructure; CreateConfig; CreateManager;
                         CreateTraining; Monitor; DownloadResult])
                 ∧ (final_status = "succeeded" → x = x))).
      { intros x ? ? [= <-] Hst. rewrite Est in Hst. injection Hst as <-.
        split_and!; [by intros [?|?]|by intros [?|?]|done]. }
      destruct download as [?|dl]; injection He as <-; cbn [stages exit_code app]; split_and!;
        [done| |intros ? ? _; apply Hst|auto|done| |intros ? ? _; apply Hst|auto].
      all: split; [intros _; split_and!; [is_in|done|]|intros _; is_in].
      all: by exists (String ch tid). }
    apply String.eqb_neq in E1.
    destruct (String.eqb st "failed" || String.eqb st "canceled") eqn:E2;
      injection He as <-; cbn [stages exit_code app]; (split_and!; [done| | |auto]).
    + split; [intros H; not_in H|]. intros (_ & _ & ? & [= <-] & _ & Hst).
      rewrite Est in Hst. by injection Hst.
    + intros ? ? _ [= <-] Hst. rewrite Est in Hst. injection Hst as <-.
      apply orb_true_iff in E2. split_and!; [done| |done].
      intros [-> | ->]; by destruct E2.
    + split; [intros H; not_in H|]. intros (_ & _ & ? & [= <-] & _ & Hst).
      rewrite Est in Hst. by injection Hst.
    + intros ? ? _ [= <-] Hst. rewrite Est in Hst. injection Hst as <-.
      apply orb_false_iff in E2 as [F1%String.eqb_neq F2%String.eqb_neq].
      split_and!; [by intros [?|?]| |done]. intros _. split; [done|].
      intros H; not_in H.
Qed.

End Train.

(** A run whose second status call fails: the monitor returns ["error"],
    nothing is downloaded and the exit code is 0. *)
Lemma train_gates_witness :
  let e := Ended [CheckUrl; CheckStructure; CreateConfig; CreateManager;
                  CreateTraining; Monitor] 0 in
  exit_code e = 0 ∧ DownloadResult ∉ stages e.
Proof.
  refine (proj1 (proj2 (proj1 (proj2 (proj2
            (train_gates unit (inr true) (inr true) (inr tt) (Some "r8_token") false true
               (inr "job12345")
               [Lifecycle.answer "starting";
                Lifecycle.Iteration (Lifecycle.GetFails "timeout") Lifecycle.Slept]
               (inr None)
               (Ended [CheckUrl; CheckStructure; CreateConfig; CreateManager;
                       CreateTraining; Monitor] 0)
               _))) "job12345" "error" _ eq_refl _)) (or_introl eq_refl)).
  - by vm_compute.
  - is_in.
  - by vm_compute.
Defined.

End PipelineSpec.

(** ** Configuration files: properties *)

Module ConfigFileSpec.

Import Py Sources ConfigFile.

Lemma lookup_first {A} (l : list (string * A)) (k : string) (x : A) :
  (list_to_map l : gmap string A) !! k = Some x ↔
  ∃ l1 l2, l = l1 ++ (k, x) :: l2 ∧ k ∉ l1.*1.
Proof.
  induction l as [|[k' x'] l IH].
  - split; [done|]. by intros ([|? ?] & ? & ? & _).
  - rewrite list_to_map_cons, lookup_insert_Some, IH. split.
    + intros [[-> ->]|[Hne (l1 & l2 & -> & Hk)]].
      * exists [], l. split; [done|]. apply not_elem_of_nil.
      * exists ((k', x') :: l1), l2. split; [done|].
        cbn. by intros [?|?]%elem_of_cons.
    + intros ([|[k0 x0] l1] & l2 & Heq & Hk).
      * injection Heq as -> -> ->. by left.
      * injection Heq as -> -> ->. right. cbn in Hk.
        apply not_elem_of_cons in Hk as [Hne Hk]. split; [done|]. by exists l1, l2.
Qed.

Lemma lookup_last {A} (l : list (string * A)) (k : string) (x : A) :
  (list_to_map (reverse l) : gmap string A) !! k = Some x ↔
  ∃ before after, l = before ++ (k, x) :: after ∧ k ∉ after.*1.
Proof.
  rewrite lookup_first. split.
  - intros (l1 & l2 & Heq & Hk). exists (reverse l2), (reverse l1).
    split.
    + rewrite <- (reverse_involutive l), Heq, reverse_app, reverse_cons.
      by rewrite <- app_assoc.
    + by rewrite fmap_reverse, elem_of_reverse.
  - intros (before & after & -> & Hk). exists (reverse after), (reverse before).
    split.
    + by rewrite reverse_app, reverse_cons, <- app_assoc.
    + by rewrite fmap_reverse, elem_of_reverse.
Qed.

Lemma update_items_spec (m : gmap string node) (value : list (string * value)) :
  update_items m value
  = list_to_map (reverse ((λ iv, (iv.1, Scalar iv.2)) <$> value)) ∪ m.
Proof.
  unfold update_items. revert m. induction value as [|[k v] value IH]; intros m.
  - cbn. by rewrite (left_id_L ∅ (∪)).
  - cbn [foldl fmap list_fmap fst snd]. rewrite IH, reverse_cons, list_to_map_app.
    cbn [list_to_map foldr]. rewrite <- (assoc_L (∪)).
    cbn [fst snd]. by rewrite insert_empty, <- insert_union_singleton_l.
Qed.

Lemma flatten_bindings (config : list (string * node)) :
  flatten config = list_to_map (reverse (bindings config)).
Proof.
  unfold flatten.
  enough (H : ∀ m : gmap string node,
            foldl (λ flattened kv,
                     match kv.2 with
                     | Mapping value =>
                         if is_section kv.1 kv.2 then update_items flattened value
                         else <[kv.1 := kv.2]> flattened
                     | Scalar _ => <[kv.1 := kv.2]> flattened
                     end) m config
            = list_to_map (reverse (bindings config)) ∪ m).
  { by rewrite H, (right_id_L ∅ (∪)). }
  induction config as [|[k n] config IH]; intros m.
  - cbn. by rewrite (left_id_L ∅ (∪)).
  - cbn [foldl fst snd]. rewrite IH. unfold bindings at 2. rewrite bind_cons.
    fold (bindings config). rewrite reverse_app, list_to_map_app, <- (assoc_L (∪)).
    f_equal. cbn [fst snd].
    assert (Hins : <[k:=n]> m = list_to_map (reverse [(k, n)]) ∪ m).
    { cbn. by rewrite insert_empty, <- insert_union_singleton_l. }
    destruct n as [v|value]; [done|].
    destruct (is_section k (Mapping value)); [|done].
    apply update_items_spec.
Qed.

Lemma elem_of_bindings (config : list (string * node)) (k : string) (n : node) :
  (k, n) ∈ bindings config ↔
  ((k, n) ∈ config ∧ is_section k n = false)
  ∨ (∃ s value v, (s, Mapping value) ∈ config ∧ is_section s (Mapping value) = true
       ∧ (k, v) ∈ value ∧ n = Scalar v).
Proof.
  unfold bindings. rewrite list_elem_of_bind. split.
  - intros ([s n'] & Hin & Hc). cbn [fst snd] in Hin.
    destruct n' as [v|value].
    + apply list_elem_of_singleton in Hin as [= -> ->]. by left.
    + destruct (is_section s (Mapping value)) eqn:Es.
      * apply list_elem_of_fmap in Hin as ([k' v] & [= -> ->] & Hin).
        right. by exists s, value, v.
      * apply list_elem_of_singleton in Hin as [= -> ->]. by left.
  - intros [[Hin Hs]|(s & value & v & Hin & Hs & Hv & ->)].
    + exists (k, n). split; [|done]. cbn [fst snd].
      destruct n as [v|value]; [by apply list_elem_of_singleton|].
      rewrite Hs. by apply list_elem_of_singleton.
    + exists (s, Mapping value). split; [|done]. cbn [fst snd]. rewrite Hs.
      apply list_elem_of_fmap. by exists (k, v).
Qed.

(** X18. The flattening of [load_config_file] reads a document as the
    list of its bindings in the order of the file, those of a mapping named
    [training], [wandb] or [advanced] standing in its place under their own
    keys: a key is bound to the value of its last binding in that list, so
    that the section a key is in has no part in its meaning, and a key of a
    section overrides the same key given before it at the top level. *)
Theorem flatten_last_binding (config : list (string * node)) :
  (∀ k n, flatten config !! k = Some n ↔
          ∃ before after, bindings config = before ++ (k, n) :: after ∧ k ∉ after.*1)
  ∧ (∀ k n, (k, n) ∈ bindings config ↔
       ((k, n) ∈ config ∧ is_section k n = false)
       ∨ (∃ s value v, (s, Mapping value) ∈ config ∧ s ∈ ["training"; "wandb"; "advanced"]
            ∧ (k, v) ∈ value ∧ n = Scalar v))
  ∧ (∀ k v v' value s, s ∈ ["training"; "wandb"; "advanced"] → (k, v') ∈ value →
       ∃ w, flatten ((k, Scalar v) :: config ++ [(s, Mapping value)]) !! k
            = Some (Scalar w) ∧ (k, w) ∈ value).
Proof.
  split_and!.
  - intros k n. by rewrite flatten_bindings, lookup_last.
  - intros k n. rewrite elem_of_bindings. apply or_iff_compat_l.
    split; intros (s & value & v & Hin & Hs & Hv & ->); exists s, value, v;
      (split_and!; [done| |done|done]).
    + cbn in Hs. by apply bool_decide_eq_true in Hs.
    + cbn. by apply bool_decide_eq_true.
  - intros k v v' value s Hs Hv.
    assert (His : is_section s (Mapping value) = true) by (by apply bool_decide_eq_true).
    destruct (flatten ((k, Scalar v) :: config ++ [(s, Mapping value)]) !! k)
      as [n|] eqn:E.
    + rewrite flatten_bindings in E.
      change ((k, Scalar v) :: config ++ [(s, Mapping value)])
        with (((k, Scalar v) :: config) ++ [(s, Mapping value)]) in E.
      unfold bindings in E. rewrite bind_app in E. cbn [mbind list_bind fst snd] in E.
      rewrite His, app_nil_r, reverse_app, list_to_map_app in E.
      apply lookup_union_Some_raw in E as [E|[E1 E2]].
      * apply elem_of_list_to_map_2, elem_of_reverse, list_elem_of_fmap in E
          as ([k' w] & [= -> ->] & Hin). eauto.
      * apply not_elem_of_list_to_map_2 in E1. exfalso. apply E1.
        rewrite fmap_reverse, elem_of_reverse, <- list_fmap_compose.
        apply list_elem_of_fmap. by exists (k, v').
    + exfalso. rewrite flatten_bindings in E.
      apply not_elem_of_list_to_map_2 in E. apply E.
      rewrite fmap_reverse, elem_of_reverse. apply list_elem_of_fmap.
      exists (k, Scalar v). split; [done|]. apply elem_of_bindings. left.
      split; [left|done].
Qed.

Lemma load_preset_inv (preset : string) (preset_data : gmap string value) :
  load_preset preset = inr preset_data → (preset, preset_data) ∈ PRESETS.
Proof.
  unfold load_preset.
  destruct ((list_to_map PRESETS : gmap string (gmap string value)) !! preset)
    as [d|] eqn:E; [|done].
  intros [= <-]. by apply elem_of_list_to_map_2 in E.
Qed.

(** X19. The template that [generate_config_template] writes for a preset,
    read back and flattened as [load_config_file] does, gives the six
    training parameters of the preset under the field names of
    [TrainingConfig].  Its Weights & Biases settings come back under the keys
    [project], [save_interval] and [sample_interval], which are no fields of
    [TrainingConfig], and nothing is bound to [wandb_project],
    [wandb_save_interval] or [wandb_sample_interval]. *)
Theorem template_round_trip (preset : string) (dumped : list (string * node)) :
  generate_config_template preset = inr dumped →
  (∃ preset_data, load_preset preset = inr preset_data
     ∧ ∀ k v, preset_data !! k = Some v → flatten dumped !! k = Some (Scalar v))
  ∧ (∀ k, is_Some (flatten dumped !! k) →
       k ∈ fields ∨ k ∈ ["project"; "save_interval"; "sample_interval"])
  ∧ (∀ k, k ∈ ["project"; "save_interval"; "sample_interval"] →
       is_Some (flatten dumped !! k) ∧ k ∉ fields)
  ∧ (∀ k, k ∈ ["wandb_project"; "wandb_save_interval"; "wandb_sample_interval"] →
       k ∈ fields ∧ flatten dumped !! k = None).
Proof.
  unfold generate_config_template.
  destruct (load_preset preset) as [?|preset_data] eqn:Ep; [done|].
  apply load_preset_inv in Ep as Hin. intros Hd.
  enough (H : (map_Forall (λ k v, flatten dumped !! k = Some (Scalar v)) preset_data)
            ∧ dom (flatten dumped)
              ⊆ list_to_set (fields ++ ["project"; "save_interval"; "sample_interval"])
            ∧ Forall (λ k, is_Some (flatten dumped !! k) ∧ k ∉ fields)
                ["project"; "save_interval"; "sample_interval"]
            ∧ Forall (λ k, k ∈ fields ∧ flatten dumped !! k = None)
                ["wandb_project"; "wandb_save_interval"; "wandb_sample_interval"]).
  { destruct H as (H1 & H2 & H3 & H4). split_and!.
    - exists preset_data. split; [done|]. intros k v Hk. by apply (H1 k v).
    - intros k Hk%elem_of_dom. apply H2 in Hk.
      by apply elem_of_list_to_set, elem_of_app in Hk.
    - intros k Hk. by apply (proj1 (Forall_forall _ _) H3).
    - intros k Hk. by apply (proj1 (Forall_forall _ _) H4). }
  unfold PRESETS in Hin.
  repeat (apply elem_of_cons in Hin as [Hin|Hin]);
    [injection Hin as -> ->; vm_compute in Hd; injection Hd as <-..
    |by apply elem_of_nil in Hin].
  all: split_and!; refine (bool_decide_unpack _ _); vm_compute; exact I.
Qed.

Lemma template_round_trip_witness :
  let dumped :=
    clean_template (template (VInt 1000) (VInt 4) (VStr "adamw8bit") (VFloat "0.0004")
                             (VStr "512,768") (VInt 16)) in
  is_Some (flatten dumped !! "project") ∧ "project" ∉ fields.
Proof.
  refine (proj1 (proj2 (proj2
            (template_round_trip "fast"
               (clean_template (template (VInt 1000) (VInt 4) (VStr "adamw8bit")
                                         (VFloat "0.0004") (VStr "512,768") (VInt 16)))
               _))) "project" _).
  - vm_compute. reflexivity.
  - left.
Defined.

(** X20. [load_config_file] raises [FileNotFoundError] exactly when
    [path.exists()] answers false, and lets an exception of
    [path.exists()] itself pass as it is.  Once the path exists every
    failure that is an [Exception], the unsupported suffix and an empty
    YAML document included, is a [ValueError] whose message starts with the
    path; [KeyboardInterrupt] passes.  The suffix is compared without
    regard to case; it alone decides which parser is used, and with any
    other suffix neither parser has a part in the result. *)
Theorem load_config_file_outcome (config_path : string) (path_exists : exn + bool)
    (open_error : option exn) (path_suffix : string)
    (yaml_safe_load json_load : exn + document) :
  let r := load_config_file config_path path_exists open_error path_suffix
             yaml_safe_load json_load in
  ((∃ msg, r = inl (FileNotFoundError msg)) ↔ path_exists = inr false)
  ∧ (∀ e, path_exists = inl e → r = inl (Unhandled e))
  ∧ (∀ e, r = inl e → path_exists = inr true →
       e = Unhandled KeyboardInterrupt
       ∨ ∃ msg, e = LoadValueError ("Error loading config file " +:+ config_path +:+ ": "
                                    +:+ msg))
  ∧ (∀ flattened, r = inr flattened ↔
       path_exists = inr true ∧ open_error = None
       ∧ ∃ items, flattened = flatten items
           ∧ ((lower path_suffix = ".yaml" ∨ lower path_suffix = ".yml")
                ∧ yaml_safe_load = inr (Dict items)
              ∨ lower path_suffix = ".json" ∧ json_load = inr (Dict items)))
  ∧ (lower path_suffix ∉ [".yaml"; ".yml"; ".json"] →
       ∀ y j, r = load_config_file config_path path_exists open_error path_suffix y j)
  ∧ (path_exists = inr true → open_error = None →
     yaml_safe_load = inr (NotADict "NoneType") →
     lower path_suffix = ".yaml" ∨ lower path_suffix = ".yml" →
     ∃ msg, r = inl (LoadValueError msg)).
Proof.
  intros r. subst r. unfold load_config_file.
  assert (Hh : ∀ e, load_handler config_path e = Unhandled KeyboardInterrupt
                    ∨ ∃ msg, load_handler config_path e
                             = LoadValueError ("Error loading config file " +:+ config_path
                                               +:+ ": " +:+ msg)).
  { intros []; cbn; eauto. }
  assert (Hnf : ∀ e msg, load_handler config_path e ≠ FileNotFoundError msg).
  { by intros []. }
  destruct path_exists as [e0|[|]].
  { split_and!; [split; [by intros [? ?]|done]|by intros ? [= <-]|done
                 |split; [done|by intros [? _]]|done|done]. }
  2:{ split_and!; [split; eauto|done|done|split; [done|by intros [? _]]|done|done]. }
  destruct open_error as [e|].
  { split_and!; [split; [intros [? [= H]]; by apply Hnf in H|done]|done
                 |intros ? [= <-] _; apply Hh
                 |split; [done|by intros (_ & ? & _)]|done|done]. }
  case_bool_decide as Hy.
  - assert (Hy' : lower path_suffix = ".yaml" ∨ lower path_suffix = ".yml").
    { apply elem_of_cons in Hy as [?|Hy]; [by left|].
      apply elem_of_cons in Hy as [?|Hy]; [by right|]. by apply elem_of_nil in Hy. }
    assert (Hj : lower path_suffix ≠ ".json") by (by destruct Hy' as [-> | ->]).
    split_and!.
    + split; [|done]. intros [? H].
      destruct yaml_safe_load as [?|[?|?]]; [|done|]; injection H as H; first [by apply Hnf in H|discriminate H].
    + done.
    + intros e H _. destruct yaml_safe_load as [?|[?|?]]; [|done|];
        injection H as <-; first [apply Hh|right; eauto].
    + intros flattened. split.
      * destruct yaml_safe_load as [?|[items|?]]; [done| |done].
        intros [= <-]. split_and!; [done..|]. exists items. split; [done|]. by left.
      * intros (_ & _ & items & -> & [[_ ->]|[? _]]); done.
    + intros Hn. exfalso. apply Hn. destruct Hy' as [-> | ->]; [left|right; left].
    + intros _ _ -> _. cbn. eauto.
  - destruct (String.eqb (lower path_suffix) ".json") eqn:Ej.
    + apply String.eqb_eq in Ej. split_and!.
      * split; [|done]. intros [? H].
        destruct json_load as [?|[?|?]]; [|done|]; injection H as H; first [by apply Hnf in H|discriminate H].
      * done.
      * intros e H _. destruct json_load as [?|[?|?]]; [|done|];
          injection H as <-; first [apply Hh|right; eauto].
      * intros flattened. split.
        -- destruct json_load as [?|[items|?]]; [done| |done].
           intros [= <-]. split_and!; [done..|]. exists items. split; [done|]. by right.
        -- intros (_ & _ & items & -> & [[Hs _]|[_ ->]]); [|done].
           exfalso. apply Hy. rewrite Ej in Hs. by destruct Hs.
      * intros Hn. exfalso. apply Hn. rewrite Ej. right; right; left.
      * intros _ _ _ Hs. exfalso. apply Hy. rewrite Ej in Hs. by destruct Hs.
    + apply String.eqb_neq in Ej. split_and!.
      * split; [by intros [? ?]|done].
      * done.
      * intros e [= <-] _. right. eauto.
      * intros flattened. split; [done|].
        intros (_ & _ & items & _ & [[Hs _]|[? _]]); [|done].
        exfalso. apply Hy. destruct Hs as [-> | ->]; [left|right; left].
      * done.
      * intros _ _ _ Hs. exfalso. apply Hy. destruct Hs as [-> | ->]; [left|right; left].
Qed.

End ConfigFileSpec.

(** ** The [cancel] and [download] commands: properties *)

Module CommandSpec.

Import Py PyFacts Config Cli.

Local Ltac not_in H :=
  exfalso; cbn in H;
  repeat (apply elem_of_cons in H as [H|H]; [discriminate H|]);
  by apply elem_of_nil in H.

Local Ltac is_in :=
  cbn; repeat first [by apply list_elem_of_here | apply list_elem_of_further].

Lemma token_ok (env_token : option string) :
  (∃ tok, validate_api_token None env_token = inr tok) ↔
  (∃ tok, env_token = Some tok ∧ startswith tok "r8_" = true).
Proof.
  unfold validate_api_token. cbn [truthy negb].
  destruct env_token as [[|a t]|].
  - split; [by intros [? ?]|by intros (? & [= <-] & ?)].
  - destruct (startswith (String a t) "r8_") eqn:E; cbn [negb].
    + split; eauto.
    + split; [by intros [? ?]|]. intros (? & [= <-] & ?). congruence.
  - split; [by intros [? ?]|by intros (? & [=] & _)].
Qed.

(** X21. [cancel] contacts the service only for an identifier that
    [validate_training_id] accepts, after the user has confirmed and with a
    well-formed token, and asks for the cancellation exactly when, on top of
    that, the job is reported as [starting] or [processing].  Declining the
    prompt and a job that can no longer be cancelled both end with exit
    code 0; exit code 1 is kept for a rejected identifier, an interrupted
    prompt, a bad token and a failed call. *)
Theorem cancel_command (training_id : string) (confirm : exn + bool)
    (env_token : option string)
    (g : Lifecycle.get_response) (c : Lifecycle.cancel_response) :
  let r := cancel training_id confirm env_token g c in
  let allowed := Utils.validate_training_id training_id = inr tt ∧ confirm = inr true
                 ∧ ∃ tok, env_token = Some tok ∧ startswith tok "r8_" = true in
  (requests r ≠ [] ↔ allowed)
  ∧ (Lifecycle.CancelRequest ∈ requests r ↔
       allowed ∧ ∃ t, g = Lifecycle.GetOk t
                  ∧ Lifecycle.cancelable (Lifecycle.status t) = true)
  ∧ (code r = 0 ↔
       Utils.validate_training_id training_id = inr tt
       ∧ (confirm = inr false
          ∨ allowed ∧ ∃ t, g = Lifecycle.GetOk t
              ∧ (Lifecycle.cancelable (Lifecycle.status t) = true →
                 c = Lifecycle.CancelOk)))
  ∧ (code r = 0 ∨ code r = 1).
Proof.
  intros r allowed. subst r allowed. unfold cancel.
  destruct (Utils.validate_training_id training_id) as [?|[]] eqn:Ev.
  { split_and!; [split; [done|by intros [? _]]|split; [intros H; not_in H|by intros [[? _] _]]
                 |split; [done|by intros [? _]]|by right]. }
  destruct confirm as [?|[|]].
  { split_and!; [split; [done|by intros (_ & ? & _)]
                 |split; [intros H; not_in H|by intros [(_ & ? & _) _]]
                 |split; [done|by intros [_ [?|[(_ & ? & _) _]]]]|by right]. }
  2:{ split_and!; [split; [done|by intros (_ & ? & _)]
                   |split; [intros H; not_in H|by intros [(_ & ? & _) _]]
                   |split; [auto|done]|by left]. }
  destruct (validate_api_token None env_token) as [?|tok] eqn:Etok.
  { assert (Hno : ¬ ∃ tok, env_token = Some tok ∧ startswith tok "r8_" = true).
    { intros [tok' Htok]%token_ok. congruence. }
    split_and!; [split; [done|by intros (_ & _ & ?)]
                 |split; [intros H; not_in H|by intros [(_ & _ & ?) _]]
                 |split; [done|by intros [_ [?|[(_ & _ & ?) _]]]]|by right]. }
  assert (Hyes : ∃ tok, env_token = Some tok ∧ startswith tok "r8_" = true).
  { apply token_ok. eauto. }
  unfold Lifecycle.cancel_training.
  destruct g as [t|msg|].
  - destruct (Lifecycle.cancelable (Lifecycle.status t)) eqn:Ec.
    + destruct c as [|msg]; cbn [fst snd outcome requests code]; split_and!.
      * split; [done|]. by intros _.
      * split; [intros _; split; [done|eauto]|intros _; is_in].
      * split; [intros _; split; [done|]; right; split; [done|eauto]|done].
      * by left.
      * split; [done|]. by intros _.
      * split; [intros _; split; [done|eauto]|intros _; is_in].
      * split; [done|]. intros [_ [?|[_ (t' & [= <-] & Hc)]]]; [done|].
        by specialize (Hc Ec).
      * by right.
    + cbn [fst snd outcome requests code]; split_and!.
      * split; [done|]. by intros _.
      * split; [intros H; not_in H|]. intros [_ (t' & [= <-] & Hc)]. congruence.
      * split; [|done]. intros _. split; [done|]. right. split; [done|].
        exists t. split; [done|]. congruence.
      * by left.
  - cbn [fst snd outcome requests code]; split_and!.
    + split; [done|]. by intros _.
    + split; [intros H; not_in H|]. by intros [_ (t' & [=] & _)].
    + split; [done|]. by intros [_ [?|[_ (t' & [=] & _)]]].
    + by right.
  - cbn [fst snd outcome requests code]; split_and!.
    + split; [done|]. by intros _.
    + split; [intros H; not_in H|]. by intros [_ (t' & [=] & _)].
    + split; [done|]. by intros [_ [?|[_ (t' & [=] & _)]]].
    + by right.
Qed.

(** X22. [download] ends with exit code 0 exactly when the identifier
    passes [validate_training_id], the token is well formed, the job has
    succeeded with an output location, an input and a destination, the
    archive is fetched, and every call on the file system that the code
    does not guard succeeds: both directories are made, the archive is
    saved and extracted, [glob('*.safetensors')] yields at least one name,
    the first of which is renamed to the target unless it has that name
    already, every caption is moved, the directory is listed and
    [is_file] answers for each entry, and the temporary file is removed.
    Whenever [download_result] returns no path the exit code is 1, where
    [train --wait] ends with 0; with a rejected identifier or token nothing
    is asked of the service or of the file system. *)
Theorem download_command (training_id output_dir : string)
    (env_token : option string)
    (g : Lifecycle.get_response) (d : Materializer.download_response)
    (a : Materializer.answers) :
  let r := download training_id output_dir env_token g d a in
  let allowed := Utils.validate_training_id training_id = inr tt
                 ∧ ∃ tok, env_token = Some tok ∧ startswith tok "r8_" = true in
  (code r.1 = 0 ↔
     allowed
     ∧ ∃ t url input_config dest,
         g = Lifecycle.GetOk t ∧ Lifecycle.status t = "succeeded"
         ∧ Lifecycle.output t = Some url ∧ url ≠ ""
         ∧ Lifecycle.input t = Some input_config ∧ Lifecycle.destination t = Some dest
         ∧ d = Materializer.Fetched
         ∧ Materializer.extracted a
         ∧ (∃ original rest,
              Materializer.safetensors_files a = inr (original :: rest)
              ∧ (original ≠ Materializer.new_filename (Materializer.model_name dest)
                              (default "lora" (input_config !! "trigger_word")) →
                 Materializer.rename_model a = None))
         ∧ (∃ captions, Materializer.captions_moved a captions)
         ∧ (∃ items, Materializer.scanned a items)
         ∧ Materializer.unlink_temp a = None)
  ∧ (Materializer.returned (Materializer.download_result training_id output_dir g d a)
       = inr None → code r.1 = 1)
  ∧ (requests r.1 ≠ [] ↔ allowed)
  ∧ (¬ allowed → r.2 = [])
  ∧ (code r.1 = 0 ∨ code r.1 = 1).
Proof.
  intros r allowed. subst r allowed. unfold download.
  destruct (Utils.validate_training_id training_id) as [?|[]] eqn:Ev.
  { split_and!; [split; [done|by intros [[? _] _]]|done|split; [done|by intros [? _]]
                 |done|by right]. }
  destruct (validate_api_token None env_token) as [?|tok] eqn:Etok.
  { assert (Hno : ¬ ∃ tok, env_token = Some tok ∧ startswith tok "r8_" = true).
    { intros [tok' Htok]%token_ok. congruence. }
    split_and!; [split; [done|by intros [[_ ?] _]]|done|split; [done|by intros [_ ?]]
                 |done|by right]. }
  assert (Hyes : ∃ tok, env_token = Some tok ∧ startswith tok "r8_" = true).
  { apply token_ok. eauto. }
  assert (Hcalls : Materializer.calls
                     (Materializer.download_result training_id output_dir g d a) ≠ []).
  { unfold Materializer.download_result. repeat (case_match; try done). }
  assert (Hiff : ∀ p,
            Materializer.returned (Materializer.download_result training_id output_dir g d a)
              = inr (Some p) ↔
            ∃ t url input_config dest,
              g = Lifecycle.GetOk t ∧ Lifecycle.status t = "succeeded"
              ∧ Lifecycle.output t = Some url ∧ url ≠ ""
              ∧ Lifecycle.input t = Some input_config
              ∧ Lifecycle.destination t = Some dest
              ∧ d = Materializer.Fetched
              ∧ (Materializer.materialize output_dir
                   (Materializer.new_filename (Materializer.model_name dest)
                      (default "lora" (input_config !! "trigger_word"))) a).2
                = inr (Some p)).
  { intros p. split.
    - intros (t & url & ic & dest & ? & ? & ? & ? & ? & ? & ? & ? & _)%MaterializerMore.download_path_inv.
      exists t, url, ic, dest. by split_and!.
    - intros (t & url & ic & dest & -> & Hst & Hout & Hurl & Hin & Hdest & -> & Hm).
      by rewrite (MaterializerSpec.download_run training_id output_dir url dest t ic a
                    Hst Hout Hurl Hin Hdest). }
  destruct (Materializer.returned
              (Materializer.download_result training_id output_dir g d a))
    as [e|[p|]] eqn:Er; cbn [fst snd code requests].
  - split_and!; [split; [done|]|done|done|by intros []|by right].
    intros [_ (t & url & ic & dest & ? & ? & ? & ? & ? & ? & ? & He & Hg & Hc & Hi & Hu)].
    assert (Hp : @inl exn (option Materializer.path) e
                 = inr (Some (Materializer.PathJoin output_dir
                                (Materializer.new_filename (Materializer.model_name dest)
                                   (default "lora" (ic !! "trigger_word"))))));
      [|done].
    apply Hiff. exists t, url, ic, dest. split_and!; try done.
    apply MaterializerSpec.materialize_path. by split_and!.
  - split_and!; [split; [intros _|done]|done|done|by intros []|by left].
    split; [done|].
    destruct (proj1 (Hiff p) eq_refl) as (t & url & ic & dest & ? & ? & ? & ? & ? & ? & ? & Hm).
    apply MaterializerSpec.materialize_path in Hm as (? & ? & ? & ? & ? & _).
    exists t, url, ic, dest. by split_and!.
  - split_and!; [split; [done|]|done|done|by intros []|by right].
    intros [_ (t & url & ic & dest & ? & ? & ? & ? & ? & ? & ? & He & Hg & Hc & Hi & Hu)].
    assert (Hp : @inr exn (option Materializer.path) None
                 = inr (Some (Materializer.PathJoin output_dir
                                (Materializer.new_filename (Materializer.model_name dest)
                                   (default "lora" (ic !! "trigger_word"))))));
      [|done].
    apply Hiff. exists t, url, ic, dest. split_and!; try done.
    apply MaterializerSpec.materialize_path. by split_and!.
Qed.

End CommandSpec.

(** ** The [setup] command: properties *)

Module SetupSpec.

Import Py PyFacts Config Cli.

Lemma prompt_token_spec (answers : list string) (asked : nat) (token : string) (n : nat) :
  prompt_token answers asked = Some (token, n) ↔
  ∃ rejected rest, answers = rejected ++ token :: rest
    ∧ Forall (λ a, startswith a "r8_" = false) rejected
    ∧ startswith token "r8_" = true ∧ n = (asked + S (length rejected))%nat.
Proof.
  assert (Hne : ∀ a, truthy (Some a) && startswith a "r8_" = startswith a "r8_").
  { by intros [|? ?]. }
  revert asked. induction answers as [|a answers IH]; intros asked.
  - split; [done|]. by intros ([|? ?] & ? & ? & _).
  - cbn [prompt_token]. rewrite Hne. destruct (startswith a "r8_") eqn:Ea.
    + split.
      * intros [= <- <-]. exists [], answers. split_and!; [done|done|done|cbn; lia].
      * intros ([|b rejected] & rest & Heq & Hrej & Ht & ->).
        -- injection Heq as -> ->. f_equal. f_equal. cbn. lia.
        -- injection Heq as -> ->. apply Forall_cons in Hrej as [Hb _]. congruence.
    + rewrite IH. split.
      * intros (rejected & rest & -> & Hrej & Ht & ->).
        exists (a :: rejected), rest. split_and!; [done| |done|cbn; lia].
        by apply Forall_cons.
      * intros ([|b rejected] & rest & Heq & Hrej & Ht & ->).
        -- injection Heq as -> ->. congruence.
        -- injection Heq as -> ->. apply Forall_cons in Hrej as [_ Hrej].
           exists rejected, rest. split_and!; [done|done|done|cbn; lia].
Qed.

(** X23. Whatever [setup] writes to [.env] is the fixed text around one
    token that [validate_api_token] accepts: the token given with
    [--token] if there is one, and otherwise the first answer to the prompt
    that starts with [r8_], every answer before it having been refused.  A
    malformed [--token] is never replaced by a prompt, and an existing
    file is left alone unless the overwrite is confirmed: in both cases
    nothing is written and nothing is asked. *)
Theorem setup_writes_valid_token (token : option string) (env_exists overwrite : bool)
    (answers : list string) (can_write : bool) :
  (∀ e content, setup token env_exists overwrite answers can_write = Some e →
     written e = Some content →
     ∃ t, content = env_file t
       ∧ (∀ env, validate_api_token (Some t) env = inr t)
       ∧ (env_exists = true → overwrite = true)
       ∧ can_write = true
       ∧ (if truthy token then token = Some t ∧ prompts e = 0
          else ∃ rejected rest, answers = rejected ++ t :: rest
                 ∧ Forall (λ a, startswith a "r8_" = false) rejected
                 ∧ prompts e = S (length rejected)))
  ∧ (∀ t, token = Some t → t ≠ "" → startswith t "r8_" = false →
       setup token env_exists overwrite answers can_write = Some (SetupEnd 0 None))
  ∧ (env_exists = true → overwrite = false →
       setup token env_exists overwrite answers can_write = Some (SetupEnd 0 None))
  ∧ (setup token env_exists overwrite answers can_write = None ↔
       (env_exists = true → overwrite = true) ∧ truthy token = false
       ∧ Forall (λ a, startswith a "r8_" = false) answers).
Proof.
  assert (Hvalid : ∀ t env, startswith t "r8_" = true →
                   validate_api_token (Some t) env = inr t).
  { intros [|a t] env Ht; [done|]. unfold validate_api_token. cbn [truthy negb].
    by rewrite Ht. }
  assert (Hguard : ∀ a b, a && negb b = false ↔ (a = true → b = true)).
  { intros [|] [|]; cbn; split; auto. intros H. by specialize (H eq_refl). }
  unfold setup. split_and!.
  - intros e content He Hw.
    destruct (env_exists && negb overwrite) eqn:Eg; [by injection He as <-|].
    pose proof (proj1 (Hguard _ _) Eg) as Hg; clear Eg.
    destruct (truthy token) eqn:Et; cbn [negb] in He.
    + destruct token as [[|a t]|]; [done| |done]. cbn [truthy negb orb default id] in He.
      destruct (startswith (String a t) "r8_") eqn:Es; cbn [negb] in He;
        [|by injection He as <-].
      destruct can_write; [|by injection He as <-].
      injection He as <-. injection Hw as <-. exists (String a t).
      split_and!; [done|by intros env; apply Hvalid|done..].
    + destruct (prompt_token answers 0) as [[t n]|] eqn:Ep; [|done].
      apply prompt_token_spec in Ep as (rejected & rest & -> & Hrej & Ht & ->).
      cbn [default id] in He. rewrite Ht in He.
      destruct t as [|a t]; [done|]. cbn [truthy negb orb] in He.
      destruct can_write; [|by injection He as <-].
      injection He as <-. injection Hw as <-. exists (String a t).
      split_and!; [done|by intros env; apply Hvalid|done|done|].
      by exists rejected, rest.
  - intros t -> Hne Hs. destruct (env_exists && negb overwrite); [done|].
    destruct t as [|a t]; [done|]. cbn [truthy negb orb default id]. by rewrite Hs.
  - by intros -> ->.
  - destruct (env_exists && negb overwrite) eqn:Eg.
    { split; [done|]. intros [H _]. apply Hguard in H. congruence. }
    pose proof (proj1 (Hguard _ _) Eg) as Hg; clear Eg. destruct (truthy token) eqn:Et; cbn [negb].
    { split; [|by intros (_ & ? & _)]. repeat (case_match; try done). }
    destruct (prompt_token answers 0) as [[t n]|] eqn:Ep.
    + apply prompt_token_spec in Ep as (rejected & rest & -> & Hrej & Ht & ->).
      split; [repeat (case_match; try done)|].
      intros (_ & _ & [_ Hall]%Forall_app). apply Forall_cons in Hall as [? _]. congruence.
    + split; [|done]. intros _. split_and!; [done|done|].
      clear -Ep. revert Ep. generalize 0.
      induction answers as [|a answers IH]; intros asked Ep; [constructor|].
      cbn [prompt_token] in Ep.
      assert (Hne : truthy (Some a) && startswith a "r8_" = startswith a "r8_")
        by (by destruct a).
      rewrite Hne in Ep. destruct (startswith a "r8_") eqn:Ea; [done|].
      constructor; [done|]. by apply (IH (S asked)).
Qed.

End SetupSpec.

(** ** Archive Inspector: the failures of [validate_dataset_structure] *)

Module DatasetMore.

Import Py Dataset PyFacts DatasetFacts.

Lemma startswith_inv (s p : string) : startswith s p = true → ∃ rest, s = p +:+ rest.
Proof.
  revert s. induction p as [|a p IH]; intros s H.
  - by exists s.
  - destruct s as [|b s]; [done|]. cbn [startswith] in H.
    destruct (Ascii.eqb a b) eqn:E; [|done]. apply Ascii.eqb_eq in E as ->.
    destruct (IH s H) as [rest ->]. by exists rest.
Qed.

Lemma contains_longer (s : string) :
  contains "image/caption" s = true → contains "caption" s = true.
Proof.
  induction s as [|a s IH].
  - done.
  - cbn [contains]. intros [H|H]%orb_true_iff.
    + apply startswith_inv in H as [rest H].
      change (contains "caption" (String a s) = true). rewrite H.
      apply (contains_middle "caption" "image/" rest).
    + rewrite (IH H). apply orb_true_r.
Qed.

Lemma handler_mentions (e : exn) :
  handler e = if contains "caption" (str e) then e
              else ValueError ("Failed to validate dataset structure: " +:+ str e).
Proof.
  unfold handler. destruct (contains "caption" (str e)) eqn:E.
  - by rewrite orb_true_r.
  - destruct (contains "image/caption" (str e)) eqn:E'; [|done].
    apply contains_longer in E'. congruence.
Qed.

Lemma no_c_app (a b : string) : no_c (a +:+ b) = no_c a && no_c b.
Proof.
  unfold no_c. induction a as [|x a IH]; [done|].
  change (String x a +:+ b) with (String x (a +:+ b)). cbn [all_chars].
  by rewrite IH, andb_assoc.
Qed.

Lemma no_c_join (sep : string) (l : list string) :
  no_c sep = true → Forall (λ x, no_c x = true) l → no_c (join sep l) = true.
Proof.
  intros Hsep Hl. unfold join. induction Hl as [|x l Hx Hl IH]; [done|].
  cbn [String.concat]. destruct l as [|y l]; [done|].
  change (no_c (x +:+ sep +:+ String.concat sep (y :: l)) = true).
  by rewrite !no_c_app, Hx, Hsep, IH.
Qed.

Lemma no_c_no_caption (s : string) : no_c s = true → contains "caption" s = false.
Proof.
  unfold no_c. induction s as [|a s IH]; [done|].
  cbn [all_chars contains startswith]. intros [Ha Hs]%andb_true_iff.
  apply negb_true_iff in Ha. rewrite Ha. by apply IH.
Qed.

Section Failures.

Variable set_iter : gset string → list string.
Hypothesis set_iter_perm : ∀ X, set_iter X ≡ₚ elements X.

Lemma no_images_message_plain :
  contains "caption" (no_images_message set_iter) = false.
Proof.
  apply no_c_no_caption. unfold no_images_message. rewrite no_c_app.
  apply andb_true_iff. split; [by vm_compute|].
  apply no_c_join; [done|]. apply Forall_forall. intros x Hx.
  rewrite (set_iter_perm image_extensions) in Hx. apply elem_of_elements in Hx.
  unfold image_extensions in Hx.
  repeat (apply elem_of_union in Hx as [Hx|Hx]);
    apply elem_of_singleton in Hx as ->; by vm_compute.
Qed.

(** X24. [validate_dataset_structure] never returns [False]: it returns
    [True] or raises.  On an archive whose names could be listed every
    failure is a [ValueError]; the two messages that do not mention
    captions, for an archive without a usable entry and for one without
    images, come out behind the prefix [Failed to validate dataset
    structure: ], whatever the order in which the supported formats are
    listed.  A transport failure, or a file that is no ZIP archive, becomes
    a [ValueError] with that prefix unless its message contains [caption]:
    then the original exception is raised again as it is. *)
Theorem structure_failures (a : archive) :
  let r := validate_dataset_structure set_iter a in
  outcome r ≠ inr false
  ∧ (∀ file_list e, a = Listing file_list → outcome r = inl e → ∃ msg, e = ValueError msg)
  ∧ (∀ file_list, a = Listing file_list → (∀ f, f ∈ file_list → keep f = false) →
       outcome r = inl (ValueError ("Failed to validate dataset structure: " +:+
                                    empty_message)))
  ∧ (∀ file_list, a = Listing file_list → (∃ f, f ∈ file_list ∧ keep f = true) →
       (∀ f, ¬ is_entry Image file_list f) →
       outcome r = inl (ValueError ("Failed to validate dataset structure: " +:+
                                    no_images_message set_iter)))
  ∧ (∀ msg, a = DownloadFails msg →
       outcome r = inl (if contains "caption" msg then RequestException msg
                        else ValueError ("Failed to validate dataset structure: " +:+ msg)))
  ∧ (∀ msg, a = NotAZip msg →
       outcome r = inl (if contains "caption" msg then BadZipFile msg
                        else ValueError ("Failed to validate dataset structure: " +:+ msg))).
Proof.
  intros r. subst r.
  assert (Hfilter : ∀ file_list, (∀ f, f ∈ file_list → keep f = false) →
                    List.filter keep file_list = []).
  { induction file_list as [|f l IH]; [done|]. intros H. cbn [List.filter].
    rewrite (H f) by left. apply IH. intros g Hg. apply H. by right. }
  split_and!.
  - destruct a as [msg|msg|file_list]; [done|done|].
    unfold validate_dataset_structure. rewrite inspect_eq. cbv zeta.
    repeat case_decide; cbn [outcome]; intros Hfalse; discriminate Hfalse.
  - intros file_list e ->. unfold validate_dataset_structure. rewrite inspect_eq. cbv zeta.
    repeat case_decide; cbn [outcome]; intros [= <-]; rewrite handler_mentions;
      case_match; eauto.
  - intros file_list -> Hnone. unfold validate_dataset_structure.
    rewrite inspect_eq, decide_True by (by apply Hfilter). done.
  - intros file_list -> (f & Hf & Hk) Hno. unfold validate_dataset_structure.
    rewrite inspect_eq.
    case_decide as E1.
    { exfalso. assert (Hin : f ∈ List.filter keep file_list).
      { apply list_elem_of_In, filter_In. by rewrite <- list_elem_of_In. }
      rewrite E1 in Hin. by apply elem_of_nil in Hin. }
    case_decide as E2.
    2:{ exfalso. apply E2, members_nil_iff. intros [g Hg]. by apply (Hno g). }
    cbn [outcome]. rewrite handler_mentions. cbn [str].
    by rewrite no_images_message_plain.
  - intros msg ->. cbn [validate_dataset_structure outcome].
    rewrite handler_mentions. cbn [str]. by destruct (contains "caption" msg).
  - intros msg ->. cbn [validate_dataset_structure outcome].
    rewrite handler_mentions. cbn [str]. by destruct (contains "caption" msg).
Qed.

End Failures.

(** The address of the archive is part of the message of the transport
    failure: with [captions] in it the failure is raised again as it is,
    without the prefix. *)
Lemma structure_failures_witness :
  outcome (validate_dataset_structure elements
             (DownloadFails "404 Client Error: Not Found for url: https://host/captions.zip"))
  = inl (RequestException "404 Client Error: Not Found for url: https://host/captions.zip").
Proof.
  exact (proj1 (proj2 (proj2 (proj2 (proj2
           (structure_failures elements (λ X, reflexivity _)
              (DownloadFails
                 "404 Client Error: Not Found for url: https://host/captions.zip"))))))
           _ eq_refl).
Defined.

End DatasetMore.
